(** * ElysionEngine: the entity-component core

    A shallow embedding of [ECSDefines.hpp], [Component.hpp], [Entity.hpp],
    [Entity.cpp], [EntityManager.hpp] and [EntityManager.cpp].

    Objects that the C++ code reaches through pointers live in an explicit
    object store keyed by address; every member function takes the address
    of [this].  A call either returns normally with the new world, stops at
    a failed [assert], or has undefined behaviour (an unchecked
    out-of-range [operator[]], or a dereference of a pointer that names no
    live object). *)

From stdpp Require Import gmap strings list fin_maps.

Local Open Scope N_scope.

(** ** ECSDefines.hpp *)

(** [std::size_t] on the 64-bit targets the engine builds for. *)
Definition size_t_modulus : N := 2 ^ 64.

Abbreviation ComponentID := N.
Abbreviation Group := N.

Definition max_components : N := 32.
Definition max_groups : N := 32.

(** A template argument [T] of [get_component_type_id<T>] is named by the
    class it denotes. *)
Abbreviation type_name := string.

(** Addresses of heap or stack objects; [nullptr] is [None] at the type
    [option addr]. *)
Abbreviation addr := positive.

(** *** [std::bitset<N>] with the unchecked [operator[]] *)
Module Bitset.

Abbreviation t := N.

Definition empty : t := 0.

(** [b[pos]] read: no bounds check in the library; a position outside the
    width has no defined result. *)
Definition get (width : N) (b : t) (pos : N) : option bool :=
  if pos <? width then Some (N.testbit b pos) else None.

(** [b[pos] = v] through the reference proxy. *)
Definition set (width : N) (b : t) (pos : N) (v : bool) : option t :=
  if pos <? width
  then Some (if v then N.setbit b pos else N.clearbit b pos)
  else None.

End Bitset.

Abbreviation ComponentBitset := Bitset.t.
Abbreviation GroupBitset := Bitset.t.

(** *** [std::array<X, N>] with the unchecked [operator[]] *)
Module Array.

Definition get {X} (size : N) (a : list X) (i : N) : option X :=
  if i <? size then a !! N.to_nat i else None.

Definition set {X} (size : N) (a : list X) (i : N) (x : X) : option (list X) :=
  if i <? size then Some (<[N.to_nat i := x]> a) else None.

End Array.

(** ** Component.hpp *)

(** A component object.  [c_addr] is the address [new T] returned for it,
    [c_type] the concrete class it was constructed as, [entity] the public
    back pointer (initially [nullptr]). *)
Record Component := mkComponent {
  c_addr : addr;
  c_type : type_name;
  entity : option addr
}.

(** ** Entity.hpp *)

Abbreviation ComponentArray := (list (option addr)).

Record Entity := mkEntity {
  m_alive : bool;
  m_components : list Component;
  m_component_array : ComponentArray;
  m_component_bitset : ComponentBitset;
  m_group_bitset : GroupBitset
}.

Definition set_alive (b : bool) (e : Entity) : Entity :=
  mkEntity b (m_components e) (m_component_array e)
           (m_component_bitset e) (m_group_bitset e).

Definition set_components (cs : list Component) (e : Entity) : Entity :=
  mkEntity (m_alive e) cs (m_component_array e)
           (m_component_bitset e) (m_group_bitset e).

Definition set_component_array (a : ComponentArray) (e : Entity) : Entity :=
  mkEntity (m_alive e) (m_components e) a
           (m_component_bitset e) (m_group_bitset e).

Definition set_component_bitset (b : ComponentBitset) (e : Entity) : Entity :=
  mkEntity (m_alive e) (m_components e) (m_component_array e)
           b (m_group_bitset e).

Definition set_group_bitset (b : GroupBitset) (e : Entity) : Entity :=
  mkEntity (m_alive e) (m_components e) (m_component_array e)
           (m_component_bitset e) b.

(** The default member initialisers of [Entity]. *)
Definition Entity_new : Entity :=
  mkEntity true [] (replicate (N.to_nat max_components) None)
           Bitset.empty Bitset.empty.

(** ** EntityManager.hpp *)

(** [m_entities] holds the owning [unique_ptr]s, [m_groupedEntities] the
    [max_groups] vectors of raw [Entity*]. *)
Record EntityManager := mkEntityManager {
  m_entities : list addr;
  m_groupedEntities : list (list addr)
}.

Definition EntityManager_new : EntityManager :=
  mkEntityManager [] (replicate (N.to_nat max_groups) []).

(** ** The world *)

(** The two function-local statics of [ECSDefines.hpp]: the counter
    [last_id] and, per instantiation [T], [type_id] once initialised. *)
Record Registry := mkRegistry {
  last_id : ComponentID;
  type_id : gmap type_name ComponentID
}.

Definition Registry_new : Registry := mkRegistry 0 ∅.

(** One manager, the entities that exist (owned by the manager or not), the
    statics, and the allocation counter behind [new].  Every entity's
    [m_manager] refers to the one manager of the world. *)
Record World := mkWorld {
  registry : Registry;
  heap : gmap addr Entity;
  next_addr : addr;
  manager : EntityManager
}.

Definition World_new : World :=
  mkWorld Registry_new ∅ 1%positive EntityManager_new.

Definition set_registry (r : Registry) (w : World) : World :=
  mkWorld r (heap w) (next_addr w) (manager w).

Definition set_heap (h : gmap addr Entity) (w : World) : World :=
  mkWorld (registry w) h (next_addr w) (manager w).

Definition set_next_addr (a : addr) (w : World) : World :=
  mkWorld (registry w) (heap w) a (manager w).

Definition set_manager (m : EntityManager) (w : World) : World :=
  mkWorld (registry w) (heap w) (next_addr w) m.

(** ** Outcomes and the monad of member functions *)

Inductive result (A : Type) : Type :=
| Ok (a : A) (w : World)      (* normal return *)
| AssertFailed (w : World)    (* [assert] aborted the program in world [w] *)
| Undefined.                  (* undefined behaviour *)

Arguments Ok {A} a w.
Arguments AssertFailed {A} w.
Arguments Undefined {A}.

Definition M (A : Type) : Type := World -> result A.

Definition ret {A} (a : A) : M A := fun w => Ok a w.

Definition bind {A B} (c : M A) (k : A -> M B) : M B :=
  fun w =>
    match c w with
    | Ok a w' => k a w'
    | AssertFailed w' => AssertFailed w'
    | Undefined => Undefined
    end.

Notation "x <~ c ;; k" := (bind c (fun x => k))
  (at level 100, c at next level, right associativity).
Notation "c ;;; k" := (bind c (fun _ => k))
  (at level 100, right associativity).

Definition gets {A} (f : World -> A) : M A := fun w => Ok (f w) w.
Definition modify (f : World -> World) : M unit := fun w => Ok tt (f w).
Definition undefined {A} : M A := fun _ => Undefined.

(** [assert(b)] of [<cassert>], in a build without [NDEBUG] (the CMake
    files define none). *)
Definition assert (b : bool) : M unit :=
  fun w => if b then Ok tt w else AssertFailed w.

(** A library operation that is only defined on part of its domain. *)
Definition defined {A} (o : option A) : M A :=
  match o with
  | Some a => ret a
  | None => undefined
  end.

(** [*p] for an [Entity* p]. *)
Definition deref (p : addr) : M Entity :=
  h <~ gets heap ;; defined (h !! p).

(** Assignment to a member of [*p]. *)
Definition update_entity (p : addr) (f : Entity -> Entity) : M unit :=
  e <~ deref p ;;
  modify (fun w => set_heap (<[p := f e]> (heap w)) w).

(** [new]: a fresh address. *)
Definition new_address : M addr :=
  a <~ gets next_addr ;;
  modify (set_next_addr (Pos.succ a)) ;;;
  ret a.

(** ** ECSDefines.hpp: the type registry *)

(** [Internal::get_unique_component_id]: [return last_id++;] on a
    [std::size_t]. *)
Definition get_unique_component_id : M ComponentID :=
  r <~ gets registry ;;
  modify (set_registry
            (mkRegistry ((last_id r + 1) mod size_t_modulus) (type_id r))) ;;;
  ret (last_id r).

(** [get_component_type_id<T>]: the static [type_id] is initialised by the
    first call for [T] and returned by every call. *)
Definition get_component_type_id (T : type_name) : M ComponentID :=
  r <~ gets registry ;;
  match type_id r !! T with
  | Some id => ret id
  | None =>
      id <~ get_unique_component_id ;;
      modify (fun w =>
                set_registry
                  (mkRegistry (last_id (registry w))
                              (<[T := id]> (type_id (registry w)))) w) ;;;
      ret id
  end.

(** ** Entity.cpp: construction *)

(** [Entity::Entity(EntityManager&)]: the object at [this] starts with the
    default member initialisers. *)
Definition Entity_ctor (this : addr) : M unit :=
  modify (fun w => set_heap (<[this := Entity_new]> (heap w)) w).

(** An [Entity] that the caller defines itself, as the unit tests do:
    storage, then the constructor.  The manager does not own it. *)
Definition Entity_create : M addr :=
  this <~ new_address ;;
  Entity_ctor this ;;;
  ret this.

(** ** EntityManager.cpp, first part *)

Definition EntityManager_add_to_group (entity : addr) (group : Group) : M unit :=
  m <~ gets manager ;;
  v <~ defined (Array.get max_groups (m_groupedEntities m) group) ;;
  gs <~ defined (Array.set max_groups (m_groupedEntities m) group (v ++ [entity])) ;;
  modify (set_manager (mkEntityManager (m_entities m) gs)).

Definition EntityManager_get_entities_by_group (group : Group) : M (list addr) :=
  m <~ gets manager ;;
  defined (Array.get max_groups (m_groupedEntities m) group).

Definition EntityManager_add_entity : M addr :=
  e <~ new_address ;;
  Entity_ctor e ;;;
  modify (fun w =>
            set_manager
              (mkEntityManager (m_entities (manager w) ++ [e])
                               (m_groupedEntities (manager w))) w) ;;;
  ret e.

(** ** Entity.cpp and the inline members of Entity.hpp *)

Definition Entity_is_alive (this : addr) : M bool :=
  e <~ deref this ;; ret (m_alive e).

Definition Entity_destroy (this : addr) : M unit :=
  update_entity this (set_alive false).

Definition Entity_has_group (this : addr) (group : Group) : M bool :=
  e <~ deref this ;;
  defined (Bitset.get max_groups (m_group_bitset e) group).

Definition Entity_add_group (this : addr) (group : Group) : M unit :=
  e <~ deref this ;;
  b <~ defined (Bitset.set max_groups (m_group_bitset e) group true) ;;
  update_entity this (set_group_bitset b) ;;;
  EntityManager_add_to_group this group.

Definition Entity_remove_group (this : addr) (group : Group) : M unit :=
  e <~ deref this ;;
  b <~ defined (Bitset.set max_groups (m_group_bitset e) group false) ;;
  update_entity this (set_group_bitset b).

Definition Entity_has_component (T : type_name) (this : addr) : M bool :=
  id <~ get_component_type_id T ;;
  e <~ deref this ;;
  defined (Bitset.get max_components (m_component_bitset e) id).

Definition Entity_add_component (T : type_name) (this : addr) : M addr :=
  h <~ Entity_has_component T this ;;
  assert (negb h) ;;;
  c <~ new_address ;;
  update_entity this
    (fun e => set_components (m_components e ++ [mkComponent c T (Some this)]) e) ;;;
  id <~ get_component_type_id T ;;
  e <~ deref this ;;
  a <~ defined (Array.set max_components (m_component_array e) id (Some c)) ;;
  update_entity this (set_component_array a) ;;;
  id' <~ get_component_type_id T ;;
  e' <~ deref this ;;
  b <~ defined (Bitset.set max_components (m_component_bitset e') id' true) ;;
  update_entity this (set_component_bitset b) ;;;
  ret c.

(** [get_component<T>] returns [*reinterpret_cast<T*>(ptr)]: the address
    stored in the slot, whatever object it names; a null slot cannot be
    dereferenced. *)
Definition Entity_get_component (T : type_name) (this : addr) : M addr :=
  h <~ Entity_has_component T this ;;
  assert h ;;;
  id <~ get_component_type_id T ;;
  e <~ deref this ;;
  ptr <~ defined (Array.get max_components (m_component_array e) id) ;;
  defined ptr.

(** *** Dispatch

    [Component::update] and [Component::draw] are virtual; what an override
    does is not part of the core.  A dispatch pass is observed as the
    sequence of member calls it makes. *)
Inductive call (float : Type) : Type :=
| EntityUpdate (e : addr) (dt : float)
| ComponentUpdate (c : addr) (dt : float)
| EntityDraw (e : addr)
| ComponentDraw (c : addr).

Arguments EntityUpdate {float} e dt.
Arguments ComponentUpdate {float} c dt.
Arguments EntityDraw {float} e.
Arguments ComponentDraw {float} c.

(** A range-based [for] whose body makes calls. *)
Fixpoint for_each {A C} (body : A -> M (list C)) (l : list A) : M (list C) :=
  match l with
  | [] => ret []
  | x :: l' =>
      t <~ body x ;;
      t' <~ for_each body l' ;;
      ret (t ++ t')
  end.

(** Modelled from the spec: the bodies of [Component::update] and
    [Component::draw].  [Component.cpp] is not among the sources; the spec
    gives both as hooks that do nothing unless a component class overrides
    them.  The call is recorded and the world is left as it is. *)
Definition Component_update {float} (c : Component) (dt : float)
  : M (list (call float)) :=
  ret [ComponentUpdate (c_addr c) dt].

Definition Component_draw {float} (c : Component) : M (list (call float)) :=
  ret [ComponentDraw (c_addr c)].

Definition Entity_update {float} (this : addr) (dt : float)
  : M (list (call float)) :=
  e <~ deref this ;;
  t <~ for_each (fun c => Component_update c dt) (m_components e) ;;
  ret (EntityUpdate this dt :: t).

Definition Entity_draw {float} (this : addr) : M (list (call float)) :=
  e <~ deref this ;;
  t <~ for_each (fun c => Component_draw (float := float) c) (m_components e) ;;
  ret (EntityDraw this :: t).

(** ** EntityManager.cpp, second part *)

Definition EntityManager_update {float} (dt : float) : M (list (call float)) :=
  m <~ gets manager ;;
  for_each (fun e => Entity_update e dt) (m_entities m).

Definition EntityManager_draw {float} : M (list (call float)) :=
  m <~ gets manager ;;
  for_each (fun e => Entity_draw (float := float) e) (m_entities m).

(** [v.erase(std::remove_if(begin(v), end(v), pred), end(v))]: the elements
    for which [pred] is false stay, in order; the others are returned
    second, as the caller may own them. *)
Fixpoint erase_remove_if {A} (pred : A -> M bool) (v : list A)
  : M (list A * list A) :=
  match v with
  | [] => ret ([], [])
  | x :: v' =>
      b <~ pred x ;;
      r <~ erase_remove_if pred v' ;;
      ret (if b : bool then (r.1, x :: r.2) else (x :: r.1, r.2))
  end.

(** The lambda of the first loop, [||] short-circuiting. *)
Definition refresh_group_pred (i : Group) (mEntity : addr) : M bool :=
  alive <~ Entity_is_alive mEntity ;;
  if negb alive then ret true
  else
    g <~ Entity_has_group mEntity i ;;
    ret (negb g).

(** The lambda of the second [remove_if]. *)
Definition refresh_entity_pred (entity : addr) : M bool :=
  alive <~ Entity_is_alive entity ;;
  ret (negb alive).

(** Body of [for (auto i(0u); i < max_groups; ++i)]. *)
Definition refresh_group (i : Group) : M unit :=
  m <~ gets manager ;;
  v <~ defined (Array.get max_groups (m_groupedEntities m) i) ;;
  r <~ erase_remove_if (refresh_group_pred i) v ;;
  gs <~ defined (Array.set max_groups (m_groupedEntities m) i r.1) ;;
  modify (set_manager (mkEntityManager (m_entities m) gs)).

Fixpoint for_range (body : N -> M unit) (from : N) (count : nat) : M unit :=
  match count with
  | O => ret tt
  | S n => body from ;;; for_range body (from + 1) n
  end.

(** Destruction of the [unique_ptr]s that [erase] drops: each deletes its
    entity, and with it the entity's components. *)
Definition delete_entities (ps : list addr) : M unit :=
  modify (fun w => set_heap (foldr delete (heap w) ps) w).

Definition EntityManager_refresh : M unit :=
  for_range refresh_group 0 (N.to_nat max_groups) ;;;
  m <~ gets manager ;;
  r <~ erase_remove_if refresh_entity_pred (m_entities m) ;;
  modify (fun w =>
            set_manager
              (mkEntityManager r.1 (m_groupedEntities (manager w))) w) ;;;
  delete_entities r.2.

(** * The maths helpers, instantiated at [int32_t]

    [Maths.hpp], [Util.hpp] and the three vector headers are templates.
    [Vector2Int], [Vector3Int] and [Vector4Int] instantiate them at
    [int32_t]; that instance is embedded here.  Signed overflow and division
    by zero are undefined in C++: an operation returns [None] for them.
    The [float] and [double] instances are not embedded, nor are
    [magnitude()] and [normalized()], which call [Util::square_root],
    whose body names a function ([sqrt_helper]) that is not declared. *)

Module Int32.

Local Open Scope Z_scope.

Definition int_min : Z := - 2 ^ 31.
Definition int_max : Z := 2 ^ 31 - 1.

Definition in_range (v : Z) : bool := (int_min <=? v) && (v <=? int_max).

(** The result of an [int] operation whose mathematical value is [v]. *)
Definition checked (v : Z) : option Z := if in_range v then Some v else None.

Definition add (a b : Z) : option Z := checked (a + b).
Definition sub (a b : Z) : option Z := checked (a - b).
Definition mul (a b : Z) : option Z := checked (a * b).
Definition neg (a : Z) : option Z := checked (- a).

(** [a / b] truncates towards zero. *)
Definition div (a b : Z) : option Z :=
  if b =? 0 then None else checked (a ÷ b).

End Int32.

(** ** Util.hpp and Maths.hpp: [Util::clamp]

    [Graphics::Util::clamp] and [Maths::Util::clamp] have the same body,
    [std::max(lower, std::min(n, upper))]. *)
Module Util.

Local Open Scope Z_scope.

(** [std::max(a, b)] is [(a < b) ? b : a]; [std::min(a, b)] is
    [(b < a) ? b : a]. *)
Definition std_max (a b : Z) : Z := if a <? b then b else a.
Definition std_min (a b : Z) : Z := if b <? a then b else a.

Definition clamp (n lower upper : Z) : Z := std_max lower (std_min n upper).

(** [Util::lerp] with [T] and [D] both [int32_t]:
    [start + percent * (end - start)]. *)
Definition lerp (start end_ percent : Z) : option Z :=
  difference ← Int32.sub end_ start;
  scaled ← Int32.mul percent difference;
  Int32.add start scaled.

End Util.

(** ** Vector2.hpp at [int32_t] *)
Module Vector2Int.

Local Open Scope Z_scope.

Record t := mk { x : Z; y : Z }.

(** [tVector2(const T value)]. *)
Definition splat (value : Z) : t := mk value value.

(** The members in declaration order, which is the order [(&x)[i]] walks. *)
Definition members (v : t) : list Z := [x v; y v].

(** [operator[]]: the result of [Util::clamp(i, 0, 1)] is discarded. *)
Definition index (v : t) (i : Z) : option Z :=
  let _ := Util.clamp i 0 1 in
  if i <? 0 then None else members v !! Z.to_nat i.

Definition neg (rhs : t) : option t :=
  a ← Int32.neg (x rhs); b ← Int32.neg (y rhs); Some (mk a b).

Definition add (lhs rhs : t) : option t :=
  a ← Int32.add (x lhs) (x rhs); b ← Int32.add (y lhs) (y rhs); Some (mk a b).

(** [lhs + (-rhs)]. *)
Definition sub (lhs rhs : t) : option t := n ← neg rhs; add lhs n.

Definition mul (lhs : t) (rhs : Z) : option t :=
  a ← Int32.mul (x lhs) rhs; b ← Int32.mul (y lhs) rhs; Some (mk a b).

Definition div (lhs : t) (rhs : Z) : option t :=
  a ← Int32.div (x lhs) rhs; b ← Int32.div (y lhs) rhs; Some (mk a b).

Definition squared_magnitude (v : t) : option Z :=
  xx ← Int32.mul (x v) (x v); yy ← Int32.mul (y v) (y v); Int32.add xx yy.

Definition dot (lhs rhs : t) : option Z :=
  xx ← Int32.mul (x lhs) (x rhs); yy ← Int32.mul (y lhs) (y rhs); Int32.add xx yy.

(** The [int32_t] specialisation of [operator==]. *)
Definition eq (lhs rhs : t) : bool := (x lhs =? x rhs) && (y lhs =? y rhs).

Definition neq (lhs rhs : t) : bool := negb (eq lhs rhs).

Definition zero : t := splat 0.
Definition one : t := splat 1.
Definition up : t := mk 0 1.
Definition down : t := mk 0 (-1).
Definition left : t := mk (-1) 0.
Definition right : t := mk 1 0.

End Vector2Int.

(** ** Vector3.hpp at [int32_t] *)
Module Vector3Int.

Local Open Scope Z_scope.

Record t := mk { x : Z; y : Z; z : Z }.

Definition splat (value : Z) : t := mk value value value.

Definition members (v : t) : list Z := [x v; y v; z v].

(** [operator[]]: two tests, then [(&x)[i]]. *)
Definition index (v : t) (i : Z) : option Z :=
  if i <=? 0 then Some (x v)
  else if 2 <=? i then Some (z v)
  else members v !! Z.to_nat i.

Definition neg (rhs : t) : option t :=
  a ← Int32.neg (x rhs); b ← Int32.neg (y rhs); c ← Int32.neg (z rhs);
  Some (mk a b c).

Definition add (lhs rhs : t) : option t :=
  a ← Int32.add (x lhs) (x rhs); b ← Int32.add (y lhs) (y rhs);
  c ← Int32.add (z lhs) (z rhs); Some (mk a b c).

Definition sub (lhs rhs : t) : option t := n ← neg rhs; add lhs n.

Definition mul (lhs : t) (rhs : Z) : option t :=
  a ← Int32.mul (x lhs) rhs; b ← Int32.mul (y lhs) rhs;
  c ← Int32.mul (z lhs) rhs; Some (mk a b c).

Definition div (lhs : t) (rhs : Z) : option t :=
  a ← Int32.div (x lhs) rhs; b ← Int32.div (y lhs) rhs;
  c ← Int32.div (z lhs) rhs; Some (mk a b c).

Definition squared_magnitude (v : t) : option Z :=
  xx ← Int32.mul (x v) (x v); yy ← Int32.mul (y v) (y v);
  zz ← Int32.mul (z v) (z v);
  s ← Int32.add xx yy; Int32.add s zz.

(** [lhs.x * rhs.x + lhs.y * rhs.y * lhs.z * rhs.z]: one sum, whose
    second operand is a product of four. *)
Definition dot (lhs rhs : t) : option Z :=
  xx ← Int32.mul (x lhs) (x rhs);
  yy ← Int32.mul (y lhs) (y rhs);
  yyz ← Int32.mul yy (z lhs);
  yyzz ← Int32.mul yyz (z rhs);
  Int32.add xx yyzz.

Definition cross (lhs rhs : t) : option t :=
  a1 ← Int32.mul (y lhs) (z rhs); a2 ← Int32.mul (z lhs) (y rhs);
  a ← Int32.sub a1 a2;
  b1 ← Int32.mul (z lhs) (x rhs); b2 ← Int32.mul (x lhs) (z rhs);
  b ← Int32.sub b1 b2;
  c1 ← Int32.mul (x lhs) (y rhs); c2 ← Int32.mul (y lhs) (x rhs);
  c ← Int32.sub c1 c2;
  Some (mk a b c).

(** The [int32_t] specialisation of [operator==]:
    [lhs.x == rhs.x && lhs.y == rhs.y && lhs.x == rhs.x]. *)
Definition eq (lhs rhs : t) : bool :=
  (x lhs =? x rhs) && (y lhs =? y rhs) && (x lhs =? x rhs).

Definition neq (lhs rhs : t) : bool := negb (eq lhs rhs).

Definition zero : t := splat 0.
Definition one : t := splat 1.
Definition up : t := mk 0 1 0.
Definition down : t := mk 0 (-1) 0.
Definition left : t := mk (-1) 0 0.
Definition right : t := mk 1 0 0.
Definition forward : t := mk 0 0 1.
Definition backward : t := mk 0 0 (-1).

End Vector3Int.

(** ** Vector4.hpp at [int32_t] *)
Module Vector4Int.

Local Open Scope Z_scope.

Record t := mk { x : Z; y : Z; z : Z; w : Z }.

Definition splat (value : Z) : t := mk value value value value.

Definition members (v : t) : list Z := [x v; y v; z v; w v].

(** [operator[]]: the result of [Util::clamp(i, 0, 3)] is discarded. *)
Definition index (v : t) (i : Z) : option Z :=
  let _ := Util.clamp i 0 3 in
  if i <? 0 then None else members v !! Z.to_nat i.

Definition neg (rhs : t) : option t :=
  a ← Int32.neg (x rhs); b ← Int32.neg (y rhs);
  c ← Int32.neg (z rhs); d ← Int32.neg (w rhs);
  Some (mk a b c d).

Definition add (lhs rhs : t) : option t :=
  a ← Int32.add (x lhs) (x rhs); b ← Int32.add (y lhs) (y rhs);
  c ← Int32.add (z lhs) (z rhs); d ← Int32.add (w lhs) (w rhs);
  Some (mk a b c d).

Definition sub (lhs rhs : t) : option t := n ← neg rhs; add lhs n.

Definition mul (lhs : t) (rhs : Z) : option t :=
  a ← Int32.mul (x lhs) rhs; b ← Int32.mul (y lhs) rhs;
  c ← Int32.mul (z lhs) rhs; d ← Int32.mul (w lhs) rhs;
  Some (mk a b c d).

Definition div (lhs : t) (rhs : Z) : option t :=
  a ← Int32.div (x lhs) rhs; b ← Int32.div (y lhs) rhs;
  c ← Int32.div (z lhs) rhs; d ← Int32.div (w lhs) rhs;
  Some (mk a b c d).

Definition squared_magnitude (v : t) : option Z :=
  xx ← Int32.mul (x v) (x v); yy ← Int32.mul (y v) (y v);
  zz ← Int32.mul (z v) (z v); ww ← Int32.mul (w v) (w v);
  s ← Int32.add xx yy; s' ← Int32.add s zz; Int32.add s' ww.

Definition dot (lhs rhs : t) : option Z :=
  xx ← Int32.mul (x lhs) (x rhs); yy ← Int32.mul (y lhs) (y rhs);
  zz ← Int32.mul (z lhs) (z rhs); ww ← Int32.mul (w lhs) (w rhs);
  s ← Int32.add xx yy; s' ← Int32.add s zz; Int32.add s' ww.

(** The [int32_t] specialisation of [operator==]:
    [lhs.x == rhs.x && lhs.y == rhs.y && lhs.x == rhs.x && lhs.w == rhs.w]. *)
Definition eq (lhs rhs : t) : bool :=
  (x lhs =? x rhs) && (y lhs =? y rhs) && (x lhs =? x rhs) && (w lhs =? w rhs).

Definition neq (lhs rhs : t) : bool := negb (eq lhs rhs).

Definition zero : t := splat 0.
Definition one : t := splat 1.

End Vector4Int.

(** * UniqueResource.hpp

    [UniqueResource<TBehavior>] keeps one handle and hands it to the
    behaviour's [deinit] when it lets go of it.  The behaviour is a
    parameter: its handle type, the value [null_handle()] returns, and
    [deinit], whose effect lies outside the class and is recorded as a call.
    Objects are kept in a store by address, since two arguments of a member
    may be the same object.  A member called on an address that holds no
    object yields [None].  [operator==] and [operator!=] are not embedded:
    their bodies name a member [_handle] that the class does not have. *)
Module UniqueResource.

Section Behaviour.

Context {handle_type : Type} `{EqDecision handle_type}.
Variable null_handle : handle_type.

(** The [m_handle] of every live object, and the arguments of the calls of
    [deinit] so far, oldest first. *)
Record state := mk_state {
  objects : gmap addr handle_type;
  deinit_calls : list handle_type
}.

Definition set_m_handle (this : addr) (h : handle_type) (s : state) : state :=
  mk_state (<[this := h]> (objects s)) (deinit_calls s).

(** [as_behaviour().deinit(handle)]. *)
Definition deinit (h : handle_type) (s : state) : state :=
  mk_state (objects s) (deinit_calls s ++ [h]).

(** [UniqueResource()]. *)
Definition ctor_default (this : addr) (s : state) : option (unit * state) :=
  Some (tt, set_m_handle this null_handle s).

(** [UniqueResource(const handle_type&)]. *)
Definition ctor_handle (this : addr) (handle : handle_type) (s : state)
  : option (unit * state) :=
  Some (tt, set_m_handle this handle s).

Definition release (this : addr) (s : state) : option (handle_type * state) :=
  temp_handle ← objects s !! this;
  Some (temp_handle, set_m_handle this null_handle s).

(** [reset()]. *)
Definition reset (this : addr) (s : state) : option (unit * state) :=
  m_handle ← objects s !! this;
  Some (tt, set_m_handle this null_handle (deinit m_handle s)).

(** [reset(const handle_type&)]. *)
Definition reset_handle (this : addr) (handle : handle_type) (s : state)
  : option (unit * state) :=
  m_handle ← objects s !! this;
  Some (tt, set_m_handle this handle (deinit m_handle s)).

(** [~UniqueResource()]: [reset()], then the object is gone. *)
Definition dtor (this : addr) (s : state) : option (unit * state) :=
  '(_, s1) ← reset this s;
  Some (tt, mk_state (delete this (objects s1)) (deinit_calls s1)).

(** [UniqueResource(UniqueResource&& rhs)]. *)
Definition move_ctor (this rhs : addr) (s : state) : option (unit * state) :=
  '(h, s1) ← release rhs s;
  Some (tt, set_m_handle this h s1).

(** [operator=(UniqueResource&& rhs)]. *)
Definition move_assign (this rhs : addr) (s : state) : option (unit * state) :=
  '(h, s1) ← release rhs s;
  reset_handle this h s1.

(** [swap(UniqueResource& rhs)]: [std::swap(m_handle, rhs.m_handle)], three
    moves through a temporary. *)
Definition swap (this rhs : addr) (s : state) : option (unit * state) :=
  tmp ← objects s !! this;
  let s1 := s in
  b ← objects s1 !! rhs;
  let s2 := set_m_handle this b s1 in
  _ ← objects s2 !! rhs;
  Some (tt, set_m_handle rhs tmp s2).

Definition get (this : addr) (s : state) : option (handle_type * state) :=
  h ← objects s !! this; Some (h, s).

Definition operator_bool (this : addr) (s : state) : option (bool * state) :=
  h ← objects s !! this; Some (bool_decide (h <> null_handle), s).

(** The free function [swap(lhs, rhs)]. *)
Definition swap_free (lhs rhs : addr) (s : state) : option (unit * state) :=
  swap lhs rhs s.

End Behaviour.

End UniqueResource.

(** * Specification vocabulary

    The predicates, pure counterparts and sample inputs the statements of
    the properties are written with. *)

(** ** Reading the store *)

(** The code's own predicates, evaluated in a world. *)
Definition alive_at (w : World) (p : addr) : bool :=
  match Entity_is_alive p w with
  | Ok b _ => b
  | _ => false
  end.

Definition in_group_at (w : World) (g : Group) (p : addr) : bool :=
  match Entity_has_group p g w with
  | Ok b _ => b
  | _ => false
  end.

(** A pointer that names a live object. *)
Definition valid (w : World) (p : addr) : Prop := is_Some (heap w !! p).

Definition groups (w : World) : list (list addr) :=
  m_groupedEntities (manager w).

Definition owned (w : World) : list addr := m_entities (manager w).

(** ** Well-formed worlds *)

(** What the class definitions guarantee of a manager between calls: the
    array has its [max_groups] slots, each [unique_ptr] owns a distinct
    live entity, and no group entry dangles. *)
Record world_wf (w : World) : Prop := mk_world_wf {
  wf_group_count : length (groups w) = N.to_nat max_groups;
  wf_owned_valid : Forall (valid w) (owned w);
  wf_owned_nodup : NoDup (owned w);
  wf_grouped_valid : Forall (Forall (valid w)) (groups w)
}.

(** ** The compaction pass as a function on worlds *)

(** The test of the first loop's lambda, negated: the entries that stay. *)
Definition keeps (w : World) (g : Group) (p : addr) : bool :=
  alive_at w p && in_group_at w g p.

Definition set_groups (gs : list (list addr)) (w : World) : World :=
  set_manager (mkEntityManager (owned w) gs) w.

Definition compact_slot (w : World) (i : nat) (l : list addr) : list addr :=
  filter (fun p => keeps w (N.of_nat i) p) l.

(** The whole pass: every slot filtered by the lambda of the first loop,
    the owned vector filtered by the lambda of the second, the dropped
    entities deleted. *)
Definition refresh_world (w : World) : World :=
  mkWorld (registry w)
          (foldr delete (heap w) (filter (fun p => negb (alive_at w p)) (owned w)))
          (next_addr w)
          (mkEntityManager (filter (fun p => alive_at w p) (owned w))
                           (imap (compact_slot w) (groups w))).

(** ** A world to run the statements on

    Three owned entities and one the manager does not own; the second is
    destroyed, the third has left group 3 again; group 3 lists the first
    entity twice and the fourth once. *)
Definition sample_run : M unit :=
  e1 <~ EntityManager_add_entity ;;
  e2 <~ EntityManager_add_entity ;;
  e3 <~ EntityManager_add_entity ;;
  Entity_add_component "Transform" e1 ;;;
  Entity_add_component "Sprite" e1 ;;;
  Entity_add_component "Transform" e2 ;;;
  Entity_add_group e1 3 ;;;
  Entity_add_group e2 3 ;;;
  Entity_add_group e3 3 ;;;
  Entity_add_group e1 3 ;;;
  Entity_add_group e2 10 ;;;
  Entity_add_group e3 31 ;;;
  e4 <~ Entity_create ;;
  Entity_add_group e4 3 ;;;
  Entity_remove_group e3 3 ;;;
  Entity_destroy e2.

Definition sample_world : World :=
  match sample_run World_new with
  | Ok _ w => w
  | _ => World_new
  end.

(** The first entity of [sample_world]: alive, two components, in group 3. *)
Definition sample_entity : Entity :=
  default Entity_new (heap sample_world !! 1%positive).

#[global] Instance valid_dec w p : Decision (valid w p).
Proof. unfold valid. apply _. Defined.

#[global] Instance world_wf_dec w : Decision (world_wf w).
Proof.
  refine (cast_if (decide (length (groups w) = N.to_nat max_groups
                           /\ Forall (valid w) (owned w)
                           /\ NoDup (owned w)
                           /\ Forall (Forall (valid w)) (groups w)))).
  - destruct a as (? & ? & ? & ?). by split.
  - intros []. apply n. by repeat split.
Defined.

Ltac sample_wf := apply (bool_decide_unpack _); vm_compute; exact I.

(** ** Dispatch *)

(** The components an entity owns, in attach order. *)
Definition components_at (w : World) (p : addr) : list Component :=
  match heap w !! p with
  | Some e => m_components e
  | None => []
  end.

(** The calls one [Entity::update(dt)] makes, itself included. *)
Definition entity_update_calls {float} (w : World) (dt : float) (e : addr)
  : list (call float) :=
  EntityUpdate e dt :: ((fun c => ComponentUpdate (c_addr c) dt) <$> components_at w e).

Definition entity_draw_calls {float} (w : World) (e : addr) : list (call float) :=
  EntityDraw e :: ((fun c => ComponentDraw (c_addr c)) <$> components_at w e).

(** The entities a pass called [update], respectively [draw], on. *)
Definition updated_entity {float} (c : call float) : option addr :=
  match c with
  | EntityUpdate e _ => Some e
  | _ => None
  end.

Definition drawn_entity {float} (c : call float) : option addr :=
  match c with
  | EntityDraw e => Some e
  | _ => None
  end.

(** ** Failures *)

(** The one checked failure the code has is a failed [assert]. *)
Definition detected {A} (r : result A) : Prop := exists w, r = AssertFailed w.

(** ** The type registry *)

(** [get_component_type_id<T>] for each [T] of a list, in order. *)
Fixpoint get_component_type_ids (Ts : list type_name) : M (list ComponentID) :=
  match Ts with
  | [] => ret []
  | T :: Ts' =>
      id <~ get_component_type_id T ;;
      ids <~ get_component_type_ids Ts' ;;
      ret (id :: ids)
  end.

(** The ids [n, n+1, ..] for [count] types. *)
Fixpoint ids_from (n : ComponentID) (count : nat) : list ComponentID :=
  match count with
  | O => []
  | S c => n :: ids_from (n + 1) c
  end.

(** Thirty-three component classes. *)
Definition sample_types : list type_name :=
  ["C00"; "C01"; "C02"; "C03"; "C04"; "C05"; "C06"; "C07"; "C08";
   "C09"; "C10"; "C11"; "C12"; "C13"; "C14"; "C15"; "C16"; "C17";
   "C18"; "C19"; "C20"; "C21"; "C22"; "C23"; "C24"; "C25"; "C26";
   "C27"; "C28"; "C29"; "C30"; "C31"; "C32"].

(** The world once the first 32 of them have been used, and the world once
    the 33rd has been used too. *)
Definition world_32_types : World :=
  match get_component_type_ids (take 32 sample_types) World_new with
  | Ok _ w => w
  | _ => World_new
  end.

Definition world_33_types : World :=
  match get_component_type_id "C32" world_32_types with
  | Ok _ w => w
  | _ => world_32_types
  end.

(** What [get_component_type_id<T>] returns in a world, and the world it
    leaves. *)
Definition type_id_of (w : World) (T : type_name) : ComponentID :=
  match type_id (registry w) !! T with
  | Some id => id
  | None => last_id (registry w)
  end.

Definition register (T : type_name) (w : World) : World :=
  match type_id (registry w) !! T with
  | Some _ => w
  | None =>
      set_registry
        (mkRegistry ((last_id (registry w) + 1) mod size_t_modulus)
                    (<[T := last_id (registry w)]> (type_id (registry w)))) w
  end.

(** ** Components *)

(** The entity and the world a successful [add_component<T>] leaves. *)
Definition add_component_entity (T : type_name) (id : ComponentID)
    (this c : addr) (e : Entity) : Entity :=
  mkEntity (m_alive e)
           (m_components e ++ [mkComponent c T (Some this)])
           (<[N.to_nat id := Some c]> (m_component_array e))
           (N.setbit (m_component_bitset e) id)
           (m_group_bitset e).

Definition add_component_world (T : type_name) (this : addr) (e : Entity)
    (w : World) : World :=
  mkWorld (registry (register T w))
          (<[this := add_component_entity T (type_id_of w T) this (next_addr w) e]>
             (heap w))
          (Pos.succ (next_addr w))
          (manager w).

(** ** Frames *)

(** Calls that return the world they were given. *)
Definition read_only {A} (c : M A) : Prop :=
  forall w a w', c w = Ok a w' -> w' = w.

(** What the manager-only updates leave alone. *)
Definition same_store (w w' : World) : Prop :=
  registry w' = registry w /\ heap w' = heap w /\ next_addr w' = next_addr w.

(** ** The public interface as a language of calls *)

Inductive api_call (float : Type) : Type :=
| call_create_entity
| call_add_entity
| call_update (dt : float)
| call_draw
| call_refresh
| call_add_to_group (e : addr) (g : Group)
| call_get_entities_by_group (g : Group)
| call_is_alive (e : addr)
| call_destroy (e : addr)
| call_has_group (e : addr) (g : Group)
| call_add_group (e : addr) (g : Group)
| call_remove_group (e : addr) (g : Group)
| call_has_component (T : type_name) (e : addr)
| call_add_component (T : type_name) (e : addr)
| call_get_component (T : type_name) (e : addr).

Arguments call_create_entity {float}.
Arguments call_add_entity {float}.
Arguments call_update {float} dt.
Arguments call_draw {float}.
Arguments call_refresh {float}.
Arguments call_add_to_group {float} e g.
Arguments call_get_entities_by_group {float} g.
Arguments call_is_alive {float} e.
Arguments call_destroy {float} e.
Arguments call_has_group {float} e g.
Arguments call_add_group {float} e g.
Arguments call_remove_group {float} e g.
Arguments call_has_component {float} T e.
Arguments call_add_component {float} T e.
Arguments call_get_component {float} T e.

(** A call made for its effect. *)
Definition discard {A} (c : M A) : M unit := bind c (fun _ => ret tt).

Definition perform {float} (c : api_call float) : M unit :=
  match c with
  | call_create_entity => discard Entity_create
  | call_add_entity => discard EntityManager_add_entity
  | call_update dt => discard (EntityManager_update dt)
  | call_draw => discard (EntityManager_draw (float := float))
  | call_refresh => EntityManager_refresh
  | call_add_to_group e g => EntityManager_add_to_group e g
  | call_get_entities_by_group g => discard (EntityManager_get_entities_by_group g)
  | call_is_alive e => discard (Entity_is_alive e)
  | call_destroy e => Entity_destroy e
  | call_has_group e g => discard (Entity_has_group e g)
  | call_add_group e g => Entity_add_group e g
  | call_remove_group e g => Entity_remove_group e g
  | call_has_component T e => discard (Entity_has_component T e)
  | call_add_component T e => discard (Entity_add_component T e)
  | call_get_component T e => discard (Entity_get_component T e)
  end.

Fixpoint perform_all {float} (cs : list (api_call float)) : M unit :=
  match cs with
  | [] => ret tt
  | c :: cs' => perform c ;;; perform_all cs'
  end.

(** ** Invariants of the registry and of entities *)

(** What the registry guarantees between calls: every id handed out is
    below the counter, and no two types share one. *)
Definition registry_wf (r : Registry) : Prop :=
  (forall T id, type_id r !! T = Some id -> id < last_id r)
  /\ (forall T1 T2 id,
        type_id r !! T1 = Some id -> type_id r !! T2 = Some id -> T1 = T2).

(** What the class definition and [add_component] guarantee of an entity:
    the array has its [max_components] slots, and the type of every owned
    component is registered with its bit set. *)
Definition component_registered (r : Registry) (e : Entity) (x : Component) : bool :=
  match type_id r !! c_type x with
  | Some id => N.testbit (m_component_bitset e) id
  | None => false
  end.

Definition entity_wf (r : Registry) (e : Entity) : Prop :=
  length (m_component_array e) = N.to_nat max_components
  /\ Forall (fun x => component_registered r e x = true) (m_components e).

(** For a type [T] with id [id], an entity [E] and a component [c]. *)
Definition slot_holds (id : ComponentID) (c : addr) (e : Entity) : Prop :=
  N.testbit (m_component_bitset e) id = true
  /\ m_component_array e !! N.to_nat id = Some (Some c).

Definition registry_holds (T : type_name) (id : ComponentID) (r : Registry) : Prop :=
  type_id r !! T = Some id
  /\ id < max_components
  /\ id < last_id r
  /\ forall T', type_id r !! T' = Some id -> T' = T.

(** [T] is registered as [id], [E] has been allocated, and as long as [E]
    exists its bit [id] is set and its slot [id] holds [c]. *)
Definition attached (T : type_name) (id : ComponentID) (E c : addr)
    (w : World) : Prop :=
  registry_holds T id (registry w)
  /\ (E < next_addr w)%positive
  /\ forall e, heap w !! E = Some e -> slot_holds id c e.

#[global] Instance entity_wf_dec r e : Decision (entity_wf r e).
Proof. unfold entity_wf. apply _. Defined.

(** ** Reachable worlds *)

(** No live object lies at or above the allocation counter. *)
Definition heap_below (w : World) : Prop :=
  forall p, valid w p -> (p < next_addr w)%positive.

Definition entities_wf (w : World) : Prop :=
  forall p e, heap w !! p = Some e -> entity_wf (registry w) e.

Record world_inv (w : World) : Prop := mk_world_inv {
  inv_wf : world_wf w;
  inv_below : heap_below w;
  inv_registry : registry_wf (registry w);
  inv_entities : entities_wf w
}.

(** The caller's side of [add_to_group]: the pointer names a live entity. *)
Definition call_ok {float} (w : World) (c : api_call float) : Prop :=
  match c with
  | call_add_to_group e _ => valid w e
  | _ => True
  end.

Inductive reachable {float : Type} : World -> Prop :=
| reachable_new : reachable World_new
| reachable_perform (c : api_call float) w w' :
    reachable w -> call_ok w c -> perform c w = Ok tt w' -> reachable w'.

(** The entity of [sample_world] that the manager does not own. *)
Definition Entity_unowned_sample : Entity :=
  default Entity_new (heap sample_world !! 7%positive).

(** A run of the public interface from the start of the process, and the
    world it reaches. *)
Definition sample_calls : list (api_call Z) :=
  [call_add_entity;
   call_add_component "Transform" 1%positive;
   call_add_group 1%positive 3;
   call_create_entity;
   call_add_group 3%positive 3;
   call_add_to_group 3%positive 4;
   call_destroy 1%positive;
   call_update 16%Z;
   call_refresh;
   call_has_component "Sprite" 3%positive].

Definition reached_world : World :=
  match perform_all sample_calls World_new with
  | Ok _ w => w
  | _ => World_new
  end.

(** Running a list of calls, checking the caller's side of each call in the
    world it is made in. *)
Fixpoint calls_ok {float} (cs : list (api_call float)) (w : World) : Prop :=
  match cs with
  | [] => True
  | c :: cs' =>
      call_ok w c
      /\ match perform c w with
         | Ok _ w' => calls_ok cs' w'
         | _ => True
         end
  end.

(** ** Integer vectors *)

(** A value of type [int32_t]. *)
Definition int32 (v : Z) : Prop := (Int32.int_min <= v <= Int32.int_max)%Z.

(** A component small enough for every product and sum below to fit. *)
Definition small (v : Z) : Prop := (-128 <= v <= 128)%Z.

(** A [Vector4Int] whose members are [int32_t] values, and the
    componentwise difference of two of them. *)
Definition vector4_int32 (v : Vector4Int.t) : Prop :=
  Forall int32 (Vector4Int.members v).

Definition vector4_difference (a b : Vector4Int.t) : Vector4Int.t :=
  Vector4Int.mk (Vector4Int.x a - Vector4Int.x b) (Vector4Int.y a - Vector4Int.y b)
                (Vector4Int.z a - Vector4Int.z b) (Vector4Int.w a - Vector4Int.w b).

(** A [Vector3Int] with small members. *)
Definition vector3_small (v : Vector3Int.t) : Prop :=
  Forall small (Vector3Int.members v).

(** ** UniqueResource *)

Module UniqueResourceSpec.

Section Behaviour.

Context {handle_type : Type} `{EqDecision handle_type}.
Variable null_handle : handle_type.

Local Abbreviation ur_state := (UniqueResource.state (handle_type := handle_type)).

(** Some live object holds [h]. *)
Definition held (s : ur_state) (h : handle_type) : Prop :=
  exists a, UniqueResource.objects s !! a = Some h.

(** No handle other than the null handle is held by two objects. *)
Definition unique (s : ur_state) : Prop :=
  forall a b h,
    UniqueResource.objects s !! a = Some h ->
    UniqueResource.objects s !! b = Some h ->
    h <> null_handle -> a = b.

(** The members that take no handle from outside. *)
Inductive call : Type :=
| call_ctor_default (this : addr)
| call_move_ctor (this rhs : addr)
| call_move_assign (this rhs : addr)
| call_release (this : addr)
| call_reset (this : addr)
| call_swap (this rhs : addr)
| call_get (this : addr)
| call_operator_bool (this : addr)
| call_dtor (this : addr).

(** A call's run: the handles it returned to the caller, and the state. *)
Definition run (c : call) (s : ur_state) : option (list handle_type * ur_state) :=
  match c with
  | call_ctor_default this =>
      '(_, s') ← UniqueResource.ctor_default null_handle this s; Some ([], s')
  | call_move_ctor this rhs =>
      '(_, s') ← UniqueResource.move_ctor null_handle this rhs s; Some ([], s')
  | call_move_assign this rhs =>
      '(_, s') ← UniqueResource.move_assign null_handle this rhs s; Some ([], s')
  | call_release this =>
      '(h, s') ← UniqueResource.release null_handle this s; Some ([h], s')
  | call_reset this =>
      '(_, s') ← UniqueResource.reset null_handle this s; Some ([], s')
  | call_swap this rhs =>
      '(_, s') ← UniqueResource.swap this rhs s; Some ([], s')
  | call_get this =>
      '(_, s') ← UniqueResource.get this s; Some ([], s')
  | call_operator_bool this =>
      '(_, s') ← UniqueResource.operator_bool null_handle this s; Some ([], s')
  | call_dtor this =>
      '(_, s') ← UniqueResource.dtor null_handle this s; Some ([], s')
  end.

(** A constructor runs on storage that holds no object yet. *)
Definition constructs_fresh (s : ur_state) (c : call) : Prop :=
  match c with
  | call_ctor_default this | call_move_ctor this _ =>
      UniqueResource.objects s !! this = None
  | _ => True
  end.

End Behaviour.

End UniqueResourceSpec.

(** The handles of the unit test's behaviour [free_store_b]: pointers, with
    [nullptr] the null handle. *)
Definition pointer : Type := option positive.

Definition nullptr : pointer := None.

(** Two owners, at addresses 1 and 2, of two different pointers; no [deinit]
    has been called. *)
Definition sample_owners : UniqueResource.state (handle_type := pointer) :=
  UniqueResource.mk_state
    (<[1%positive := Some 5%positive]> (<[2%positive := Some 6%positive]> ∅)) [].

(** [sample_owners] after [owner 1 = std::move(owner 2)]. *)
Definition sample_owners_assigned : UniqueResource.state (handle_type := pointer) :=
  UniqueResource.mk_state
    (<[1%positive := Some 6%positive]> (<[2%positive := nullptr]> ∅))
    [Some 5%positive].

(** * Properties *)

(** ** Stepping through a call *)

Lemma bind_Ok {A B} (c : M A) (k : A -> M B) w a w' :
  c w = Ok a w' -> bind c k w = k a w'.
Proof. intros H. unfold bind. by rewrite H. Qed.

Lemma deref_Some p w e : heap w !! p = Some e -> deref p w = Ok e w.
Proof. intros H. unfold deref, bind, gets, defined. by rewrite H. Qed.

Lemma deref_None p w : heap w !! p = None -> deref p w = Undefined.
Proof. intros H. unfold deref, bind, gets, defined. by rewrite H. Qed.

Lemma is_alive_Some p w e :
  heap w !! p = Some e -> Entity_is_alive p w = Ok (m_alive e) w.
Proof. intros H. unfold Entity_is_alive. by rewrite (bind_Ok _ _ _ _ _ (deref_Some _ _ _ H)). Qed.

Lemma has_group_Some p g w e :
  heap w !! p = Some e -> g < max_groups ->
  Entity_has_group p g w = Ok (N.testbit (m_group_bitset e) g) w.
Proof.
  intros H Hg. unfold Entity_has_group.
  rewrite (bind_Ok _ _ _ _ _ (deref_Some _ _ _ H)).
  unfold Bitset.get. apply N.ltb_lt in Hg. by rewrite Hg.
Qed.

Lemma alive_at_Some p w e : heap w !! p = Some e -> alive_at w p = m_alive e.
Proof. intros H. unfold alive_at. by rewrite (is_alive_Some _ _ _ H). Qed.

Lemma alive_at_valid w p : alive_at w p = true -> valid w p.
Proof.
  unfold alive_at, valid. destruct (heap w !! p) as [e|] eqn:H; [eauto|].
  unfold Entity_is_alive, bind. by rewrite (deref_None _ _ H).
Qed.

Lemma in_group_at_Some p g w e :
  heap w !! p = Some e -> g < max_groups ->
  in_group_at w g p = N.testbit (m_group_bitset e) g.
Proof. intros H Hg. unfold in_group_at. by rewrite (has_group_Some _ _ _ _ H Hg). Qed.

(** [alive_at] and [in_group_at] only read the store. *)
Lemma alive_at_heap w w' p : heap w' !! p = heap w !! p -> alive_at w' p = alive_at w p.
Proof.
  intros H. unfold alive_at, Entity_is_alive, bind, deref, bind, gets, defined.
  rewrite H. by destruct (heap w !! p).
Qed.

Lemma in_group_at_heap w w' g p :
  heap w' !! p = heap w !! p -> in_group_at w' g p = in_group_at w g p.
Proof.
  intros H. unfold in_group_at, Entity_has_group, bind, deref, bind, gets, defined.
  rewrite H. destruct (heap w !! p); [|done].
  unfold ret, undefined. by destruct (Bitset.get _ _ _).
Qed.

(** ** [erase_remove_if] with a predicate that only reads *)

Lemma erase_remove_if_filter {A} (pred : A -> M bool) (keep : A -> bool) w v :
  Forall (fun x => pred x w = Ok (negb (keep x)) w) v ->
  erase_remove_if pred v w
  = Ok (filter (fun x => keep x) v, filter (fun x => negb (keep x)) v) w.
Proof.
  induction 1 as [|x v Hx _ IH]; [done|].
  cbn [erase_remove_if]. rewrite (bind_Ok _ _ _ _ _ Hx), (bind_Ok _ _ _ _ _ IH).
  unfold ret. rewrite !filter_cons. cbn [fst snd].
  destruct (keep x); cbn; repeat case_decide; naive_solver.
Qed.

Lemma refresh_group_pred_Ok i w p :
  i < max_groups -> valid w p ->
  refresh_group_pred i p w = Ok (negb (alive_at w p && in_group_at w i p)) w.
Proof.
  intros Hi [e He]. unfold refresh_group_pred.
  rewrite (bind_Ok _ _ _ _ _ (is_alive_Some _ _ _ He)).
  rewrite (alive_at_Some _ _ _ He), (in_group_at_Some _ _ _ _ He Hi).
  destruct (m_alive e); cbn [negb andb]; [|done].
  by rewrite (bind_Ok _ _ _ _ _ (has_group_Some _ _ _ _ He Hi)).
Qed.

Lemma refresh_entity_pred_Ok w p :
  valid w p -> refresh_entity_pred p w = Ok (negb (alive_at w p)) w.
Proof.
  intros [e He]. unfold refresh_entity_pred.
  rewrite (bind_Ok _ _ _ _ _ (is_alive_Some _ _ _ He)).
  by rewrite (alive_at_Some _ _ _ He).
Qed.

(** ** The compaction pass as a function on worlds *)

Lemma Forall_filter_keep {A} (Q : A -> Prop) (P : A -> Prop)
    `{forall x, Decision (P x)} (l : list A) :
  Forall Q l -> Forall Q (filter P l).
Proof.
  rewrite !Forall_forall. intros HQ x [_ Hx]%list_elem_of_filter.
  by apply HQ.
Qed.

Lemma refresh_group_Ok i w v :
  i < max_groups ->
  groups w !! N.to_nat i = Some v ->
  Forall (valid w) v ->
  refresh_group i w
  = Ok tt (set_groups (<[N.to_nat i := compact_slot w (N.to_nat i) v]> (groups w)) w).
Proof.
  intros Hi Hv Hval. unfold refresh_group, bind at 1, gets.
  unfold Array.get. pose proof Hi as Hi'. apply N.ltb_lt in Hi'. rewrite Hi'.
  fold (groups w). rewrite Hv. cbn [defined]. unfold bind at 1, ret at 1.
  rewrite (bind_Ok _ _ _ _ _
             (erase_remove_if_filter _ (keeps w i) w v
                ltac:(eapply Forall_impl; [exact Hval|];
                      intros p Hp; by apply refresh_group_pred_Ok))).
  unfold Array.set. rewrite Hi'. cbn [defined fst]. unfold bind, ret, modify.
  unfold set_groups, owned, compact_slot. by rewrite N2Nat.id.
Qed.

Lemma valid_set_groups gs w p : valid (set_groups gs w) p <-> valid w p.
Proof. done. Qed.

Lemma keeps_set_groups gs w g p : keeps (set_groups gs w) g p = keeps w g p.
Proof.
  unfold keeps. by rewrite (alive_at_heap w (set_groups gs w)),
    (in_group_at_heap w (set_groups gs w)).
Qed.

Lemma set_groups_set_groups gs gs' w :
  set_groups gs (set_groups gs' w) = set_groups gs w.
Proof. done. Qed.

(** The first loop, from index [from] on: the slots it visits are
    filtered, the others are as before. *)
Lemma for_range_refresh_group count : forall from w,
  (N.to_nat from + count <= N.to_nat max_groups)%nat ->
  length (groups w) = N.to_nat max_groups ->
  Forall (Forall (valid w)) (groups w) ->
  exists gs,
    for_range refresh_group from count w = Ok tt (set_groups gs w)
    /\ length gs = N.to_nat max_groups
    /\ forall j : nat,
        gs !! j = if decide (N.to_nat from <= j < N.to_nat from + count)%nat
                  then compact_slot w j <$> groups w !! j
                  else groups w !! j.
Proof.
  induction count as [|count IH]; intros from w Hle Hlen Hval.
  - exists (groups w). split; [by destruct w as [? ? ? []]|]. split; [done|].
    intros j. case_decide; [lia|done].
  - assert (Hfrom : from < max_groups) by lia.
    destruct (lookup_lt_is_Some_2 (groups w) (N.to_nat from)) as [v Hv]; [lia|].
    assert (Hv_val : Forall (valid w) v).
    { eapply (Forall_lookup_1 _ _ _ _ Hval Hv). }
    cbn [for_range].
    rewrite (bind_Ok _ _ _ _ _ (refresh_group_Ok _ _ _ Hfrom Hv Hv_val)).
    set (w1 := set_groups _ w).
    destruct (IH (from + 1) w1) as (gs & Hrun & Hgs_len & Hgs).
    + lia.
    + unfold w1, groups, set_groups; cbn. by rewrite length_insert.
    + unfold w1, groups at 1, set_groups; cbn. apply Forall_insert; [done|].
      unfold compact_slot. by apply Forall_filter_keep.
    + exists gs. split; [by rewrite Hrun|]. split; [done|].
      intros j. rewrite Hgs.
      replace (groups w1) with (<[N.to_nat from := compact_slot w (N.to_nat from) v]> (groups w)) by done.
      destruct (decide (j = N.to_nat from)) as [->|Hne].
      * rewrite list_lookup_insert_eq by lia. rewrite Hv.
        repeat case_decide; try lia; done.
      * rewrite list_lookup_insert_ne by done.
        repeat case_decide; try lia; try done.
        unfold compact_slot. destruct (groups w !! j); [|done]. cbn.
        f_equal. apply list_filter_iff. intros p. unfold w1.
        by rewrite keeps_set_groups.
Qed.

Lemma refresh_Ok w :
  world_wf w -> EntityManager_refresh w = Ok tt (refresh_world w).
Proof.
  intros [Hlen Hown _ Hgrp]. unfold EntityManager_refresh.
  destruct (for_range_refresh_group (N.to_nat max_groups) 0 w)
    as (gs & Hrun & Hgs_len & Hgs); [done..|].
  rewrite (bind_Ok _ _ _ _ _ Hrun). unfold bind at 1, gets.
  assert (Heq : gs = imap (compact_slot w) (groups w)).
  { apply list_eq. intros j. rewrite Hgs, list_lookup_imap.
    case_decide as Hj; [done|].
    rewrite !lookup_ge_None_2; [done|lia]. }
  subst gs. set (w1 := set_groups _ w).
  assert (Hpred : Forall (fun p => refresh_entity_pred p w1
                                   = Ok (negb (alive_at w p)) w1) (owned w)).
  { eapply Forall_impl; [exact Hown|]. intros p Hp.
    rewrite (refresh_entity_pred_Ok w1 p Hp).
    by rewrite (alive_at_heap w w1). }
  change (m_entities (manager w1)) with (owned w).
  by rewrite (bind_Ok _ _ _ _ _ (erase_remove_if_filter _ _ _ _ Hpred)).
Qed.

(** Deleting the dropped entities leaves every other object in place. *)
Lemma lookup_foldr_delete (h : gmap addr Entity) (ps : list addr) (p : addr) :
  foldr delete h ps !! p = if decide (p ∈ ps) then None else h !! p.
Proof.
  induction ps as [|q ps IH]; cbn [foldr].
  - rewrite decide_False; [done|set_solver].
  - destruct (decide (q = p)) as [->|Hne].
    + rewrite lookup_delete_eq, decide_True; [done|set_solver].
    + rewrite lookup_delete_ne, IH by done.
      destruct (decide (p ∈ ps)) as [Hin|Hin].
      * rewrite decide_True; [done|set_solver].
      * rewrite decide_False; [done|].
        intros [Heq|Hin']%elem_of_cons; [by apply Hne|by apply Hin].
Qed.

Lemma heap_refresh_world_alive w p :
  alive_at w p = true -> heap (refresh_world w) !! p = heap w !! p.
Proof.
  intros Ha. cbn. rewrite lookup_foldr_delete. case_decide as H; [|done].
  apply list_elem_of_filter in H as [H _]. rewrite Ha in H. done.
Qed.

Lemma alive_at_refresh_world w p :
  alive_at w p = true -> alive_at (refresh_world w) p = true.
Proof.
  intros Ha. by rewrite (alive_at_heap w), Ha by by apply heap_refresh_world_alive.
Qed.

Lemma keeps_refresh_world w g p :
  keeps w g p = true -> keeps (refresh_world w) g p = true.
Proof.
  unfold keeps. intros [Ha Hg]%andb_true_iff.
  pose proof (heap_refresh_world_alive _ _ Ha) as Hh.
  by rewrite (alive_at_heap w _ _ Hh), (in_group_at_heap w _ _ _ Hh), Ha, Hg.
Qed.

Lemma owned_refresh_world_alive w :
  Forall (fun p => alive_at (refresh_world w) p = true) (owned (refresh_world w)).
Proof.
  apply Forall_forall. intros p Hp. cbn in Hp.
  apply list_elem_of_filter in Hp as [Hp _].
  apply alive_at_refresh_world. by apply Is_true_true.
Qed.

Lemma groups_refresh_world_keeps w (g : nat) l :
  groups (refresh_world w) !! g = Some l ->
  Forall (fun p => keeps (refresh_world w) (N.of_nat g) p = true) l.
Proof.
  unfold groups. cbn. rewrite list_lookup_imap. intros Hl.
  apply fmap_Some in Hl as (l0 & _ & ->).
  apply Forall_forall. intros p Hp.
  apply list_elem_of_filter in Hp as [Hp _].
  apply keeps_refresh_world. by apply Is_true_true.
Qed.

Lemma refresh_world_wf w : world_wf w -> world_wf (refresh_world w).
Proof.
  intros [Hlen Hown Hnd Hgrp]. split.
  - unfold groups. cbn. by rewrite length_imap.
  - eapply Forall_impl; [apply owned_refresh_world_alive|].
    intros p. apply alive_at_valid.
  - cbn. by apply NoDup_filter.
  - apply Forall_lookup. intros g l Hl.
    eapply Forall_impl; [by apply groups_refresh_world_keeps|].
    intros p [Ha _]%andb_true_iff. by apply alive_at_valid.
Qed.

Lemma filter_all {A} (P : A -> Prop) `{forall x, Decision (P x)} (l : list A) :
  Forall P l -> filter P l = l.
Proof.
  induction 1 as [|x l Hx Hl IH]; [done|].
  by rewrite filter_cons_True, IH.
Qed.

Lemma filter_none {A} (P : A -> Prop) `{forall x, Decision (P x)} (l : list A) :
  Forall (fun x => ~ P x) l -> filter P l = [].
Proof.
  induction 1 as [|x l Hx Hl IH]; [done|].
  by rewrite filter_cons_False.
Qed.

(** A second pass finds nothing to drop. *)
Lemma refresh_world_idem w : refresh_world (refresh_world w) = refresh_world w.
Proof.
  set (w1 := refresh_world w).
  pose proof (owned_refresh_world_alive w) as Hown. fold w1 in Hown.
  unfold refresh_world at 1.
  rewrite (filter_all (fun p => alive_at w1 p) (owned w1)).
  2:{ eapply Forall_impl; [exact Hown|]. intros p ->. done. }
  rewrite (filter_none (fun p => negb (alive_at w1 p)) (owned w1)).
  2:{ eapply Forall_impl; [exact Hown|]. intros p ->. cbn. tauto. }
  cbn [foldr].
  replace (imap (compact_slot w1) (groups w1)) with (groups w1).
  { by destruct w1 as [? ? ? []]. }
  apply list_eq. intros g. rewrite list_lookup_imap.
  destruct (groups w1 !! g) as [l|] eqn:Hl; [|done]. cbn. f_equal.
  symmetry. apply filter_all.
  eapply Forall_impl; [by apply groups_refresh_world_keeps|].
  intros p Hp. apply Is_true_true. exact Hp.
Qed.

(** ** Queries *)

Lemma is_alive_true_iff w p :
  Entity_is_alive p w = Ok true w <-> alive_at w p = true.
Proof.
  unfold alive_at. split; [by intros ->|].
  unfold Entity_is_alive, bind, deref, bind, gets, defined.
  destruct (heap w !! p); cbn; [|done]. by intros ->.
Qed.

Lemma has_group_true_iff w g p :
  Entity_has_group p g w = Ok true w <-> in_group_at w g p = true.
Proof.
  unfold in_group_at. split; [by intros ->|].
  unfold Entity_has_group, bind, deref, bind, gets, defined.
  destruct (heap w !! p); cbn; [|done].
  destruct (Bitset.get _ _ _); cbn; [|done]. by intros ->.
Qed.

Lemma get_entities_by_group_Ok w g l :
  g < max_groups ->
  EntityManager_get_entities_by_group g w = Ok l w
  <-> groups w !! N.to_nat g = Some l.
Proof.
  intros Hg. apply N.ltb_lt in Hg.
  unfold EntityManager_get_entities_by_group, bind, gets, Array.get, groups.
  rewrite Hg. destruct (m_groupedEntities (manager w) !! N.to_nat g); cbn.
  - unfold ret. split; congruence.
  - split; [done|congruence].
Qed.

Lemma get_entities_by_group_total w g :
  length (groups w) = N.to_nat max_groups -> g < max_groups ->
  exists l, EntityManager_get_entities_by_group g w = Ok l w.
Proof.
  intros Hlen Hg.
  destruct (lookup_lt_is_Some_2 (groups w) (N.to_nat g)) as [l Hl]; [lia|].
  exists l. by apply get_entities_by_group_Ok.
Qed.

Lemma sample_world_wf : world_wf sample_world.
Proof. apply (bool_decide_unpack _). vm_compute. exact I. Qed.

(** ** [EntityManager::refresh] *)

(** C10. [refresh()] is a stable filter.  In a well-formed world it returns
    normally; the owned vector afterwards is the old one filtered by
    [is_alive()], and each group's vector is the old one filtered by
    [is_alive() && has_group(g)], both evaluated in the world before the
    call.  A filter keeps the relative order of what it keeps and keeps
    every occurrence of a repeated entry. *)
Theorem refresh_stable_filter (w : World) :
  world_wf w ->
  exists w',
    EntityManager_refresh w = Ok tt w'
    /\ owned w' = filter (fun p => alive_at w p) (owned w)
    /\ forall (g : Group) (l : list addr),
        g < max_groups ->
        EntityManager_get_entities_by_group g w = Ok l w ->
        EntityManager_get_entities_by_group g w'
        = Ok (filter (fun p => alive_at w p && in_group_at w g p) l) w'.
Proof.
  intros Hwf. exists (refresh_world w).
  split; [by apply refresh_Ok|]. split; [done|].
  intros g l Hg Hl. apply get_entities_by_group_Ok in Hl; [|done].
  apply get_entities_by_group_Ok; [done|].
  unfold groups at 1. cbn. rewrite list_lookup_imap. fold (groups w).
  rewrite Hl. cbn. unfold compact_slot, keeps. by rewrite N2Nat.id.
Qed.

Lemma refresh_stable_filter_witness :
  world_wf sample_world
  /\ exists w',
      EntityManager_refresh sample_world = Ok tt w'
      /\ owned w' = filter (fun p => alive_at sample_world p) (owned sample_world)
      /\ forall (g : Group) (l : list addr),
          g < max_groups ->
          EntityManager_get_entities_by_group g sample_world = Ok l sample_world ->
          EntityManager_get_entities_by_group g w'
          = Ok (filter (fun p => alive_at sample_world p
                                 && in_group_at sample_world g p) l) w'.
Proof.
  split; [sample_wf|]. apply (refresh_stable_filter sample_world). sample_wf.
Defined.

(** C1. After [refresh()] every entity left in the owned vector answers
    [is_alive()] with true, and every entry left in the vector of a group
    [g] names an entity that answers both [is_alive()] and [has_group(g)]
    with true. *)
Theorem refresh_postcondition (w : World) :
  world_wf w ->
  exists w',
    EntityManager_refresh w = Ok tt w'
    /\ (forall e, e ∈ owned w' -> Entity_is_alive e w' = Ok true w')
    /\ forall g : Group,
        g < max_groups ->
        exists l,
          EntityManager_get_entities_by_group g w' = Ok l w'
          /\ forall e, e ∈ l ->
               Entity_is_alive e w' = Ok true w'
               /\ Entity_has_group e g w' = Ok true w'.
Proof.
  intros Hwf. exists (refresh_world w).
  split; [by apply refresh_Ok|]. split.
  - intros e He. apply is_alive_true_iff.
    by apply (proj1 (Forall_forall _ _) (owned_refresh_world_alive w)).
  - intros g Hg.
    destruct (get_entities_by_group_total (refresh_world w) g) as [l Hl];
      [by apply refresh_world_wf|done|].
    exists l. split; [done|]. intros e He.
    apply get_entities_by_group_Ok in Hl; [|done].
    pose proof (groups_refresh_world_keeps _ _ _ Hl) as Hk.
    rewrite N2Nat.id in Hk.
    apply (proj1 (Forall_forall _ _) Hk) in He.
    apply andb_true_iff in He as [Ha Hb].
    split; [by apply is_alive_true_iff|by apply has_group_true_iff].
Qed.

Lemma refresh_postcondition_witness :
  world_wf sample_world
  /\ exists w',
      EntityManager_refresh sample_world = Ok tt w'
      /\ (forall e, e ∈ owned w' -> Entity_is_alive e w' = Ok true w')
      /\ forall g : Group,
          g < max_groups ->
          exists l,
            EntityManager_get_entities_by_group g w' = Ok l w'
            /\ forall e, e ∈ l ->
                 Entity_is_alive e w' = Ok true w'
                 /\ Entity_has_group e g w' = Ok true w'.
Proof.
  split; [sample_wf|]. apply (refresh_postcondition sample_world). sample_wf.
Defined.

(** C7. A second [refresh()] right after a first one changes no size: the
    owned vector and each of the group vectors are as long after the second
    call as they were after the first. *)
Theorem refresh_twice_sizes (w : World) :
  world_wf w ->
  exists w1 w2,
    EntityManager_refresh w = Ok tt w1
    /\ EntityManager_refresh w1 = Ok tt w2
    /\ length (owned w2) = length (owned w1)
    /\ forall g : Group,
        g < max_groups ->
        exists l1 l2,
          EntityManager_get_entities_by_group g w1 = Ok l1 w1
          /\ EntityManager_get_entities_by_group g w2 = Ok l2 w2
          /\ length l2 = length l1.
Proof.
  intros Hwf. pose proof (refresh_world_wf _ Hwf) as Hwf1.
  exists (refresh_world w), (refresh_world w).
  split; [by apply refresh_Ok|]. split.
  { rewrite (refresh_Ok _ Hwf1). by rewrite refresh_world_idem. }
  split; [done|]. intros g Hg.
  destruct (get_entities_by_group_total (refresh_world w) g) as [l Hl];
    [by destruct Hwf1|done|].
  by exists l, l.
Qed.

Lemma refresh_twice_sizes_witness :
  world_wf sample_world
  /\ exists w1 w2,
      EntityManager_refresh sample_world = Ok tt w1
      /\ EntityManager_refresh w1 = Ok tt w2
      /\ length (owned w2) = length (owned w1)
      /\ forall g : Group,
          g < max_groups ->
          exists l1 l2,
            EntityManager_get_entities_by_group g w1 = Ok l1 w1
            /\ EntityManager_get_entities_by_group g w2 = Ok l2 w2
            /\ length l2 = length l1.
Proof.
  split; [sample_wf|]. apply (refresh_twice_sizes sample_world). sample_wf.
Defined.

(** ** Member functions of [Entity] as world updates *)

Lemma update_entity_Some p f w e :
  heap w !! p = Some e ->
  update_entity p f w = Ok tt (set_heap (<[p := f e]> (heap w)) w).
Proof.
  intros H. unfold update_entity.
  by rewrite (bind_Ok _ _ _ _ _ (deref_Some _ _ _ H)).
Qed.

Lemma destroy_Ok p w e :
  heap w !! p = Some e ->
  Entity_destroy p w = Ok tt (set_heap (<[p := set_alive false e]> (heap w)) w).
Proof. apply update_entity_Some. Qed.

Lemma remove_group_Ok p g w e :
  heap w !! p = Some e -> g < max_groups ->
  Entity_remove_group p g w
  = Ok tt (set_heap (<[p := set_group_bitset (N.clearbit (m_group_bitset e) g) e]>
                       (heap w)) w).
Proof.
  intros H Hg. unfold Entity_remove_group.
  rewrite (bind_Ok _ _ _ _ _ (deref_Some _ _ _ H)).
  unfold Bitset.set. apply N.ltb_lt in Hg. rewrite Hg. cbn [defined].
  unfold bind at 1, ret at 1. by apply update_entity_Some.
Qed.

Lemma add_to_group_Ok p g w v :
  g < max_groups -> groups w !! N.to_nat g = Some v ->
  EntityManager_add_to_group p g w
  = Ok tt (set_groups (<[N.to_nat g := v ++ [p]]> (groups w)) w).
Proof.
  intros Hg Hv. apply N.ltb_lt in Hg.
  unfold EntityManager_add_to_group, bind at 1, gets, Array.get, Array.set.
  rewrite Hg. fold (groups w). by rewrite Hv.
Qed.

Lemma add_group_Ok p g w e v :
  heap w !! p = Some e -> g < max_groups ->
  groups w !! N.to_nat g = Some v ->
  Entity_add_group p g w
  = Ok tt (set_groups (<[N.to_nat g := v ++ [p]]> (groups w))
             (set_heap (<[p := set_group_bitset (N.setbit (m_group_bitset e) g) e]>
                          (heap w)) w)).
Proof.
  intros H Hg Hv. unfold Entity_add_group.
  rewrite (bind_Ok _ _ _ _ _ (deref_Some _ _ _ H)).
  unfold Bitset.set. pose proof Hg as Hg'. apply N.ltb_lt in Hg'. rewrite Hg'.
  cbn [defined]. unfold bind at 1, ret at 1.
  rewrite (bind_Ok _ _ _ _ _ (update_entity_Some _ _ _ _ H)).
  by rewrite (add_to_group_Ok _ _ _ v).
Qed.

(** Assigning to a member of a live entity keeps the world well formed. *)
Lemma world_wf_set_heap_insert w p e e' :
  heap w !! p = Some e -> world_wf w ->
  world_wf (set_heap (<[p := e']> (heap w)) w).
Proof.
  intros H [Hlen Hown Hnd Hgrp].
  assert (Hv : forall q, valid w q -> valid (set_heap (<[p := e']> (heap w)) w) q).
  { intros q [x Hq]. unfold valid. cbn.
    destruct (decide (p = q)) as [->|Hne].
    - rewrite lookup_insert_eq. eauto.
    - rewrite lookup_insert_ne by done. eauto. }
  split; [done| |done|].
  - eapply Forall_impl; [exact Hown|exact Hv].
  - eapply Forall_impl; [exact Hgrp|]. intros l Hl.
    eapply Forall_impl; [exact Hl|exact Hv].
Qed.

(** ** [Entity::add_group] *)

(** C4. For a live entity [E] and a group id [g < 32], [E.add_group(g)]
    returns with [has_group(g)] true and with [E] appended to the vector
    that [get_entities_by_group(g)] returns, no [refresh()] needed.  A
    second [E.add_group(g)] leaves every entity as the first call left it,
    the bit included, and appends [E] once more: the vector then ends with
    two entries for [E]. *)
Theorem add_group_immediate_and_duplicate (w : World) (E : addr) (g : Group) :
  valid w E ->
  length (groups w) = N.to_nat max_groups ->
  g < max_groups ->
  exists l0 w1 w2,
    EntityManager_get_entities_by_group g w = Ok l0 w
    /\ Entity_add_group E g w = Ok tt w1
    /\ Entity_has_group E g w1 = Ok true w1
    /\ EntityManager_get_entities_by_group g w1 = Ok (l0 ++ [E]) w1
    /\ E ∈ l0 ++ [E]
    /\ Entity_add_group E g w1 = Ok tt w2
    /\ heap w2 = heap w1
    /\ Entity_has_group E g w2 = Ok true w2
    /\ EntityManager_get_entities_by_group g w2 = Ok (l0 ++ [E; E]) w2.
Proof.
  intros [e He] Hlen Hg.
  destruct (lookup_lt_is_Some_2 (groups w) (N.to_nat g)) as [l0 Hl0]; [lia|].
  set (e1 := set_group_bitset (N.setbit (m_group_bitset e) g) e).
  set (w1 := set_groups (<[N.to_nat g := l0 ++ [E]]> (groups w))
               (set_heap (<[E := e1]> (heap w)) w)).
  assert (He1 : heap w1 !! E = Some e1) by apply lookup_insert_eq.
  assert (Hl1 : groups w1 !! N.to_nat g = Some (l0 ++ [E])).
  { unfold w1, groups at 1. cbn. apply list_lookup_insert_eq.
    apply lookup_lt_Some in Hl0. done. }
  assert (Hbit : N.testbit (m_group_bitset e1) g = true).
  { unfold e1. cbn. apply N.setbit_eq. }
  assert (Hsame : set_group_bitset (N.setbit (m_group_bitset e1) g) e1 = e1).
  { unfold e1, set_group_bitset. cbn. f_equal.
    apply N.bits_inj. intros j. rewrite !N.setbit_eqb.
    by destruct (g =? j). }
  set (w2 := set_groups (<[N.to_nat g := (l0 ++ [E]) ++ [E]]> (groups w1))
               (set_heap (<[E := e1]> (heap w1)) w1)).
  assert (Hh2 : heap w2 = heap w1).
  { unfold w2. cbn. by rewrite insert_insert_eq. }
  assert (He2 : heap w2 !! E = Some e1) by by rewrite Hh2.
  exists l0, w1, w2. split; [by apply get_entities_by_group_Ok|].
  split; [by apply add_group_Ok|].
  split; [by rewrite (has_group_Some _ _ _ _ He1 Hg), Hbit|].
  split; [by apply get_entities_by_group_Ok|].
  split; [set_solver|].
  split; [by rewrite (add_group_Ok _ _ _ _ _ He1 Hg Hl1), Hsame|].
  split; [done|].
  split; [by rewrite (has_group_Some _ _ _ _ He2 Hg), Hbit|].
  apply get_entities_by_group_Ok; [done|].
  unfold w2, groups at 1. cbn. fold (groups w1).
  rewrite <- (assoc_L (++)). apply list_lookup_insert_eq.
  by apply lookup_lt_Some in Hl1.
Qed.

Lemma add_group_immediate_and_duplicate_witness :
  valid sample_world 1%positive
  /\ length (groups sample_world) = N.to_nat max_groups
  /\ 3 < max_groups
  /\ exists l0 w1 w2,
      EntityManager_get_entities_by_group 3 sample_world = Ok l0 sample_world
      /\ Entity_add_group 1%positive 3 sample_world = Ok tt w1
      /\ Entity_has_group 1%positive 3 w1 = Ok true w1
      /\ EntityManager_get_entities_by_group 3 w1 = Ok (l0 ++ [1%positive]) w1
      /\ 1%positive ∈ l0 ++ [1%positive]
      /\ Entity_add_group 1%positive 3 w1 = Ok tt w2
      /\ heap w2 = heap w1
      /\ Entity_has_group 1%positive 3 w2 = Ok true w2
      /\ EntityManager_get_entities_by_group 3 w2
         = Ok (l0 ++ [1%positive; 1%positive]) w2.
Proof.
  assert (H1 : valid sample_world 1%positive).
  { apply (bool_decide_unpack _). vm_compute. exact I. }
  assert (H2 : length (groups sample_world) = N.to_nat max_groups) by reflexivity.
  assert (H3 : 3 < max_groups) by reflexivity.
  split; [exact H1|]. split; [exact H2|]. split; [exact H3|].
  exact (add_group_immediate_and_duplicate sample_world 1%positive 3 H1 H2 H3).
Defined.

(** ** [Entity::destroy] *)

(** C5. For a live object [E], [destroy()] returns; afterwards
    [is_alive()] is false; a second [destroy()] returns the same world; the
    entity's component vector, component array, component bitset and group
    bitset are as before, every other entity is as before, and so are the
    manager (owned vector and all group vectors) and the type registry:
    each vector that [get_entities_by_group] returned before the call is
    returned unchanged after it. *)
Theorem destroy_frame (w : World) (E : addr) (e : Entity) :
  heap w !! E = Some e ->
  exists w1 e1,
    Entity_destroy E w = Ok tt w1
    /\ Entity_is_alive E w1 = Ok false w1
    /\ Entity_destroy E w1 = Ok tt w1
    /\ heap w1 !! E = Some e1
    /\ m_components e1 = m_components e
    /\ m_component_array e1 = m_component_array e
    /\ m_component_bitset e1 = m_component_bitset e
    /\ m_group_bitset e1 = m_group_bitset e
    /\ (forall p, p <> E -> heap w1 !! p = heap w !! p)
    /\ manager w1 = manager w
    /\ registry w1 = registry w
    /\ forall g l,
        EntityManager_get_entities_by_group g w = Ok l w ->
        EntityManager_get_entities_by_group g w1 = Ok l w1.
Proof.
  intros He.
  set (w1 := set_heap (<[E := set_alive false e]> (heap w)) w).
  assert (He1 : heap w1 !! E = Some (set_alive false e)) by apply lookup_insert_eq.
  exists w1, (set_alive false e).
  split; [by apply destroy_Ok|].
  split; [by rewrite (is_alive_Some _ _ _ He1)|].
  split.
  { rewrite (destroy_Ok _ _ _ He1). unfold w1, set_heap. cbn.
    by rewrite insert_insert_eq. }
  split; [done|]. do 4 (split; [done|]).
  split; [intros p Hp; by apply lookup_insert_ne|].
  do 2 (split; [done|]).
  intros g l. unfold EntityManager_get_entities_by_group, bind, gets. cbn.
  destruct (Array.get _ _ _); cbn; unfold ret, undefined; congruence.
Qed.

Lemma destroy_frame_witness :
  heap sample_world !! 1%positive = Some sample_entity
  /\ exists w1 e1,
      Entity_destroy 1%positive sample_world = Ok tt w1
      /\ Entity_is_alive 1%positive w1 = Ok false w1
      /\ Entity_destroy 1%positive w1 = Ok tt w1
      /\ heap w1 !! 1%positive = Some e1
      /\ m_components e1 = m_components sample_entity
      /\ m_component_array e1 = m_component_array sample_entity
      /\ m_component_bitset e1 = m_component_bitset sample_entity
      /\ m_group_bitset e1 = m_group_bitset sample_entity
      /\ (forall p, p <> 1%positive -> heap w1 !! p = heap sample_world !! p)
      /\ manager w1 = manager sample_world
      /\ registry w1 = registry sample_world
      /\ forall g l,
          EntityManager_get_entities_by_group g sample_world = Ok l sample_world ->
          EntityManager_get_entities_by_group g w1 = Ok l w1.
Proof.
  assert (H : heap sample_world !! 1%positive = Some sample_entity)
    by (vm_compute; reflexivity).
  split; [exact H|].
  exact (destroy_frame sample_world 1%positive sample_entity H).
Defined.

(** ** [Entity::remove_group] *)

(** A group bit that is clear is enough for the next pass to drop the
    entity from that group's vector. *)
Lemma refresh_drops_non_member w g p l :
  g < max_groups ->
  in_group_at w g p = false ->
  groups (refresh_world w) !! N.to_nat g = Some l ->
  p ∉ l.
Proof.
  intros Hg Hbit Hl Hin. unfold groups in Hl. cbn in Hl.
  rewrite list_lookup_imap in Hl.
  apply fmap_Some in Hl as (l0 & _ & ->).
  apply list_elem_of_filter in Hin as [Hk _].
  unfold keeps in Hk. rewrite N2Nat.id, Hbit, andb_false_r in Hk. done.
Qed.

(** C6. For a live entity [E] of a well-formed world and [g < 32],
    [remove_group(g)] returns; bit [g] of [E]'s group bitset is then clear
    and every other bit is as before; [E]'s alive flag, components,
    component array and component bitset, every other entity, the manager
    with all its group vectors, and the registry are as before.  The
    [refresh()] that follows returns, and the vector of group [g] then has
    no entry for [E], whether [E] is alive or not. *)
Theorem remove_group_frame_then_refresh (w : World) (E : addr) (e : Entity) (g : Group) :
  world_wf w ->
  heap w !! E = Some e ->
  g < max_groups ->
  exists w1 e1,
    Entity_remove_group E g w = Ok tt w1
    /\ heap w1 !! E = Some e1
    /\ (forall j, N.testbit (m_group_bitset e1) j
                  = if decide (j = g) then false
                    else N.testbit (m_group_bitset e) j)
    /\ m_alive e1 = m_alive e
    /\ m_components e1 = m_components e
    /\ m_component_array e1 = m_component_array e
    /\ m_component_bitset e1 = m_component_bitset e
    /\ (forall p, p <> E -> heap w1 !! p = heap w !! p)
    /\ manager w1 = manager w
    /\ registry w1 = registry w
    /\ exists w2 l2,
        EntityManager_refresh w1 = Ok tt w2
        /\ EntityManager_get_entities_by_group g w2 = Ok l2 w2
        /\ E ∉ l2.
Proof.
  intros Hwf He Hg.
  set (e1 := set_group_bitset (N.clearbit (m_group_bitset e) g) e).
  set (w1 := set_heap (<[E := e1]> (heap w)) w).
  assert (He1 : heap w1 !! E = Some e1) by apply lookup_insert_eq.
  assert (Hwf1 : world_wf w1) by by eapply world_wf_set_heap_insert.
  assert (Hbits : forall j, N.testbit (m_group_bitset e1) j
                            = if decide (j = g) then false
                              else N.testbit (m_group_bitset e) j).
  { intros j. unfold e1. cbn. rewrite N.clearbit_eqb.
    case_decide as Hj.
    - subst j. by rewrite N.eqb_refl, andb_false_r.
    - apply N.eqb_neq in Hj. rewrite N.eqb_sym, Hj. by rewrite andb_true_r. }
  exists w1, e1.
  split; [by apply remove_group_Ok|].
  split; [done|]. split; [exact Hbits|]. do 4 (split; [done|]).
  split; [intros p Hp; by apply lookup_insert_ne|].
  do 2 (split; [done|]).
  destruct (get_entities_by_group_total (refresh_world w1) g) as [l2 Hl2];
    [by destruct (refresh_world_wf _ Hwf1)|done|].
  exists (refresh_world w1), l2.
  split; [by apply refresh_Ok|]. split; [done|].
  apply get_entities_by_group_Ok in Hl2; [|done].
  eapply (refresh_drops_non_member w1 g E l2); [done| |done].
  rewrite (in_group_at_Some _ _ _ _ He1 Hg), Hbits. by rewrite decide_True.
Qed.

Lemma remove_group_frame_then_refresh_witness :
  world_wf sample_world
  /\ heap sample_world !! 1%positive = Some sample_entity
  /\ 3 < max_groups
  /\ exists w1 e1,
      Entity_remove_group 1%positive 3 sample_world = Ok tt w1
      /\ heap w1 !! 1%positive = Some e1
      /\ (forall j, N.testbit (m_group_bitset e1) j
                    = if decide (j = 3) then false
                      else N.testbit (m_group_bitset sample_entity) j)
      /\ m_alive e1 = m_alive sample_entity
      /\ m_components e1 = m_components sample_entity
      /\ m_component_array e1 = m_component_array sample_entity
      /\ m_component_bitset e1 = m_component_bitset sample_entity
      /\ (forall p, p <> 1%positive -> heap w1 !! p = heap sample_world !! p)
      /\ manager w1 = manager sample_world
      /\ registry w1 = registry sample_world
      /\ exists w2 l2,
          EntityManager_refresh w1 = Ok tt w2
          /\ EntityManager_get_entities_by_group 3 w2 = Ok l2 w2
          /\ 1%positive ∉ l2.
Proof.
  assert (Hwf : world_wf sample_world) by sample_wf.
  assert (H : heap sample_world !! 1%positive = Some sample_entity)
    by (vm_compute; reflexivity).
  split; [exact Hwf|]. split; [exact H|]. split; [reflexivity|].
  exact (remove_group_frame_then_refresh
           sample_world 1%positive sample_entity 3 Hwf H eq_refl).
Defined.

(** ** Dispatch: [update] and [draw] *)

Lemma for_each_Ok {A C} (body : A -> M (list C)) (f : A -> list C) w l :
  Forall (fun x => body x w = Ok (f x) w) l ->
  for_each body l w = Ok (concat (f <$> l)) w.
Proof.
  induction 1 as [|x l Hx Hl IH]; [done|].
  cbn [for_each]. by rewrite (bind_Ok _ _ _ _ _ Hx), (bind_Ok _ _ _ _ _ IH).
Qed.

Lemma Entity_update_Ok {float} (dt : float) w p :
  valid w p -> Entity_update p dt w = Ok (entity_update_calls w dt p) w.
Proof.
  intros [e He]. unfold Entity_update, entity_update_calls, components_at.
  rewrite (bind_Ok _ _ _ _ _ (deref_Some _ _ _ He)), He.
  assert (Hc : Forall (fun c => Component_update c dt w
                                = Ok [ComponentUpdate (c_addr c) dt] w)
                      (m_components e)) by by apply Forall_true.
  rewrite (bind_Ok _ _ _ _ _ (for_each_Ok _ _ _ _ Hc)). clear Hc.
  unfold ret. do 2 f_equal. induction (m_components e) as [|c cs IH]; [done|].
  cbn. by rewrite IH.
Qed.

Lemma Entity_draw_Ok {float} w p :
  valid w p -> Entity_draw (float := float) p w = Ok (entity_draw_calls w p) w.
Proof.
  intros [e He]. unfold Entity_draw, entity_draw_calls, components_at.
  rewrite (bind_Ok _ _ _ _ _ (deref_Some _ _ _ He)), He.
  assert (Hc : Forall (fun c => Component_draw (float := float) c w
                                = Ok [ComponentDraw (c_addr c)] w)
                      (m_components e)) by by apply Forall_true.
  rewrite (bind_Ok _ _ _ _ _ (for_each_Ok _ _ _ _ Hc)). clear Hc.
  unfold ret. do 2 f_equal. induction (m_components e) as [|c cs IH]; [done|].
  cbn. by rewrite IH.
Qed.

Lemma updated_entities_calls {float} (dt : float) w (l : list addr) :
  omap updated_entity (concat (entity_update_calls w dt <$> l)) = l.
Proof.
  induction l as [|e l IH]; [done|].
  cbn [fmap list_fmap concat]. rewrite omap_app, IH.
  unfold entity_update_calls. cbn. f_equal.
  induction (components_at w e) as [|c cs IHc]; [done|]. cbn. by rewrite IHc.
Qed.

Lemma drawn_entities_calls {float} w (l : list addr) :
  omap drawn_entity (concat (entity_draw_calls (float := float) w <$> l)) = l.
Proof.
  induction l as [|e l IH]; [done|].
  cbn [fmap list_fmap concat]. rewrite omap_app, IH.
  unfold entity_draw_calls. cbn. f_equal.
  induction (components_at w e) as [|c cs IHc]; [done|]. cbn. by rewrite IHc.
Qed.

Lemma NoDup_count_occ_one (l : list addr) (e : addr) :
  NoDup l -> e ∈ l -> count_occ Pos.eq_dec l e = 1%nat.
Proof.
  intros Hnd He. apply NoDup_ListNoDup in Hnd. apply list_elem_of_In in He.
  by apply (proj1 (NoDup_count_occ' Pos.eq_dec l) Hnd).
Qed.

(** C8. In a well-formed world [EntityManager::update(dt)] returns without
    changing the world; the calls it makes are, for each owned entity in
    the order of [m_entities], [Entity::update(dt)] followed by
    [Component::update(dt)] on each component in the order of
    [m_components].  The entities it calls [update] on are exactly
    [m_entities], in order, so each owned entity is called exactly once,
    whatever its alive flag.  [EntityManager::draw()] likewise. *)
Theorem update_draw_dispatch {float : Type} (dt : float) (w : World) :
  world_wf w ->
  exists tu td : list (call float),
    EntityManager_update dt w = Ok tu w
    /\ EntityManager_draw w = Ok td w
    /\ tu = concat ((fun e => EntityUpdate e dt
                              :: ((fun c => ComponentUpdate (c_addr c) dt)
                                    <$> components_at w e)) <$> owned w)
    /\ td = concat ((fun e => EntityDraw e
                              :: ((fun c => ComponentDraw (c_addr c))
                                    <$> components_at w e)) <$> owned w)
    /\ omap updated_entity tu = owned w
    /\ omap drawn_entity td = owned w
    /\ forall e, e ∈ owned w ->
         count_occ Pos.eq_dec (omap updated_entity tu) e = 1%nat
         /\ count_occ Pos.eq_dec (omap drawn_entity td) e = 1%nat.
Proof.
  intros [_ Hown Hnd _].
  exists (concat (entity_update_calls w dt <$> owned w)),
         (concat (entity_draw_calls w <$> owned w)).
  split.
  { unfold EntityManager_update, bind at 1, gets. apply for_each_Ok.
    eapply Forall_impl; [exact Hown|]. intros p Hp. by apply Entity_update_Ok. }
  split.
  { unfold EntityManager_draw, bind at 1, gets. apply for_each_Ok.
    eapply Forall_impl; [exact Hown|]. intros p Hp. by apply Entity_draw_Ok. }
  do 2 (split; [done|]).
  rewrite updated_entities_calls, drawn_entities_calls.
  do 2 (split; [done|]).
  intros e He. split; by apply NoDup_count_occ_one.
Qed.

Lemma update_draw_dispatch_witness :
  world_wf sample_world
  /\ alive_at sample_world 2%positive = false
  /\ exists tu td : list (call Z),
      EntityManager_update 16%Z sample_world = Ok tu sample_world
      /\ EntityManager_draw sample_world = Ok td sample_world
      /\ tu = concat ((fun e => EntityUpdate e 16%Z
                                :: ((fun c => ComponentUpdate (c_addr c) 16%Z)
                                      <$> components_at sample_world e))
                        <$> owned sample_world)
      /\ td = concat ((fun e => EntityDraw e
                                :: ((fun c => ComponentDraw (c_addr c))
                                      <$> components_at sample_world e))
                        <$> owned sample_world)
      /\ omap updated_entity tu = owned sample_world
      /\ omap drawn_entity td = owned sample_world
      /\ forall e, e ∈ owned sample_world ->
           count_occ Pos.eq_dec (omap updated_entity tu) e = 1%nat
           /\ count_occ Pos.eq_dec (omap drawn_entity td) e = 1%nat.
Proof.
  assert (Hwf : world_wf sample_world) by sample_wf.
  split; [exact Hwf|]. split; [reflexivity|].
  exact (update_draw_dispatch 16%Z sample_world Hwf).
Defined.

(** ** Group ids outside [0, max_groups) *)

Lemma bind_Undefined {A B} (c : M A) (k : A -> M B) w :
  c w = Undefined -> bind c k w = Undefined.
Proof. intros H. unfold bind. by rewrite H. Qed.

Lemma Bitset_get_out_of_range width b pos : width <= pos -> Bitset.get width b pos = None.
Proof. intros H. unfold Bitset.get. apply N.ltb_ge in H. by rewrite H. Qed.

Lemma Bitset_set_out_of_range width b pos v :
  width <= pos -> Bitset.set width b pos v = None.
Proof. intros H. unfold Bitset.set. apply N.ltb_ge in H. by rewrite H. Qed.

Lemma Array_get_out_of_range {X} size (a : list X) i : size <= i -> Array.get size a i = None.
Proof. intros H. unfold Array.get. apply N.ltb_ge in H. by rewrite H. Qed.

(** C3, as the code has it.  For a group id [g >= 32] none of
    [add_group(g)], [remove_group(g)], [has_group(g)], [add_to_group(_, g)]
    and [get_entities_by_group(g)] tests the id: each indexes the 32-bit
    [std::bitset] or the 32-slot [std::array] with the unchecked
    [operator[]] out of range, which is undefined behaviour: the outcome
    is [Undefined], neither a value nor a failed check. *)
Theorem group_id_out_of_range_unchecked (w : World) (E : addr) (g : Group) :
  max_groups <= g ->
  Entity_add_group E g w = Undefined
  /\ Entity_remove_group E g w = Undefined
  /\ Entity_has_group E g w = Undefined
  /\ EntityManager_add_to_group E g w = Undefined
  /\ EntityManager_get_entities_by_group g w = Undefined.
Proof.
  intros Hg.
  assert (Hent : forall (A : Type) (k : Entity -> M A),
             (forall e w', k e w' = Undefined) -> bind (deref E) k w = Undefined).
  { intros A k Hk. unfold bind at 1.
    destruct (deref E w) as [e w'| |] eqn:Hd; [apply Hk| |done].
    unfold deref, bind, gets, defined in Hd.
    destruct (heap w !! E); discriminate Hd. }
  repeat split.
  - apply Hent. intros e w'. apply bind_Undefined.
    by rewrite Bitset_set_out_of_range.
  - apply Hent. intros e w'. apply bind_Undefined.
    by rewrite Bitset_set_out_of_range.
  - apply Hent. intros e w'. by rewrite Bitset_get_out_of_range.
  - unfold EntityManager_add_to_group, bind at 1, gets. apply bind_Undefined.
    by rewrite Array_get_out_of_range.
  - unfold EntityManager_get_entities_by_group, bind at 1, gets.
    by rewrite Array_get_out_of_range.
Qed.

Lemma group_id_out_of_range_unchecked_witness :
  max_groups <= 32
  /\ Entity_add_group 1%positive 32 sample_world = Undefined
  /\ Entity_remove_group 1%positive 32 sample_world = Undefined
  /\ Entity_has_group 1%positive 32 sample_world = Undefined
  /\ EntityManager_add_to_group 1%positive 32 sample_world = Undefined
  /\ EntityManager_get_entities_by_group 32 sample_world = Undefined.
Proof.
  assert (H : max_groups <= 32) by (vm_compute; discriminate).
  split; [exact H|].
  exact (group_id_out_of_range_unchecked sample_world 1%positive 32 H).
Defined.

(** C3 as stated fails on the first id past the range: on the live first
    entity of [sample_world], each of the five operations called with
    group id 32 is undefined, and so is not a detected failure. *)
Lemma group_id_32_not_detected :
  32 >= 32
  /\ valid sample_world 1%positive
  /\ ~ detected (Entity_add_group 1%positive 32 sample_world)
  /\ ~ detected (Entity_remove_group 1%positive 32 sample_world)
  /\ ~ detected (Entity_has_group 1%positive 32 sample_world)
  /\ ~ detected (EntityManager_add_to_group 1%positive 32 sample_world)
  /\ ~ detected (EntityManager_get_entities_by_group 32 sample_world).
Proof.
  split; [vm_compute; discriminate|].
  split; [apply (bool_decide_unpack _); vm_compute; exact I|].
  repeat split; intros [w Hw]; vm_compute in Hw; discriminate Hw.
Qed.

(** ** The type registry *)

Lemma get_component_type_id_known T id w :
  type_id (registry w) !! T = Some id ->
  get_component_type_id T w = Ok id w.
Proof.
  intros H. unfold get_component_type_id, bind at 1, gets. by rewrite H.
Qed.

Lemma get_component_type_id_fresh T w :
  type_id (registry w) !! T = None ->
  get_component_type_id T w
  = Ok (last_id (registry w))
       (set_registry
          (mkRegistry ((last_id (registry w) + 1) mod size_t_modulus)
                      (<[T := last_id (registry w)]> (type_id (registry w)))) w).
Proof.
  intros H. unfold get_component_type_id, bind at 1, gets. by rewrite H.
Qed.

Lemma lookup_ids_from n count (k : nat) :
  (k < count)%nat -> ids_from n count !! k = Some (n + N.of_nat k).
Proof.
  revert n k. induction count as [|count IH]; intros n k Hk; [lia|].
  destruct k as [|k]; cbn.
  - f_equal. lia.
  - rewrite IH by lia. f_equal. lia.
Qed.

(** First use of pairwise distinct, not yet registered types: they get the
    next ids in order, as long as the counter does not wrap. *)
Lemma get_component_type_ids_fresh Ts : forall w,
  NoDup Ts ->
  (forall T, T ∈ Ts -> type_id (registry w) !! T = None) ->
  last_id (registry w) + N.of_nat (length Ts) < size_t_modulus ->
  exists w',
    get_component_type_ids Ts w = Ok (ids_from (last_id (registry w)) (length Ts)) w'
    /\ last_id (registry w') = last_id (registry w) + N.of_nat (length Ts)
    /\ (forall (k : nat) T, Ts !! k = Some T ->
          type_id (registry w') !! T = Some (last_id (registry w) + N.of_nat k))
    /\ (forall T, T ∉ Ts -> type_id (registry w') !! T = type_id (registry w) !! T)
    /\ heap w' = heap w /\ manager w' = manager w /\ next_addr w' = next_addr w.
Proof.
  induction Ts as [|T Ts IH]; intros w Hnd Hfresh Hlt.
  - exists w. cbn. rewrite N.add_0_r. repeat split; done.
  - apply NoDup_cons in Hnd as [HT Hnd]. cbn [length] in Hlt.
    set (n := last_id (registry w)) in *.
    set (w1 := set_registry
                 (mkRegistry ((n + 1) mod size_t_modulus)
                             (<[T := n]> (type_id (registry w)))) w).
    assert (Hn1 : last_id (registry w1) = n + 1).
    { cbn. apply N.mod_small. lia. }
    destruct (IH w1) as (w' & Hrun & Hlast & Hnew & Hold & Hh & Hm & Hna).
    + done.
    + intros T' HT'. cbn. rewrite lookup_insert_ne; [apply Hfresh; set_solver|].
      intros ->. done.
    + rewrite Hn1. lia.
    + exists w'. cbn [get_component_type_ids length ids_from].
      rewrite (bind_Ok _ _ _ _ _ (get_component_type_id_fresh T w
                                    ltac:(apply Hfresh; set_solver))).
      fold n. fold w1. rewrite (bind_Ok _ _ _ _ _ Hrun), Hn1.
      split; [done|]. split; [rewrite Hlast, Hn1; lia|].
      split; [|split].
      * intros [|k] T' Hk; cbn in Hk.
        -- injection Hk as <-. rewrite Hold by done. cbn.
           rewrite lookup_insert_eq. f_equal. lia.
        -- rewrite (Hnew k T' Hk), Hn1. f_equal. lia.
      * intros T' HT'. rewrite Hold by set_solver. cbn.
        apply lookup_insert_ne. set_solver.
      * by rewrite Hh, Hm, Hna.
Qed.

Lemma has_component_out_of_range T id E w :
  type_id (registry w) !! T = Some id -> max_components <= id ->
  Entity_has_component T E w = Undefined.
Proof.
  intros HT Hid. unfold Entity_has_component.
  rewrite (bind_Ok _ _ _ _ _ (get_component_type_id_known _ _ _ HT)).
  unfold bind. destruct (deref E w) as [e w'| |] eqn:Hd.
  - by rewrite Bitset_get_out_of_range.
  - unfold deref, bind, gets, defined in Hd. destruct (heap w !! E); discriminate Hd.
  - done.
Qed.

(** C2, as the code has it.  From the start of the process (counter 0, no
    type registered), first uses of pairwise distinct component types
    return the ids 0, 1, 2, .. in order of first use, one per type, and
    every later use of a type returns the id of its first use without
    changing the registry.  There is no capacity check: every call returns
    normally, whatever the number of types (below the range of
    [std::size_t]); the 33rd distinct type gets the id 32, which is not
    below [max_components], and testing that type's bit on any entity
    afterwards indexes the bitset out of range. *)
Theorem type_ids_sequential_unbounded (w : World) (Ts : list type_name) :
  registry w = Registry_new ->
  NoDup Ts ->
  N.of_nat (length Ts) < size_t_modulus ->
  exists w',
    get_component_type_ids Ts w = Ok (ids_from 0 (length Ts)) w'
    /\ (forall (k : nat) T, Ts !! k = Some T ->
          ids_from 0 (length Ts) !! k = Some (N.of_nat k)
          /\ get_component_type_id T w' = Ok (N.of_nat k) w')
    /\ (forall T, Ts !! 32%nat = Some T ->
          get_component_type_id T w' = Ok max_components w')
    /\ (forall (k : nat) T E, Ts !! k = Some T -> (32 <= k)%nat ->
          Entity_has_component T E w' = Undefined).
Proof.
  intros Hreg Hnd Hlen.
  destruct (get_component_type_ids_fresh Ts w Hnd) as (w' & Hrun & _ & Hnew & _).
  { intros T _. by rewrite Hreg. }
  { rewrite Hreg. cbn. lia. }
  rewrite Hreg in Hrun, Hnew. cbn [last_id Registry_new] in Hrun, Hnew.
  exists w'. split; [done|]. split; [|split].
  - intros k T Hk. split.
    + rewrite lookup_ids_from; [done|]. by apply lookup_lt_Some in Hk.
    + apply get_component_type_id_known. exact (Hnew k T Hk).
  - intros T Hk. apply get_component_type_id_known. exact (Hnew _ T Hk).
  - intros k T E Hk Hge. eapply has_component_out_of_range.
    + exact (Hnew k T Hk).
    + unfold max_components. lia.
Qed.

Lemma type_ids_sequential_unbounded_witness :
  registry World_new = Registry_new
  /\ NoDup sample_types
  /\ N.of_nat (length sample_types) < size_t_modulus
  /\ exists w',
      get_component_type_ids sample_types World_new
      = Ok (ids_from 0 (length sample_types)) w'
      /\ (forall (k : nat) T, sample_types !! k = Some T ->
            ids_from 0 (length sample_types) !! k = Some (N.of_nat k)
            /\ get_component_type_id T w' = Ok (N.of_nat k) w')
      /\ (forall T, sample_types !! 32%nat = Some T ->
            get_component_type_id T w' = Ok max_components w')
      /\ (forall (k : nat) T E, sample_types !! k = Some T -> (32 <= k)%nat ->
            Entity_has_component T E w' = Undefined).
Proof.
  assert (H1 : registry World_new = Registry_new) by reflexivity.
  assert (H2 : NoDup sample_types).
  { apply (bool_decide_unpack _). vm_compute. exact I. }
  assert (H3 : N.of_nat (length sample_types) < size_t_modulus) by reflexivity.
  split; [exact H1|]. split; [exact H2|]. split; [exact H3|].
  exact (type_ids_sequential_unbounded World_new sample_types H1 H2 H3).
Defined.

(** C2 as stated fails at the 33rd type: after 32 distinct types have been
    registered with the ids 0..31, the first use of one more type returns
    normally with the id 32, which is not below [max_components]; nothing
    is detected. *)
Lemma thirty_third_type_not_detected :
  get_component_type_ids (take 32 sample_types) World_new
  = Ok (ids_from 0 32) world_32_types
  /\ type_id (registry world_32_types) !! "C32" = None
  /\ get_component_type_id "C32" world_32_types = Ok 32 world_33_types
  /\ ~ detected (get_component_type_id "C32" world_32_types)
  /\ ~ 32 < max_components.
Proof.
  split; [vm_compute; reflexivity|].
  split; [vm_compute; reflexivity|].
  split; [vm_compute; reflexivity|].
  split.
  - intros [w Hw]. vm_compute in Hw. discriminate Hw.
  - vm_compute. discriminate.
Qed.

(** ** Components *)

Lemma get_component_type_id_Ok T w :
  get_component_type_id T w = Ok (type_id_of w T) (register T w).
Proof.
  unfold type_id_of, register.
  destruct (type_id (registry w) !! T) as [id|] eqn:H.
  - by apply get_component_type_id_known.
  - by apply get_component_type_id_fresh.
Qed.

Lemma type_id_register T w :
  type_id (registry (register T w)) !! T = Some (type_id_of w T).
Proof.
  unfold type_id_of, register.
  destruct (type_id (registry w) !! T) as [id|] eqn:H; [done|].
  cbn. apply lookup_insert_eq.
Qed.

Lemma heap_register T w : heap (register T w) = heap w.
Proof. unfold register. by destruct (type_id (registry w) !! T). Qed.

Lemma manager_register T w : manager (register T w) = manager w.
Proof. unfold register. by destruct (type_id (registry w) !! T). Qed.

Lemma next_addr_register T w : next_addr (register T w) = next_addr w.
Proof. unfold register. by destruct (type_id (registry w) !! T). Qed.

Lemma has_component_Ok T E w e :
  heap w !! E = Some e ->
  type_id_of w T < max_components ->
  Entity_has_component T E w
  = Ok (N.testbit (m_component_bitset e) (type_id_of w T)) (register T w).
Proof.
  intros He Hid. unfold Entity_has_component.
  rewrite (bind_Ok _ _ _ _ _ (get_component_type_id_Ok T w)).
  assert (He' : heap (register T w) !! E = Some e) by by rewrite heap_register.
  rewrite (bind_Ok _ _ _ _ _ (deref_Some _ _ _ He')).
  unfold Bitset.get. apply N.ltb_lt in Hid. by rewrite Hid.
Qed.

Lemma has_component_known T id E w e :
  heap w !! E = Some e ->
  type_id (registry w) !! T = Some id ->
  id < max_components ->
  Entity_has_component T E w = Ok (N.testbit (m_component_bitset e) id) w.
Proof.
  intros He HT Hid.
  assert (Hof : type_id_of w T = id) by (unfold type_id_of; by rewrite HT).
  rewrite (has_component_Ok T E w e He) by by rewrite Hof.
  rewrite Hof. unfold register. by rewrite HT.
Qed.

Lemma get_component_known T id E w e c :
  heap w !! E = Some e ->
  type_id (registry w) !! T = Some id ->
  id < max_components ->
  N.testbit (m_component_bitset e) id = true ->
  m_component_array e !! N.to_nat id = Some (Some c) ->
  Entity_get_component T E w = Ok c w.
Proof.
  intros He HT Hid Hbit Hslot. unfold Entity_get_component.
  rewrite (bind_Ok _ _ _ _ _ (has_component_known _ _ _ _ _ He HT Hid)), Hbit.
  unfold assert at 1, bind at 1.
  rewrite (bind_Ok _ _ _ _ _ (get_component_type_id_known _ _ _ HT)).
  rewrite (bind_Ok _ _ _ _ _ (deref_Some _ _ _ He)).
  unfold Array.get. apply N.ltb_lt in Hid. by rewrite Hid, Hslot.
Qed.

Lemma add_component_Ok T E w e :
  heap w !! E = Some e ->
  type_id_of w T < max_components ->
  N.testbit (m_component_bitset e) (type_id_of w T) = false ->
  Entity_add_component T E w = Ok (next_addr w) (add_component_world T E e w).
Proof.
  intros He Hid Hbit. unfold Entity_add_component.
  rewrite (bind_Ok _ _ _ _ _ (has_component_Ok _ _ _ _ He Hid)), Hbit.
  set (id := type_id_of w T) in *. set (c := next_addr w).
  set (w0 := register T w).
  assert (HT0 : type_id (registry w0) !! T = Some id) by apply type_id_register.
  unfold assert at 1, bind at 1. cbn [negb].
  unfold new_address, bind at 1, bind at 1, gets at 1, bind at 1, modify at 1, ret at 1.
  replace (next_addr w0) with c by (symmetry; apply next_addr_register).
  set (wa := set_next_addr (Pos.succ c) w0).
  assert (Hea : heap wa !! E = Some e).
  { unfold wa, w0. cbn. by rewrite heap_register. }
  rewrite (bind_Ok _ _ _ _ _ (update_entity_Some _ _ _ _ Hea)).
  set (e1 := set_components _ e). set (wb := set_heap _ wa).
  assert (HTb : type_id (registry wb) !! T = Some id) by exact HT0.
  assert (Heb : heap wb !! E = Some e1) by apply lookup_insert_eq.
  rewrite (bind_Ok _ _ _ _ _ (get_component_type_id_known _ _ _ HTb)).
  rewrite (bind_Ok _ _ _ _ _ (deref_Some _ _ _ Heb)).
  unfold Array.set. pose proof Hid as Hid'. apply N.ltb_lt in Hid'. rewrite Hid'.
  cbn [defined]. unfold bind at 1, ret at 1.
  rewrite (bind_Ok _ _ _ _ _ (update_entity_Some _ _ _ _ Heb)).
  set (e2 := set_component_array _ e1). set (wc := set_heap _ wb).
  assert (HTc : type_id (registry wc) !! T = Some id) by exact HT0.
  assert (Hec : heap wc !! E = Some e2) by apply lookup_insert_eq.
  rewrite (bind_Ok _ _ _ _ _ (get_component_type_id_known _ _ _ HTc)).
  rewrite (bind_Ok _ _ _ _ _ (deref_Some _ _ _ Hec)).
  unfold Bitset.set. rewrite Hid'. cbn [defined]. unfold bind at 1, ret at 1.
  rewrite (bind_Ok _ _ _ _ _ (update_entity_Some _ _ _ _ Hec)).
  unfold ret. f_equal. unfold add_component_world, set_heap. cbn.
  rewrite !insert_insert_eq. unfold w0.
  by rewrite heap_register, manager_register.
Qed.

(** ** Running a call backwards: what a normal return tells *)

Lemma bind_Ok_inv {A B} (c : M A) (k : A -> M B) w b w2 :
  bind c k w = Ok b w2 -> exists a w1, c w = Ok a w1 /\ k a w1 = Ok b w2.
Proof. unfold bind. destruct (c w) as [a w1| |]; [eauto|done..]. Qed.

Lemma gets_inv {A} (f : World -> A) w a w' : gets f w = Ok a w' -> w' = w /\ a = f w.
Proof. unfold gets. by intros [= <- <-]. Qed.

Lemma modify_inv f w a w' : modify f w = Ok a w' -> w' = f w.
Proof. unfold modify. by intros [= <-]. Qed.

Lemma ret_inv {A} (x : A) w a w' : ret x w = Ok a w' -> w' = w /\ a = x.
Proof. unfold ret. by intros [= <- <-]. Qed.

Lemma defined_inv {A} (o : option A) w a w' :
  defined o w = Ok a w' -> w' = w /\ o = Some a.
Proof. destruct o; cbn; [|done]. unfold ret. by intros [= <- <-]. Qed.

Lemma assert_inv b w a w' : assert b w = Ok a w' -> w' = w /\ b = true.
Proof. unfold assert. destruct b; [|done]. by intros [= <-]. Qed.

Lemma deref_inv p w e w' : deref p w = Ok e w' -> w' = w /\ heap w !! p = Some e.
Proof.
  unfold deref. intros (h & w1 & [-> ->]%gets_inv & H)%bind_Ok_inv.
  by apply defined_inv in H as [-> H].
Qed.

Lemma update_entity_inv p f w a w' :
  update_entity p f w = Ok a w' ->
  exists e, heap w !! p = Some e /\ w' = set_heap (<[p := f e]> (heap w)) w.
Proof.
  unfold update_entity.
  intros (e & w1 & [-> He]%deref_inv & H)%bind_Ok_inv.
  apply modify_inv in H. eauto.
Qed.

Lemma is_alive_read_only p : read_only (Entity_is_alive p).
Proof.
  intros w a w'. unfold Entity_is_alive.
  intros (e & w1 & [-> _]%deref_inv & H)%bind_Ok_inv. by apply ret_inv in H as [-> _].
Qed.

Lemma has_group_read_only p g : read_only (Entity_has_group p g).
Proof.
  intros w a w'. unfold Entity_has_group.
  intros (e & w1 & [-> _]%deref_inv & H)%bind_Ok_inv. by apply defined_inv in H as [-> _].
Qed.

Lemma get_entities_by_group_read_only g :
  read_only (EntityManager_get_entities_by_group g).
Proof.
  intros w a w'. unfold EntityManager_get_entities_by_group.
  intros (m & w1 & [-> _]%gets_inv & H)%bind_Ok_inv. by apply defined_inv in H as [-> _].
Qed.

Lemma for_each_read_only {A C} (body : A -> M (list C)) l :
  (forall x, read_only (body x)) -> read_only (for_each body l).
Proof.
  intros Hbody. induction l as [|x l IH]; intros w a w'; cbn [for_each].
  - by intros [-> _]%ret_inv.
  - intros (t & w1 & H1 & (t' & w2 & H2 & H3)%bind_Ok_inv)%bind_Ok_inv.
    apply Hbody in H1. apply IH in H2. apply ret_inv in H3 as [-> _]. congruence.
Qed.

Lemma erase_remove_if_read_only {A} (pred : A -> M bool) v :
  (forall x, read_only (pred x)) -> read_only (erase_remove_if pred v).
Proof.
  intros Hpred. induction v as [|x v IH]; intros w a w'; cbn [erase_remove_if].
  - by intros [-> _]%ret_inv.
  - intros (t & w1 & H1 & (t' & w2 & H2 & H3)%bind_Ok_inv)%bind_Ok_inv.
    apply Hpred in H1. apply IH in H2. apply ret_inv in H3 as [-> _]. congruence.
Qed.

Lemma Entity_update_read_only {float} p (dt : float) : read_only (Entity_update p dt).
Proof.
  intros w a w'. unfold Entity_update.
  intros (e & w1 & [-> _]%deref_inv & (t & w2 & H2 & H3)%bind_Ok_inv)%bind_Ok_inv.
  apply for_each_read_only in H2.
  - apply ret_inv in H3 as [-> _]. done.
  - intros c w0 a0 w0'. unfold Component_update. by intros [-> _]%ret_inv.
Qed.

Lemma Entity_draw_read_only {float} p : read_only (Entity_draw (float := float) p).
Proof.
  intros w a w'. unfold Entity_draw.
  intros (e & w1 & [-> _]%deref_inv & (t & w2 & H2 & H3)%bind_Ok_inv)%bind_Ok_inv.
  apply for_each_read_only in H2.
  - apply ret_inv in H3 as [-> _]. done.
  - intros c w0 a0 w0'. unfold Component_draw. by intros [-> _]%ret_inv.
Qed.

Lemma update_read_only {float} (dt : float) : read_only (EntityManager_update dt).
Proof.
  intros w a w'. unfold EntityManager_update.
  intros (m & w1 & [-> _]%gets_inv & H)%bind_Ok_inv.
  apply for_each_read_only in H; [done|]. intros p. apply Entity_update_read_only.
Qed.

Lemma draw_read_only {float} : read_only (EntityManager_draw (float := float)).
Proof.
  intros w a w'. unfold EntityManager_draw.
  intros (m & w1 & [-> _]%gets_inv & H)%bind_Ok_inv.
  apply for_each_read_only in H; [done|]. intros p. apply Entity_draw_read_only.
Qed.

Lemma refresh_group_pred_read_only i p : read_only (refresh_group_pred i p).
Proof.
  intros w a w'. unfold refresh_group_pred.
  intros (alive & w1 & ->%is_alive_read_only & H)%bind_Ok_inv.
  destruct alive; cbn [negb] in H.
  - apply bind_Ok_inv in H as (g & w2 & ->%has_group_read_only & H).
    by apply ret_inv in H as [-> _].
  - by apply ret_inv in H as [-> _].
Qed.

Lemma refresh_entity_pred_read_only p : read_only (refresh_entity_pred p).
Proof.
  intros w a w'. unfold refresh_entity_pred.
  intros (alive & w1 & ->%is_alive_read_only & H)%bind_Ok_inv.
  by apply ret_inv in H as [-> _].
Qed.

Lemma same_store_refl w : same_store w w.
Proof. done. Qed.

Lemma same_store_trans w1 w2 w3 :
  same_store w1 w2 -> same_store w2 w3 -> same_store w1 w3.
Proof. unfold same_store. intros (?&?&?) (?&?&?). repeat split; congruence. Qed.

Lemma add_to_group_same_store p g w a w' :
  EntityManager_add_to_group p g w = Ok a w' -> same_store w w'.
Proof.
  unfold EntityManager_add_to_group.
  intros (m & w1 & [-> _]%gets_inv
          & (v & w2 & [-> _]%defined_inv
             & (gs & w3 & [-> _]%defined_inv & ->%modify_inv)%bind_Ok_inv)%bind_Ok_inv)%bind_Ok_inv.
  done.
Qed.

Lemma refresh_group_same_store i w a w' :
  refresh_group i w = Ok a w' -> same_store w w'.
Proof.
  unfold refresh_group.
  intros (m & w1 & [-> _]%gets_inv
          & (v & w2 & [-> _]%defined_inv
             & (r & w3 & Hr
                & (gs & w4 & [-> _]%defined_inv & ->%modify_inv)%bind_Ok_inv)%bind_Ok_inv)%bind_Ok_inv)%bind_Ok_inv.
  apply erase_remove_if_read_only in Hr; [by subst|].
  intros p. apply refresh_group_pred_read_only.
Qed.

Lemma for_range_refresh_group_same_store count : forall from w a w',
  for_range refresh_group from count w = Ok a w' -> same_store w w'.
Proof.
  induction count as [|count IH]; intros from w a w'; cbn [for_range].
  - by intros [-> _]%ret_inv.
  - intros (u & w1 & H1%refresh_group_same_store & H2%IH)%bind_Ok_inv.
    by eapply same_store_trans.
Qed.

Lemma refresh_inv w a w' :
  EntityManager_refresh w = Ok a w' ->
  registry w' = registry w /\ next_addr w' = next_addr w
  /\ exists ps, heap w' = foldr delete (heap w) ps.
Proof.
  unfold EntityManager_refresh.
  intros (u & w1 & (Hr & Hh & Hn)%for_range_refresh_group_same_store
          & (m & w2 & [-> _]%gets_inv
             & (r & w3 & Hp
                & (u' & w4 & ->%modify_inv & ->%modify_inv)%bind_Ok_inv)%bind_Ok_inv)%bind_Ok_inv)%bind_Ok_inv.
  apply erase_remove_if_read_only in Hp;
    [|intros p; apply refresh_entity_pred_read_only].
  subst w3. cbn. rewrite Hr, Hh, Hn. eauto.
Qed.

(** ** The public interface as a language of calls *)

Lemma discard_inv {A} (c : M A) w u w' :
  discard c w = Ok u w' -> exists a, c w = Ok a w'.
Proof.
  unfold discard. intros (a & w1 & H & [-> _]%ret_inv)%bind_Ok_inv. eauto.
Qed.

Lemma has_component_eq T E w :
  Entity_has_component T E w
  = match heap w !! E with
    | None => Undefined
    | Some e =>
        if type_id_of w T <? max_components
        then Ok (N.testbit (m_component_bitset e) (type_id_of w T)) (register T w)
        else Undefined
    end.
Proof.
  destruct (heap w !! E) as [e|] eqn:He.
  - destruct (type_id_of w T <? max_components) eqn:Hid.
    + apply has_component_Ok; [done|]. by apply N.ltb_lt.
    + unfold Entity_has_component.
      rewrite (bind_Ok _ _ _ _ _ (get_component_type_id_Ok T w)).
      assert (He' : heap (register T w) !! E = Some e) by by rewrite heap_register.
      rewrite (bind_Ok _ _ _ _ _ (deref_Some _ _ _ He')).
      unfold Bitset.get. by rewrite Hid.
  - unfold Entity_has_component.
    rewrite (bind_Ok _ _ _ _ _ (get_component_type_id_Ok T w)).
    apply bind_Undefined, deref_None. by rewrite heap_register.
Qed.

Lemma add_component_inv T E w c w1 :
  Entity_add_component T E w = Ok c w1 ->
  exists e,
    heap w !! E = Some e
    /\ type_id_of w T < max_components
    /\ N.testbit (m_component_bitset e) (type_id_of w T) = false
    /\ c = next_addr w
    /\ w1 = add_component_world T E e w.
Proof.
  intros H. pose proof H as H'. unfold Entity_add_component in H'.
  apply bind_Ok_inv in H' as (h & w0 & Hh & H').
  rewrite has_component_eq in Hh.
  destruct (heap w !! E) as [e|] eqn:He; [|done].
  destruct (type_id_of w T <? max_components) eqn:Hid; [|done].
  apply N.ltb_lt in Hid. injection Hh as <- <-.
  apply bind_Ok_inv in H' as (u & w2 & [_ Hbit]%assert_inv & _).
  apply negb_true_iff in Hbit.
  rewrite (add_component_Ok T E w e He Hid Hbit) in H.
  injection H as <- <-. exists e. done.
Qed.

(** ** The slot of an attached component is stable *)

Section Attached.

Variables (T : type_name) (id : ComponentID) (E c : addr).

Local Abbreviation slot_holds := (slot_holds id c).

Local Abbreviation registry_holds := (registry_holds T id).

Local Abbreviation attached := (attached T id E c).

Lemma attached_same_store w w' : same_store w w' -> attached w -> attached w'.
Proof.
  intros (Hr & Hh & Hn) (Hreg & Hlt & Hslot). unfold attached.
  by rewrite Hr, Hh, Hn.
Qed.

Lemma attached_update_entity p f w a w' :
  update_entity p f w = Ok a w' ->
  (forall e, slot_holds e -> slot_holds (f e)) ->
  attached w -> attached w'.
Proof.
  intros (e & He & ->)%update_entity_inv Hf (Hreg & Hlt & Hslot).
  split; [done|]. split; [done|]. intros e'. cbn.
  destruct (decide (p = E)) as [->|Hne].
  - rewrite lookup_insert_eq. intros [= <-]. by apply Hf, Hslot.
  - rewrite lookup_insert_ne by done. apply Hslot.
Qed.

Lemma registry_holds_register T' w :
  registry_holds (registry w) ->
  type_id_of w T' < max_components ->
  registry_holds (registry (register T' w))
  /\ (type_id_of w T' = id -> T' = T).
Proof.
  intros (HT & Hid & Hlast & Huniq). unfold type_id_of, register.
  destruct (type_id (registry w) !! T') as [id'|] eqn:HT'.
  - intros _. split; [done|]. intros ->. by apply Huniq.
  - intros Hfresh. split; [|lia]. cbn.
    assert (Hne : T' <> T) by (intros ->; congruence).
    unfold registry_holds. cbn [type_id last_id].
    split; [by rewrite lookup_insert_ne|]. split; [done|]. split.
    + rewrite N.mod_small; [lia|]. unfold max_components, size_t_modulus in *. lia.
    + intros T''. destruct (decide (T' = T'')) as [<-|Hne'].
      * rewrite lookup_insert_eq. intros [= Heq]. lia.
      * rewrite lookup_insert_ne by done. apply Huniq.
Qed.

Lemma attached_register T' w :
  attached w -> type_id_of w T' < max_components -> attached (register T' w).
Proof.
  intros (Hreg & Hlt & Hslot) Hid. split; [|split].
  - by apply registry_holds_register.
  - by rewrite next_addr_register.
  - by rewrite heap_register.
Qed.

Lemma attached_has_component T' p w b w' :
  Entity_has_component T' p w = Ok b w' -> attached w -> attached w'.
Proof.
  rewrite has_component_eq. destruct (heap w !! p); [|done].
  destruct (type_id_of w T' <? max_components) eqn:Hid; [|done].
  intros [= <- <-] Hw. apply attached_register; [done|]. by apply N.ltb_lt.
Qed.

Lemma attached_get_component T' p w a w' :
  Entity_get_component T' p w = Ok a w' -> attached w -> attached w'.
Proof.
  unfold Entity_get_component.
  intros (h & w1 & Hh
          & (u & w2 & [-> _]%assert_inv
             & (i & w3 & Hi & (e & w4 & [-> _]%deref_inv
                & (ptr & w5 & [-> Hptr]%defined_inv
                   & [-> _]%defined_inv)%bind_Ok_inv)%bind_Ok_inv)%bind_Ok_inv)%bind_Ok_inv)%bind_Ok_inv Hw.
  apply attached_has_component in Hh; [|done].
  rewrite get_component_type_id_Ok in Hi. injection Hi as <- <-.
  apply attached_register; [done|].
  unfold Array.get in Hptr.
  destruct (type_id_of w1 T' <? max_components) eqn:Hid; [|done].
  by apply N.ltb_lt.
Qed.

Lemma attached_add_component T' p w a w' :
  Entity_add_component T' p w = Ok a w' -> attached w -> attached w'.
Proof.
  intros (e & He & Hid & Hbit & -> & ->)%add_component_inv (Hreg & Hlt & Hslot).
  destruct (registry_holds_register T' w Hreg Hid) as [Hreg' Hsame].
  split; [done|]. split; [cbn; lia|]. intros e'. cbn.
  destruct (decide (p = E)) as [->|Hne].
  - rewrite lookup_insert_eq. intros [= <-].
    destruct (Hslot e He) as [Hb Ha].
    assert (Hneq : type_id_of w T' <> id) by (intros Heq; congruence).
    split; cbn.
    + rewrite N.setbit_eqb, Hb. apply orb_true_r.
    + rewrite list_lookup_insert_ne; [done|]. lia.
  - rewrite lookup_insert_ne by done. apply Hslot.
Qed.

Lemma attached_add_entity w a w' :
  EntityManager_add_entity w = Ok a w' -> attached w -> attached w'.
Proof.
  unfold EntityManager_add_entity, Entity_ctor, new_address.
  intros (e & w1 & (n & w2 & [-> ->]%gets_inv
                    & (u & w3 & ->%modify_inv & [-> ->]%ret_inv)%bind_Ok_inv)%bind_Ok_inv
          & (u1 & w4 & ->%modify_inv
             & (u2 & w5 & ->%modify_inv & [-> _]%ret_inv)%bind_Ok_inv)%bind_Ok_inv)%bind_Ok_inv
         (Hreg & Hlt & Hslot).
  split; [done|]. split; [cbn; lia|]. intros e'. cbn.
  rewrite lookup_insert_ne by lia. apply Hslot.
Qed.

Lemma attached_create_entity w a w' :
  Entity_create w = Ok a w' -> attached w -> attached w'.
Proof.
  unfold Entity_create, Entity_ctor, new_address.
  intros (e & w1 & (n & w2 & [-> ->]%gets_inv
                    & (u & w3 & ->%modify_inv & [-> ->]%ret_inv)%bind_Ok_inv)%bind_Ok_inv
          & (u1 & w4 & ->%modify_inv & [-> _]%ret_inv)%bind_Ok_inv)%bind_Ok_inv
         (Hreg & Hlt & Hslot).
  split; [done|]. split; [cbn; lia|]. intros e'. cbn.
  rewrite lookup_insert_ne by lia. apply Hslot.
Qed.

Lemma attached_refresh w a w' :
  EntityManager_refresh w = Ok a w' -> attached w -> attached w'.
Proof.
  intros (Hr & Hn & ps & Hh)%refresh_inv (Hreg & Hlt & Hslot).
  unfold attached. rewrite Hr, Hn, Hh. split; [done|]. split; [done|].
  intros e. rewrite lookup_foldr_delete. case_decide; [done|apply Hslot].
Qed.

Lemma slot_holds_set_alive b e : slot_holds e -> slot_holds (set_alive b e).
Proof. done. Qed.

Lemma slot_holds_set_group_bitset b e : slot_holds e -> slot_holds (set_group_bitset b e).
Proof. done. Qed.

Lemma attached_perform {float} (call : api_call float) w u w' :
  perform call w = Ok u w' -> attached w -> attached w'.
Proof.
  destruct call; cbn [perform].
  - intros [a H]%discard_inv. by eapply attached_create_entity.
  - intros [a H]%discard_inv. by eapply attached_add_entity.
  - intros [a ->%update_read_only]%discard_inv. done.
  - intros [a ->%draw_read_only]%discard_inv. done.
  - apply attached_refresh.
  - intros H%add_to_group_same_store. by apply attached_same_store.
  - intros [a ->%get_entities_by_group_read_only]%discard_inv. done.
  - intros [a ->%is_alive_read_only]%discard_inv. done.
  - intros H. eapply attached_update_entity; [exact H|].
    apply slot_holds_set_alive.
  - intros [a ->%has_group_read_only]%discard_inv. done.
  - unfold Entity_add_group.
    intros (e0 & w1 & [-> _]%deref_inv
            & (b & w2 & [-> _]%defined_inv
               & (u1 & w3 & H1 & H2%add_to_group_same_store)%bind_Ok_inv)%bind_Ok_inv)%bind_Ok_inv Hw.
    eapply attached_same_store; [exact H2|].
    eapply attached_update_entity; [exact H1| |exact Hw].
    apply slot_holds_set_group_bitset.
  - unfold Entity_remove_group.
    intros (e0 & w1 & [-> _]%deref_inv
            & (b & w2 & [-> _]%defined_inv & H1)%bind_Ok_inv)%bind_Ok_inv Hw.
    eapply attached_update_entity; [exact H1| |exact Hw].
    apply slot_holds_set_group_bitset.
  - intros [a H]%discard_inv. by eapply attached_has_component.
  - intros [a H]%discard_inv. by eapply attached_add_component.
  - intros [a H]%discard_inv. by eapply attached_get_component.
Qed.

Lemma attached_perform_all {float} (calls : list (api_call float)) : forall w u w',
  perform_all calls w = Ok u w' -> attached w -> attached w'.
Proof.
  induction calls as [|call calls IH]; intros w u w'; cbn [perform_all].
  - by intros [-> _]%ret_inv.
  - intros (u1 & w1 & H1 & H2)%bind_Ok_inv Hw.
    eapply IH; [exact H2|]. by eapply attached_perform.
Qed.

(** While [E] exists, the queries find the component. *)
Lemma attached_queries w :
  attached w -> valid w E ->
  Entity_has_component T E w = Ok true w
  /\ Entity_get_component T E w = Ok c w.
Proof.
  intros ((HT & Hid & _) & _ & Hslot) [e He].
  destruct (Hslot e He) as [Hb Ha]. split.
  - by rewrite (has_component_known _ _ _ _ _ He HT Hid), Hb.
  - by apply (get_component_known _ _ _ _ _ _ He HT Hid Hb Ha).
Qed.

End Attached.

(** ** [Entity::add_component] and [Entity::get_component] *)

Lemma attached_after_add_component T E e w :
  registry_wf (registry w) ->
  (E < next_addr w)%positive ->
  length (m_component_array e) = N.to_nat max_components ->
  type_id_of w T < max_components ->
  attached T (type_id_of w T) E (next_addr w) (add_component_world T E e w).
Proof.
  intros [Hbelow Hinj] Hlt Hlen Hid. split; [|split].
  - cbn [registry add_component_world]. split; [apply type_id_register|].
    split; [done|]. unfold type_id_of, register in *.
    destruct (type_id (registry w) !! T) as [id|] eqn:HT.
    + split; [by eapply Hbelow|]. intros T' HT'. by eapply Hinj.
    + cbn [registry set_registry last_id type_id]. split.
      * rewrite N.mod_small; [lia|].
        unfold max_components, size_t_modulus in *. lia.
      * intros T'. destruct (decide (T = T')) as [<-|Hne]; [done|].
        rewrite lookup_insert_ne by done. intros HT'%Hbelow. lia.
  - cbn. lia.
  - intros e1. cbn. rewrite lookup_insert_eq. intros [= <-]. split; cbn.
    + apply N.setbit_eq.
    + apply list_lookup_insert_eq. unfold max_components in *. lia.
Qed.

(** C9.  Let [E] be an entity of a world whose registry and whose [E] are as
    the code leaves them, and let [E.add_component<T>()] return the
    component [c].  Then [has_component<T>()] is true and
    [get_component<T>()] returns [c]; after any further calls of the public
    interface that return, as long as [E] still exists, [has_component<T>()]
    is still true and [get_component<T>()] still returns [c]; a second
    [add_component<T>()] stops at the [assert], in the world as the first
    call left it; and [c] is the only component of type [T] among the
    components [E] owns. *)
Theorem add_component_contract
    (w : World) (E : addr) (e : Entity) (T : type_name) (c : addr) (w1 : World) :
  registry_wf (registry w) ->
  (E < next_addr w)%positive ->
  heap w !! E = Some e ->
  entity_wf (registry w) e ->
  Entity_add_component T E w = Ok c w1 ->
  Entity_has_component T E w1 = Ok true w1
  /\ Entity_get_component T E w1 = Ok c w1
  /\ (forall (float : Type) (calls : list (api_call float)) (w2 : World),
        perform_all calls w1 = Ok tt w2 ->
        valid w2 E ->
        Entity_has_component T E w2 = Ok true w2
        /\ Entity_get_component T E w2 = Ok c w2)
  /\ Entity_add_component T E w1 = AssertFailed w1
  /\ exists e1,
      heap w1 !! E = Some e1
      /\ filter (fun x => c_type x = T) (m_components e1)
         = [mkComponent c T (Some E)].
Proof.
  intros Hreg Hlt He [Hlen Hcomps] Hadd.
  apply add_component_inv in Hadd as (e' & He' & Hid & Hbit & -> & ->).
  assert (e' = e) as -> by congruence. clear He'.
  pose proof (attached_after_add_component T E e w Hreg Hlt Hlen Hid) as Hatt.
  set (w1 := add_component_world T E e w) in *.
  assert (Hvalid : valid w1 E).
  { unfold valid, w1. cbn. rewrite lookup_insert_eq. eauto. }
  destruct (attached_queries _ _ _ _ w1 Hatt Hvalid) as [Hhas Hget].
  split; [done|]. split; [done|]. split; [|split].
  - intros float calls w2 Hrun Hv2.
    apply (attached_queries T (type_id_of w T) E (next_addr w)); [|done].
    by eapply attached_perform_all.
  - unfold Entity_add_component. by rewrite (bind_Ok _ _ _ _ _ Hhas).
  - eexists. split; [apply lookup_insert_eq|]. cbn.
    rewrite filter_app, filter_cons_True, filter_nil by done.
    rewrite filter_none; [done|].
    eapply Forall_impl; [exact Hcomps|]. intros x Hx Heq. cbn in Heq.
    unfold component_registered in Hx. rewrite Heq in Hx.
    unfold type_id_of in Hbit.
    destruct (type_id (registry w) !! T); congruence.
Qed.

Lemma NoDup_fmap_elem_inj {A B} (f : A -> B) (l : list A) x y :
  NoDup (f <$> l) -> x ∈ l -> y ∈ l -> f x = f y -> x = y.
Proof.
  induction l as [|a l IH]; cbn; [by intros _ ?%elem_of_nil|].
  intros [Ha Hnd]%NoDup_cons [->|Hx]%elem_of_cons [->|Hy]%elem_of_cons Hf.
  - done.
  - exfalso. apply Ha. rewrite Hf. by apply list_elem_of_fmap_2.
  - exfalso. apply Ha. rewrite <- Hf. by apply list_elem_of_fmap_2.
  - by apply IH.
Qed.

(** A test of [registry_wf] that evaluates. *)
Lemma registry_wf_check (r : Registry) :
  map_Forall (fun _ id => id < last_id r) (type_id r) ->
  NoDup ((map_to_list (type_id r)).*2) ->
  registry_wf r.
Proof.
  intros Hbelow Hnd. split.
  - intros T id HT. by apply (Hbelow T id).
  - intros T1 T2 id H1%elem_of_map_to_list H2%elem_of_map_to_list.
    by pose proof (NoDup_fmap_elem_inj snd _ (T1, id) (T2, id) Hnd H1 H2 eq_refl)
      as [= ->].
Qed.

Lemma add_component_contract_witness :
  registry_wf (registry sample_world)
  /\ (1 < next_addr sample_world)%positive
  /\ heap sample_world !! 1%positive = Some sample_entity
  /\ entity_wf (registry sample_world) sample_entity
  /\ Entity_add_component "Physics" 1%positive sample_world
     = Ok 8%positive (add_component_world "Physics" 1%positive sample_entity sample_world)
  /\ Entity_has_component "Physics" 1%positive
       (add_component_world "Physics" 1%positive sample_entity sample_world)
     = Ok true (add_component_world "Physics" 1%positive sample_entity sample_world)
  /\ Entity_get_component "Physics" 1%positive
       (add_component_world "Physics" 1%positive sample_entity sample_world)
     = Ok 8%positive (add_component_world "Physics" 1%positive sample_entity sample_world)
  /\ (forall (float : Type) (calls : list (api_call float)) (w2 : World),
        perform_all calls
          (add_component_world "Physics" 1%positive sample_entity sample_world)
        = Ok tt w2 ->
        valid w2 1%positive ->
        Entity_has_component "Physics" 1%positive w2 = Ok true w2
        /\ Entity_get_component "Physics" 1%positive w2 = Ok 8%positive w2)
  /\ Entity_add_component "Physics" 1%positive
       (add_component_world "Physics" 1%positive sample_entity sample_world)
     = AssertFailed (add_component_world "Physics" 1%positive sample_entity sample_world)
  /\ exists e1,
      heap (add_component_world "Physics" 1%positive sample_entity sample_world)
        !! 1%positive = Some e1
      /\ filter (fun x => c_type x = "Physics") (m_components e1)
         = [mkComponent 8%positive "Physics" (Some 1%positive)].
Proof.
  assert (H1 : registry_wf (registry sample_world)).
  { apply registry_wf_check; apply (bool_decide_unpack _); vm_compute; exact I. }
  assert (H2 : (1 < next_addr sample_world)%positive) by reflexivity.
  assert (H3 : heap sample_world !! 1%positive = Some sample_entity)
    by (vm_compute; reflexivity).
  assert (H4 : entity_wf (registry sample_world) sample_entity).
  { apply (bool_decide_unpack _). vm_compute. exact I. }
  assert (H5 : Entity_add_component "Physics" 1%positive sample_world
               = Ok 8%positive
                    (add_component_world "Physics" 1%positive sample_entity sample_world))
    by (vm_compute; reflexivity).
  split; [exact H1|]. split; [exact H2|]. split; [exact H3|].
  split; [exact H4|]. split; [exact H5|].
  exact (add_component_contract sample_world 1%positive sample_entity "Physics"
           8%positive _ H1 H2 H3 H4 H5).
Defined.

(** ** Every state the interface reaches is well formed *)

Lemma world_inv_new : world_inv World_new.
Proof.
  split.
  - split; [done|constructor|constructor|].
    apply Forall_forall. intros l Hl. apply elem_of_replicate in Hl as [-> _].
    constructor.
  - intros p [e He]. done.
  - split; intros *; cbn; by rewrite lookup_empty.
  - intros p e He. done.
Qed.

Lemma entity_wf_registry_le r r' e :
  (forall T id, type_id r !! T = Some id -> type_id r' !! T = Some id) ->
  entity_wf r e -> entity_wf r' e.
Proof.
  intros Hle [Hlen Hcs]. split; [done|].
  eapply Forall_impl; [exact Hcs|]. intros x. unfold component_registered.
  destruct (type_id r !! c_type x) as [id|] eqn:Hx; [|done].
  by rewrite (Hle _ _ Hx).
Qed.

Lemma world_wf_same_heap w w' :
  heap w' = heap w -> manager w' = manager w -> world_wf w -> world_wf w'.
Proof.
  intros Hh Hm [Hlen Hown Hnd Hgrp].
  split; unfold groups, owned, valid in *; by rewrite ?Hm, ?Hh.
Qed.

Lemma world_inv_register T w :
  type_id_of w T < max_components -> world_inv w -> world_inv (register T w).
Proof.
  intros Hid [Hwf Hbelow [Hlast Hinj] Hents].
  assert (Hle : forall T' id, type_id (registry w) !! T' = Some id ->
                              type_id (registry (register T w)) !! T' = Some id).
  { intros T' id HT'. unfold register.
    destruct (type_id (registry w) !! T) eqn:HT; [done|]. cbn.
    rewrite lookup_insert_ne; [done|]. intros ->. congruence. }
  split.
  - eapply world_wf_same_heap; [apply heap_register|apply manager_register|done].
  - intros p. unfold valid. rewrite heap_register, next_addr_register. apply Hbelow.
  - unfold register, type_id_of in *.
    destruct (type_id (registry w) !! T) eqn:HT; [done|]. cbn.
    assert (Hmod : (last_id (registry w) + 1) mod size_t_modulus
                   = last_id (registry w) + 1).
    { apply N.mod_small. unfold max_components, size_t_modulus in *. lia. }
    rewrite Hmod. unfold registry_wf. cbn [type_id last_id]. split.
    + intros T' id. destruct (decide (T = T')) as [<-|Hne].
      * rewrite lookup_insert_eq. intros [= <-]. lia.
      * rewrite lookup_insert_ne by done. intros H%Hlast. lia.
    + intros T1 T2 id.
      destruct (decide (T = T1)) as [<-|Hne1], (decide (T = T2)) as [<-|Hne2];
        rewrite ?lookup_insert_eq, ?lookup_insert_ne by done; [done| | |apply Hinj].
      * intros [= <-] H%Hlast. lia.
      * intros H%Hlast [= <-]. lia.
  - intros p e. rewrite heap_register. intros He.
    eapply entity_wf_registry_le; [exact Hle|]. by eapply Hents.
Qed.

Lemma world_inv_update_entity p f w a w' :
  update_entity p f w = Ok a w' ->
  (forall r e, entity_wf r e -> entity_wf r (f e)) ->
  world_inv w -> world_inv w'.
Proof.
  intros (e & He & ->)%update_entity_inv Hf [Hwf Hbelow Hreg Hents]. split.
  - by eapply world_wf_set_heap_insert.
  - intros q [x Hq]. apply Hbelow. cbn in Hq.
    destruct (decide (p = q)) as [->|Hne]; [by eexists|].
    rewrite lookup_insert_ne in Hq by done. by eexists.
  - done.
  - intros q x. cbn. destruct (decide (p = q)) as [->|Hne].
    + rewrite lookup_insert_eq. intros [= <-]. apply Hf. by eapply Hents.
    + rewrite lookup_insert_ne by done. apply Hents.
Qed.

Lemma world_inv_set_groups gs w :
  length gs = N.to_nat max_groups ->
  Forall (Forall (valid w)) gs ->
  world_inv w -> world_inv (set_groups gs w).
Proof.
  intros Hlen Hval [[_ Hown Hnd _] Hbelow Hreg Hents].
  split; [|done..]. by split.
Qed.

Lemma world_inv_add_to_group p g w a w' :
  EntityManager_add_to_group p g w = Ok a w' ->
  valid w p -> world_inv w -> world_inv w'.
Proof.
  unfold EntityManager_add_to_group.
  intros (m & w1 & [-> ->]%gets_inv
          & (v & w2 & [-> Hv]%defined_inv
             & (gs & w3 & [-> Hgs]%defined_inv & ->%modify_inv)%bind_Ok_inv)%bind_Ok_inv)%bind_Ok_inv
         Hp Hinv.
  unfold Array.get, Array.set in Hv, Hgs.
  destruct (g <? max_groups); [|done]. injection Hgs as <-.
  destruct Hinv as [[Hlen Hown Hnd Hgrp] Hbelow Hreg Hents].
  apply (world_inv_set_groups _ w); [by rewrite length_insert| |by split].
  apply Forall_insert; [done|]. apply Forall_app. split; [|by repeat constructor].
  by eapply (Forall_lookup_1 _ _ _ _ Hgrp Hv).
Qed.

Lemma world_inv_add_entity w a w' :
  EntityManager_add_entity w = Ok a w' -> world_inv w -> world_inv w'.
Proof.
  unfold EntityManager_add_entity, Entity_ctor, new_address.
  intros (e & w1 & (n & w2 & [-> ->]%gets_inv
                    & (u & w3 & ->%modify_inv & [-> ->]%ret_inv)%bind_Ok_inv)%bind_Ok_inv
          & (u1 & w4 & ->%modify_inv
             & (u2 & w5 & ->%modify_inv & [-> _]%ret_inv)%bind_Ok_inv)%bind_Ok_inv)%bind_Ok_inv
         [[Hlen Hown Hnd Hgrp] Hbelow Hreg Hents].
  assert (Hv : forall q, valid w q ->
                 valid (set_manager
                          (mkEntityManager (owned w ++ [next_addr w]) (groups w))
                          (set_heap (<[next_addr w := Entity_new]> (heap w))
                                    (set_next_addr (Pos.succ (next_addr w)) w))) q).
  { intros q Hq. unfold valid. cbn. rewrite lookup_insert_ne; [done|].
    intros <-. apply Hbelow in Hq. lia. }
  split.
  - split.
    + done.
    + apply Forall_app. split.
      * eapply Forall_impl; [exact Hown|exact Hv].
      * repeat constructor. unfold valid. cbn. rewrite lookup_insert_eq. eauto.
    + apply NoDup_app. split; [done|]. split; [|apply NoDup_singleton].
      intros q Hq ->%list_elem_of_singleton.
      apply (proj1 (Forall_forall _ _) Hown), Hbelow in Hq. lia.
    + eapply Forall_impl; [exact Hgrp|]. intros l Hl.
      eapply Forall_impl; [exact Hl|exact Hv].
  - intros q [x Hq]. cbn in *.
    destruct (decide (next_addr w = q)) as [<-|Hne]; [lia|].
    rewrite lookup_insert_ne in Hq by done.
    assert (q < next_addr w)%positive by (apply Hbelow; by eexists). lia.
  - done.
  - intros q x. cbn. destruct (decide (next_addr w = q)) as [<-|Hne].
    + rewrite lookup_insert_eq. intros [= <-]. split; [done|constructor].
    + rewrite lookup_insert_ne by done. apply Hents.
Qed.

Lemma world_inv_create_entity w a w' :
  Entity_create w = Ok a w' -> world_inv w -> world_inv w'.
Proof.
  unfold Entity_create, Entity_ctor, new_address.
  intros (e & w1 & (n & w2 & [-> ->]%gets_inv
                    & (u & w3 & ->%modify_inv & [-> ->]%ret_inv)%bind_Ok_inv)%bind_Ok_inv
          & (u1 & w4 & ->%modify_inv & [-> _]%ret_inv)%bind_Ok_inv)%bind_Ok_inv
         [[Hlen Hown Hnd Hgrp] Hbelow Hreg Hents].
  assert (Hv : forall q, valid w q ->
                 valid (set_heap (<[next_addr w := Entity_new]> (heap w))
                                 (set_next_addr (Pos.succ (next_addr w)) w)) q).
  { intros q Hq. unfold valid. cbn. rewrite lookup_insert_ne; [done|].
    intros <-. apply Hbelow in Hq. lia. }
  split.
  - split; [done| |done|].
    + eapply Forall_impl; [exact Hown|exact Hv].
    + eapply Forall_impl; [exact Hgrp|]. intros l Hl.
      eapply Forall_impl; [exact Hl|exact Hv].
  - intros q [x Hq]. cbn in *.
    destruct (decide (next_addr w = q)) as [<-|Hne]; [lia|].
    rewrite lookup_insert_ne in Hq by done.
    assert (q < next_addr w)%positive by (apply Hbelow; by eexists). lia.
  - done.
  - intros q x. cbn. destruct (decide (next_addr w = q)) as [<-|Hne].
    + rewrite lookup_insert_eq. intros [= <-]. split; [done|constructor].
    + rewrite lookup_insert_ne by done. apply Hents.
Qed.

Lemma world_inv_refresh w a w' :
  EntityManager_refresh w = Ok a w' -> world_inv w -> world_inv w'.
Proof.
  intros Hrun [Hwf Hbelow Hreg Hents].
  rewrite (refresh_Ok _ Hwf) in Hrun. injection Hrun as _ <-.
  split.
  - by apply refresh_world_wf.
  - intros p [x Hp]. apply Hbelow. cbn in Hp.
    rewrite lookup_foldr_delete in Hp. case_decide; [done|by eexists].
  - done.
  - intros p x. cbn. rewrite lookup_foldr_delete. case_decide; [done|apply Hents].
Qed.

Lemma world_inv_has_component T p w b w' :
  Entity_has_component T p w = Ok b w' -> world_inv w -> world_inv w'.
Proof.
  rewrite has_component_eq. destruct (heap w !! p); [|done].
  destruct (type_id_of w T <? max_components) eqn:Hid; [|done].
  intros [= <- <-]. apply world_inv_register. by apply N.ltb_lt.
Qed.

Lemma world_inv_get_component T p w a w' :
  Entity_get_component T p w = Ok a w' -> world_inv w -> world_inv w'.
Proof.
  unfold Entity_get_component.
  intros (h & w1 & Hh
          & (u & w2 & [-> _]%assert_inv
             & (i & w3 & Hi & (e & w4 & [-> _]%deref_inv
                & (ptr & w5 & [-> Hptr]%defined_inv
                   & [-> _]%defined_inv)%bind_Ok_inv)%bind_Ok_inv)%bind_Ok_inv)%bind_Ok_inv)%bind_Ok_inv Hw.
  apply world_inv_has_component in Hh; [|done].
  rewrite get_component_type_id_Ok in Hi. injection Hi as <- <-.
  apply world_inv_register; [|done].
  unfold Array.get in Hptr.
  destruct (type_id_of w1 T <? max_components) eqn:Hid; [|done].
  by apply N.ltb_lt.
Qed.

Lemma world_inv_add_component T p w a w' :
  Entity_add_component T p w = Ok a w' -> world_inv w -> world_inv w'.
Proof.
  intros (e & He & Hid & Hbit & -> & ->)%add_component_inv Hinv.
  pose proof (world_inv_register T w Hid Hinv) as [Hwf Hbelow Hreg Hents].
  assert (He0 : heap (register T w) !! p = Some e) by by rewrite heap_register.
  pose proof (world_wf_set_heap_insert _ p e
                (add_component_entity T (type_id_of w T) p (next_addr w) e)
                He0 Hwf) as Hwf'.
  rewrite heap_register in Hwf'.
  split.
  - destruct Hwf' as [Hlen Hown Hnd Hgrp]. split; try done.
    + unfold groups in *. cbn in *. by rewrite manager_register in Hlen.
    + unfold owned in *. cbn in *. by rewrite manager_register in Hown.
    + unfold owned in *. cbn in *. by rewrite manager_register in Hnd.
    + unfold groups in *. cbn in *. by rewrite manager_register in Hgrp.
  - intros q [x Hq]. cbn in *.
    assert (q < next_addr w)%positive; [|lia].
    rewrite <- (next_addr_register T w). apply Hbelow. unfold valid.
    rewrite heap_register.
    destruct (decide (p = q)) as [->|Hne]; [by eexists|].
    rewrite lookup_insert_ne in Hq by done. by eexists.
  - done.
  - intros q x. cbn. destruct (decide (p = q)) as [->|Hne].
    + rewrite lookup_insert_eq. intros [= <-].
      destruct (Hents q e He0) as [Hlen Hcs]. split; cbn.
      * by rewrite length_insert.
      * apply Forall_app. split.
        -- eapply Forall_impl; [exact Hcs|]. intros y.
           unfold component_registered. cbn.
           destruct (type_id (registry (register T w)) !! c_type y); [|done].
           rewrite N.setbit_eqb. intros ->. apply orb_true_r.
        -- repeat constructor. unfold component_registered. cbn.
           rewrite type_id_register. apply N.setbit_eq.
    + rewrite lookup_insert_ne by done. rewrite <- (heap_register T w). apply Hents.
Qed.

Lemma world_inv_perform {float} (c : api_call float) w u w' :
  perform c w = Ok u w' -> call_ok w c -> world_inv w -> world_inv w'.
Proof.
  destruct c; cbn [perform call_ok]; intros Hrun Hok Hinv.
  - apply discard_inv in Hrun as [a H]. by eapply world_inv_create_entity.
  - apply discard_inv in Hrun as [a H]. by eapply world_inv_add_entity.
  - by apply discard_inv in Hrun as [a ->%update_read_only].
  - by apply discard_inv in Hrun as [a ->%draw_read_only].
  - by eapply world_inv_refresh.
  - by eapply world_inv_add_to_group.
  - by apply discard_inv in Hrun as [a ->%get_entities_by_group_read_only].
  - by apply discard_inv in Hrun as [a ->%is_alive_read_only].
  - eapply world_inv_update_entity; [exact Hrun| |done]. by intros r x [].
  - by apply discard_inv in Hrun as [a ->%has_group_read_only].
  - unfold Entity_add_group in Hrun.
    apply bind_Ok_inv in Hrun as (e0 & w1 & [-> He0]%deref_inv & Hrun).
    apply bind_Ok_inv in Hrun as (b & w2 & [-> _]%defined_inv & Hrun).
    apply bind_Ok_inv in Hrun as (u1 & w3 & H1 & H2).
    eapply world_inv_add_to_group; [exact H2| |].
    + apply update_entity_inv in H1 as (x & Hx & ->). unfold valid. cbn.
      rewrite lookup_insert_eq. eauto.
    + eapply world_inv_update_entity; [exact H1| |done]. by intros r x [].
  - unfold Entity_remove_group in Hrun.
    apply bind_Ok_inv in Hrun as (e0 & w1 & [-> He0]%deref_inv & Hrun).
    apply bind_Ok_inv in Hrun as (b & w2 & [-> _]%defined_inv & Hrun).
    eapply world_inv_update_entity; [exact Hrun| |done]. by intros r x [].
  - apply discard_inv in Hrun as [a H]. by eapply world_inv_has_component.
  - apply discard_inv in Hrun as [a H]. by eapply world_inv_add_component.
  - apply discard_inv in Hrun as [a H]. by eapply world_inv_get_component.
Qed.

(** The hypotheses of the statements above hold in every world the public
    interface reaches from the start of the process. *)
Lemma reachable_world_inv {float} (w : World) :
  reachable (float := float) w -> world_inv w.
Proof.
  induction 1 as [|c w w' _ IH Hok Hrun]; [apply world_inv_new|].
  by eapply world_inv_perform.
Qed.

(** * Further properties of the entity-component core *)

(** ** [EntityManager::add_entity] *)

(** A test of [heap_below] that evaluates. *)
Lemma heap_below_check (w : World) :
  map_Forall (fun p _ => (p < next_addr w)%positive) (heap w) -> heap_below w.
Proof. intros H p [e He]. by apply (H p e). Qed.

(** X1. In a world whose live objects all lie below the allocation counter,
    [add_entity()] returns the address of an object that did not exist
    before.  The new entity is alive, is in no group, and has no component
    and no component bit; it is the last element of the owned vector; the
    group vectors, the registry and every entity that existed before are
    unchanged, so references handed out earlier stay valid. *)
Theorem add_entity_fresh (w : World) :
  heap_below w ->
  exists e w',
    EntityManager_add_entity w = Ok e w'
    /\ (~ valid w e)
    /\ heap w' !! e = Some Entity_new
    /\ Entity_is_alive e w' = Ok true w'
    /\ (forall g, g < max_groups -> Entity_has_group e g w' = Ok false w')
    /\ (forall T, type_id_of w' T < max_components ->
          Entity_has_component T e w' = Ok false (register T w'))
    /\ components_at w' e = []
    /\ owned w' = owned w ++ [e]
    /\ groups w' = groups w
    /\ registry w' = registry w
    /\ forall p, valid w p -> heap w' !! p = heap w !! p.
Proof.
  intros Hbelow. set (e := next_addr w).
  set (w' := set_manager (mkEntityManager (owned w ++ [e]) (groups w))
               (set_heap (<[e := Entity_new]> (heap w))
                         (set_next_addr (Pos.succ e) w))).
  assert (He : heap w' !! e = Some Entity_new) by apply lookup_insert_eq.
  assert (Hfresh : ~ valid w e).
  { intros Hv. apply Hbelow in Hv. unfold e in Hv. lia. }
  exists e, w'. split; [done|]. split; [done|]. split; [done|].
  split; [by rewrite (is_alive_Some _ _ _ He)|].
  split; [intros g Hg; by rewrite (has_group_Some _ _ _ _ He Hg)|].
  split; [intros T HT; by rewrite (has_component_Ok _ _ _ _ He HT)|].
  split; [unfold components_at; by rewrite He|].
  do 3 (split; [done|]).
  intros p Hp. cbn. apply lookup_insert_ne. intros <-. done.
Qed.

Lemma add_entity_fresh_witness :
  heap_below sample_world
  /\ exists e w',
      EntityManager_add_entity sample_world = Ok e w'
      /\ (~ valid sample_world e)
      /\ heap w' !! e = Some Entity_new
      /\ Entity_is_alive e w' = Ok true w'
      /\ (forall g, g < max_groups -> Entity_has_group e g w' = Ok false w')
      /\ (forall T, type_id_of w' T < max_components ->
            Entity_has_component T e w' = Ok false (register T w'))
      /\ components_at w' e = []
      /\ owned w' = owned sample_world ++ [e]
      /\ groups w' = groups sample_world
      /\ registry w' = registry sample_world
      /\ forall p, valid sample_world p -> heap w' !! p = heap sample_world !! p.
Proof.
  assert (H : heap_below sample_world).
  { apply heap_below_check. apply (bool_decide_unpack _). vm_compute. exact I. }
  split; [exact H|]. exact (add_entity_fresh sample_world H).
Defined.

(** ** [destroy] followed by [refresh] *)

Lemma count_occ_filter (P : addr -> Prop) `{forall x, Decision (P x)}
    (l : list addr) (x : addr) :
  count_occ Pos.eq_dec (filter P l) x
  = if decide (P x) then count_occ Pos.eq_dec l x else 0%nat.
Proof.
  induction l as [|y l IH]; [by case_decide|].
  rewrite filter_cons. destruct (decide (P y)) as [Hy|Hy]; cbn;
    destruct (Pos.eq_dec y x) as [->|Hne]; rewrite ?IH;
    destruct (decide (P x)); try done.
Qed.

Lemma destroy_world_wf w E e :
  heap w !! E = Some e -> world_wf w ->
  world_wf (set_heap (<[E := set_alive false e]> (heap w)) w).
Proof. apply world_wf_set_heap_insert. Qed.

(** X2. For an entity [E] that the manager owns, [destroy()] followed by
    [refresh()] purges it: both calls return; [E] is no longer in the owned
    vector nor in the vector of any group; the object is deleted, so that
    any later call through the old reference, [is_alive()] included, is
    undefined. *)
Theorem destroy_then_refresh_purges_owned (w : World) (E : addr) :
  world_wf w ->
  E ∈ owned w ->
  exists w1 w2,
    Entity_destroy E w = Ok tt w1
    /\ EntityManager_refresh w1 = Ok tt w2
    /\ (E ∉ owned w2)
    /\ (forall g l, g < max_groups ->
          EntityManager_get_entities_by_group g w2 = Ok l w2 -> E ∉ l)
    /\ heap w2 !! E = None
    /\ Entity_is_alive E w2 = Undefined
    /\ Entity_destroy E w2 = Undefined.
Proof.
  intros Hwf Hin.
  destruct (proj1 (Forall_forall _ _) (wf_owned_valid _ Hwf) E Hin) as [e He].
  set (w1 := set_heap (<[E := set_alive false e]> (heap w)) w).
  assert (He1 : heap w1 !! E = Some (set_alive false e)) by apply lookup_insert_eq.
  assert (Hwf1 : world_wf w1) by by apply destroy_world_wf.
  assert (Hdead : alive_at w1 E = false) by by rewrite (alive_at_Some _ _ _ He1).
  assert (Hgone : heap (refresh_world w1) !! E = None).
  { cbn. rewrite lookup_foldr_delete, decide_True; [done|].
    apply list_elem_of_filter. split; [|done]. by rewrite Hdead. }
  exists w1, (refresh_world w1).
  split; [by apply destroy_Ok|]. split; [by apply refresh_Ok|].
  split.
  { cbn. intros [Ha _]%list_elem_of_filter. by rewrite Hdead in Ha. }
  split.
  { intros g l Hg Hl Hl'. apply get_entities_by_group_Ok in Hl; [|done].
    unfold groups in Hl. cbn in Hl. rewrite list_lookup_imap in Hl.
    apply fmap_Some in Hl as (l0 & _ & ->).
    apply list_elem_of_filter in Hl' as [Hk _].
    unfold keeps in Hk. by rewrite Hdead in Hk. }
  split; [done|].
  split.
  - unfold Entity_is_alive. by apply bind_Undefined, deref_None.
  - unfold Entity_destroy, update_entity. by apply bind_Undefined, deref_None.
Qed.

Lemma destroy_then_refresh_purges_owned_witness :
  world_wf sample_world
  /\ 1%positive ∈ owned sample_world
  /\ exists w1 w2,
      Entity_destroy 1%positive sample_world = Ok tt w1
      /\ EntityManager_refresh w1 = Ok tt w2
      /\ (1%positive ∉ owned w2)
      /\ (forall g l, g < max_groups ->
            EntityManager_get_entities_by_group g w2 = Ok l w2 -> 1%positive ∉ l)
      /\ heap w2 !! 1%positive = None
      /\ Entity_is_alive 1%positive w2 = Undefined
      /\ Entity_destroy 1%positive w2 = Undefined.
Proof.
  assert (Hwf : world_wf sample_world) by sample_wf.
  assert (Hin : 1%positive ∈ owned sample_world).
  { apply (bool_decide_unpack _). vm_compute. exact I. }
  split; [exact Hwf|]. split; [exact Hin|].
  exact (destroy_then_refresh_purges_owned sample_world 1%positive Hwf Hin).
Defined.

(** X3. For an entity [E] that exists but that the manager does not own
    (one the caller defined itself), [destroy()] followed by [refresh()]
    drops [E] from every group vector but does not delete it: the object is
    still there, with its alive flag false and its other members as before
    the [destroy()]. *)
Theorem destroy_then_refresh_keeps_unowned (w : World) (E : addr) (e : Entity) :
  world_wf w ->
  heap w !! E = Some e ->
  E ∉ owned w ->
  exists w1 w2,
    Entity_destroy E w = Ok tt w1
    /\ EntityManager_refresh w1 = Ok tt w2
    /\ (forall g l, g < max_groups ->
          EntityManager_get_entities_by_group g w2 = Ok l w2 -> E ∉ l)
    /\ heap w2 !! E = Some (set_alive false e)
    /\ Entity_is_alive E w2 = Ok false w2.
Proof.
  intros Hwf He Hout.
  set (w1 := set_heap (<[E := set_alive false e]> (heap w)) w).
  assert (He1 : heap w1 !! E = Some (set_alive false e)) by apply lookup_insert_eq.
  assert (Hwf1 : world_wf w1) by by apply destroy_world_wf.
  assert (Hdead : alive_at w1 E = false) by by rewrite (alive_at_Some _ _ _ He1).
  assert (He2 : heap (refresh_world w1) !! E = Some (set_alive false e)).
  { cbn. rewrite lookup_foldr_delete, decide_False; [apply lookup_insert_eq|].
    intros [_ Hin]%list_elem_of_filter. by apply Hout. }
  exists w1, (refresh_world w1).
  split; [by apply destroy_Ok|]. split; [by apply refresh_Ok|].
  split.
  { intros g l Hg Hl Hl'. apply get_entities_by_group_Ok in Hl; [|done].
    unfold groups in Hl. cbn in Hl. rewrite list_lookup_imap in Hl.
    apply fmap_Some in Hl as (l0 & _ & ->).
    apply list_elem_of_filter in Hl' as [Hk _].
    unfold keeps in Hk. by rewrite Hdead in Hk. }
  split; [done|]. by rewrite (is_alive_Some _ _ _ He2).
Qed.

Lemma destroy_then_refresh_keeps_unowned_witness :
  world_wf sample_world
  /\ heap sample_world !! 7%positive = Some Entity_unowned_sample
  /\ (7%positive ∉ owned sample_world)
  /\ exists w1 w2,
      Entity_destroy 7%positive sample_world = Ok tt w1
      /\ EntityManager_refresh w1 = Ok tt w2
      /\ (forall g l, g < max_groups ->
            EntityManager_get_entities_by_group g w2 = Ok l w2 -> 7%positive ∉ l)
      /\ heap w2 !! 7%positive = Some (set_alive false Entity_unowned_sample)
      /\ Entity_is_alive 7%positive w2 = Ok false w2.
Proof.
  assert (Hwf : world_wf sample_world) by sample_wf.
  assert (He : heap sample_world !! 7%positive = Some Entity_unowned_sample)
    by (vm_compute; reflexivity).
  assert (Hout : 7%positive ∉ owned sample_world).
  { apply (bool_decide_unpack _). vm_compute. exact I. }
  split; [exact Hwf|]. split; [exact He|]. split; [exact Hout|].
  exact (destroy_then_refresh_keeps_unowned
           sample_world 7%positive Entity_unowned_sample Hwf He Hout).
Defined.

(** ** What [refresh] leaves alone *)

(** X4. [refresh()] never touches a living entity: in a well-formed world,
    an entity [E] whose alive flag is set is the same object after the
    call, it is owned afterwards exactly if it was owned before, and for
    every group [g < 32] whose bit [E] carries, the vector of [g] lists [E]
    as many times as before (for a group whose bit [E] lacks, not at all).
    The registry and the allocation counter are unchanged. *)
Theorem refresh_keeps_living (w : World) (E : addr) (e : Entity) :
  world_wf w ->
  heap w !! E = Some e ->
  m_alive e = true ->
  exists w2,
    EntityManager_refresh w = Ok tt w2
    /\ heap w2 !! E = Some e
    /\ count_occ Pos.eq_dec (owned w2) E = count_occ Pos.eq_dec (owned w) E
    /\ (forall g l l2,
          g < max_groups ->
          EntityManager_get_entities_by_group g w = Ok l w ->
          EntityManager_get_entities_by_group g w2 = Ok l2 w2 ->
          count_occ Pos.eq_dec l2 E
          = if N.testbit (m_group_bitset e) g
            then count_occ Pos.eq_dec l E else 0%nat)
    /\ registry w2 = registry w
    /\ next_addr w2 = next_addr w.
Proof.
  intros Hwf He Halive.
  assert (Ha : alive_at w E = true) by by rewrite (alive_at_Some _ _ _ He).
  exists (refresh_world w). split; [by apply refresh_Ok|].
  split; [by rewrite heap_refresh_world_alive|].
  split.
  { cbn. rewrite count_occ_filter, Ha. by rewrite decide_True. }
  split; [|done].
  intros g l l2 Hg Hl Hl2.
  apply get_entities_by_group_Ok in Hl; [|done].
  apply get_entities_by_group_Ok in Hl2; [|done].
  unfold groups in Hl2. cbn in Hl2. rewrite list_lookup_imap in Hl2.
  fold (groups w) in Hl2. rewrite Hl in Hl2. injection Hl2 as <-.
  unfold compact_slot. rewrite count_occ_filter. unfold keeps.
  rewrite N2Nat.id, Ha, (in_group_at_Some _ _ _ _ He Hg). cbn [andb].
  destruct (N.testbit (m_group_bitset e) g); by case_decide.
Qed.

Lemma refresh_keeps_living_witness :
  world_wf sample_world
  /\ heap sample_world !! 1%positive = Some sample_entity
  /\ m_alive sample_entity = true
  /\ exists w2,
      EntityManager_refresh sample_world = Ok tt w2
      /\ heap w2 !! 1%positive = Some sample_entity
      /\ count_occ Pos.eq_dec (owned w2) 1%positive
         = count_occ Pos.eq_dec (owned sample_world) 1%positive
      /\ (forall g l l2,
            g < max_groups ->
            EntityManager_get_entities_by_group g sample_world = Ok l sample_world ->
            EntityManager_get_entities_by_group g w2 = Ok l2 w2 ->
            count_occ Pos.eq_dec l2 1%positive
            = if N.testbit (m_group_bitset sample_entity) g
              then count_occ Pos.eq_dec l 1%positive else 0%nat)
      /\ registry w2 = registry sample_world
      /\ next_addr w2 = next_addr sample_world.
Proof.
  assert (Hwf : world_wf sample_world) by sample_wf.
  assert (He : heap sample_world !! 1%positive = Some sample_entity)
    by (vm_compute; reflexivity).
  assert (Ha : m_alive sample_entity = true) by reflexivity.
  split; [exact Hwf|]. split; [exact He|]. split; [exact Ha|].
  exact (refresh_keeps_living sample_world 1%positive sample_entity Hwf He Ha).
Defined.

(** ** [get_component] and [has_component] at their edges *)

(** X5. For a live entity and a type whose id is below 32,
    [get_component<T>()] is decided by the bit and the slot alone: with the
    bit clear it stops at the [assert]; with the bit set it returns the
    address in the slot, and a null slot is undefined.  Either way the type
    is registered afterwards. *)
Theorem get_component_cases (w : World) (E : addr) (e : Entity) (T : type_name) :
  heap w !! E = Some e ->
  type_id_of w T < max_components ->
  Entity_get_component T E w
  = if N.testbit (m_component_bitset e) (type_id_of w T)
    then match m_component_array e !! N.to_nat (type_id_of w T) with
         | Some (Some c) => Ok c (register T w)
         | _ => Undefined
         end
    else AssertFailed (register T w).
Proof.
  intros He Hid. unfold Entity_get_component.
  rewrite (bind_Ok _ _ _ _ _ (has_component_Ok _ _ _ _ He Hid)).
  destruct (N.testbit (m_component_bitset e) (type_id_of w T)); [|done].
  unfold assert at 1, bind at 1.
  assert (HT : type_id (registry (register T w)) !! T = Some (type_id_of w T))
    by apply type_id_register.
  assert (He' : heap (register T w) !! E = Some e) by by rewrite heap_register.
  rewrite (bind_Ok _ _ _ _ _ (get_component_type_id_known _ _ _ HT)).
  rewrite (bind_Ok _ _ _ _ _ (deref_Some _ _ _ He')).
  unfold Array.get. apply N.ltb_lt in Hid. rewrite Hid.
  destruct (m_component_array e !! N.to_nat (type_id_of w T)) as [[c|]|]; done.
Qed.

Lemma get_component_cases_witness :
  heap sample_world !! 1%positive = Some sample_entity
  /\ type_id_of sample_world "Physics" < max_components
  /\ Entity_get_component "Physics" 1%positive sample_world
     = AssertFailed (register "Physics" sample_world)
  /\ Entity_get_component "Physics" 1%positive sample_world
     = if N.testbit (m_component_bitset sample_entity)
                    (type_id_of sample_world "Physics")
       then match m_component_array sample_entity
                  !! N.to_nat (type_id_of sample_world "Physics") with
            | Some (Some c) => Ok c (register "Physics" sample_world)
            | _ => Undefined
            end
       else AssertFailed (register "Physics" sample_world).
Proof.
  assert (He : heap sample_world !! 1%positive = Some sample_entity)
    by (vm_compute; reflexivity).
  assert (Hid : type_id_of sample_world "Physics" < max_components) by reflexivity.
  split; [exact He|]. split; [exact Hid|].
  split; [vm_compute; reflexivity|].
  exact (get_component_cases sample_world 1%positive sample_entity "Physics" He Hid).
Defined.

(** X6. [has_component<T>()] is a query that writes: the first use of a
    type [T] anywhere, this query included, takes the next id.  For a live
    entity, an unregistered [T] and a counter below 32, the call returns
    the bit at the counter's value, registers [T] with that id and steps
    the counter, so that the next new type gets the id after it; entities
    and manager are unchanged. *)
Theorem has_component_first_use_registers
    (w : World) (E : addr) (e : Entity) (T : type_name) :
  heap w !! E = Some e ->
  type_id (registry w) !! T = None ->
  last_id (registry w) < max_components ->
  exists w',
    Entity_has_component T E w
    = Ok (N.testbit (m_component_bitset e) (last_id (registry w))) w'
    /\ type_id (registry w') !! T = Some (last_id (registry w))
    /\ last_id (registry w') = last_id (registry w) + 1
    /\ heap w' = heap w
    /\ manager w' = manager w
    /\ forall U, U <> T -> type_id (registry w) !! U = None ->
         exists w'', get_component_type_id U w' = Ok (last_id (registry w) + 1) w''.
Proof.
  intros He HT Hlast.
  assert (Hof : type_id_of w T = last_id (registry w))
    by (unfold type_id_of; by rewrite HT).
  exists (register T w).
  split; [rewrite <- Hof; apply has_component_Ok; [done|by rewrite Hof]|].
  split; [rewrite <- Hof; apply type_id_register|].
  assert (Hlast' : last_id (registry (register T w)) = last_id (registry w) + 1).
  { unfold register. rewrite HT. cbn. apply N.mod_small.
    unfold max_components, size_t_modulus in *. lia. }
  split; [done|]. split; [apply heap_register|]. split; [apply manager_register|].
  intros U HU HUnone. eexists.
  rewrite get_component_type_id_fresh, Hlast'; [done|].
  unfold register. rewrite HT. cbn. by rewrite lookup_insert_ne.
Qed.

Lemma has_component_first_use_registers_witness :
  heap sample_world !! 1%positive = Some sample_entity
  /\ type_id (registry sample_world) !! "Physics" = None
  /\ last_id (registry sample_world) < max_components
  /\ exists w',
      Entity_has_component "Physics" 1%positive sample_world
      = Ok (N.testbit (m_component_bitset sample_entity)
                      (last_id (registry sample_world))) w'
      /\ type_id (registry w') !! "Physics" = Some (last_id (registry sample_world))
      /\ last_id (registry w') = last_id (registry sample_world) + 1
      /\ heap w' = heap sample_world
      /\ manager w' = manager sample_world
      /\ forall U, U <> "Physics" -> type_id (registry sample_world) !! U = None ->
           exists w'', get_component_type_id U w'
                       = Ok (last_id (registry sample_world) + 1) w''.
Proof.
  assert (He : heap sample_world !! 1%positive = Some sample_entity)
    by (vm_compute; reflexivity).
  assert (HT : type_id (registry sample_world) !! "Physics" = None)
    by (vm_compute; reflexivity).
  assert (Hl : last_id (registry sample_world) < max_components) by reflexivity.
  split; [exact He|]. split; [exact HT|]. split; [exact Hl|].
  exact (has_component_first_use_registers
           sample_world 1%positive sample_entity "Physics" He HT Hl).
Defined.

(** ** Group vectors and group bits drift apart until [refresh] *)

(** X7. [EntityManager::add_to_group(e, g)] called on its own, for a live
    entity whose bit [g] is clear, appends the entity to the vector of
    group [g] without touching any entity: [has_group(g)] is still false
    while [get_entities_by_group(g)] lists the entity.  The next
    [refresh()] drops the entry again. *)
Theorem add_to_group_without_bit (w : World) (E : addr) (e : Entity) (g : Group) :
  world_wf w ->
  heap w !! E = Some e ->
  g < max_groups ->
  N.testbit (m_group_bitset e) g = false ->
  exists l0 w1 w2 l2,
    EntityManager_get_entities_by_group g w = Ok l0 w
    /\ EntityManager_add_to_group E g w = Ok tt w1
    /\ heap w1 = heap w
    /\ EntityManager_get_entities_by_group g w1 = Ok (l0 ++ [E]) w1
    /\ Entity_has_group E g w1 = Ok false w1
    /\ EntityManager_refresh w1 = Ok tt w2
    /\ EntityManager_get_entities_by_group g w2 = Ok l2 w2
    /\ E ∉ l2.
Proof.
  intros Hwf He Hg Hbit.
  destruct (lookup_lt_is_Some_2 (groups w) (N.to_nat g)) as [l0 Hl0].
  { rewrite (wf_group_count _ Hwf). unfold max_groups in *. lia. }
  set (w1 := set_groups (<[N.to_nat g := l0 ++ [E]]> (groups w)) w).
  assert (He1 : heap w1 !! E = Some e) by done.
  assert (Hwf1 : world_wf w1).
  { destruct Hwf as [Hlen Hown Hnd Hgrp]. split; [|done|done|].
    - unfold w1, groups at 1. cbn. by rewrite length_insert.
    - unfold w1, groups at 1. cbn. apply Forall_insert; [done|].
      apply Forall_app. split; [by eapply (Forall_lookup_1 _ _ _ _ Hgrp Hl0)|].
      repeat constructor. by exists e. }
  destruct (get_entities_by_group_total (refresh_world w1) g) as [l2 Hl2];
    [by destruct (refresh_world_wf _ Hwf1)|done|].
  exists l0, w1, (refresh_world w1), l2.
  split; [by apply get_entities_by_group_Ok|].
  split; [by apply add_to_group_Ok|]. split; [done|].
  split.
  { apply get_entities_by_group_Ok; [done|]. unfold w1, groups at 1. cbn.
    apply list_lookup_insert_eq. by apply lookup_lt_Some in Hl0. }
  split; [by rewrite (has_group_Some _ _ _ _ He1 Hg), Hbit|].
  split; [by apply refresh_Ok|]. split; [done|].
  apply get_entities_by_group_Ok in Hl2; [|done].
  eapply (refresh_drops_non_member w1 g E l2); [done| |done].
  by rewrite (in_group_at_Some _ _ _ _ He1 Hg).
Qed.

Lemma add_to_group_without_bit_witness :
  world_wf sample_world
  /\ heap sample_world !! 1%positive = Some sample_entity
  /\ 5 < max_groups
  /\ N.testbit (m_group_bitset sample_entity) 5 = false
  /\ exists l0 w1 w2 l2,
      EntityManager_get_entities_by_group 5 sample_world = Ok l0 sample_world
      /\ EntityManager_add_to_group 1%positive 5 sample_world = Ok tt w1
      /\ heap w1 = heap sample_world
      /\ EntityManager_get_entities_by_group 5 w1 = Ok (l0 ++ [1%positive]) w1
      /\ Entity_has_group 1%positive 5 w1 = Ok false w1
      /\ EntityManager_refresh w1 = Ok tt w2
      /\ EntityManager_get_entities_by_group 5 w2 = Ok l2 w2
      /\ 1%positive ∉ l2.
Proof.
  assert (Hwf : world_wf sample_world) by sample_wf.
  assert (He : heap sample_world !! 1%positive = Some sample_entity)
    by (vm_compute; reflexivity).
  assert (Hg : 5 < max_groups) by reflexivity.
  assert (Hb : N.testbit (m_group_bitset sample_entity) 5 = false) by reflexivity.
  split; [exact Hwf|]. split; [exact He|]. split; [exact Hg|]. split; [exact Hb|].
  exact (add_to_group_without_bit sample_world 1%positive sample_entity 5 Hwf He Hg Hb).
Defined.

(** X8. [add_group(g)] followed by [remove_group(g)] is not a round trip.
    For a live entity and [g < 32] both calls return; afterwards
    [has_group(g)] is false and the entity's members are those it had before
    with bit [g] cleared (so the entity is as before exactly if it was not in
    the group), but the vector of group [g] keeps the entry that
    [add_group] appended. *)
Theorem add_group_then_remove_group (w : World) (E : addr) (e : Entity) (g : Group) :
  heap w !! E = Some e ->
  length (groups w) = N.to_nat max_groups ->
  g < max_groups ->
  exists l0 w1 w2,
    EntityManager_get_entities_by_group g w = Ok l0 w
    /\ Entity_add_group E g w = Ok tt w1
    /\ Entity_remove_group E g w1 = Ok tt w2
    /\ Entity_has_group E g w2 = Ok false w2
    /\ heap w2 !! E = Some (set_group_bitset (N.clearbit (m_group_bitset e) g) e)
    /\ (N.testbit (m_group_bitset e) g = false -> heap w2 = heap w)
    /\ EntityManager_get_entities_by_group g w2 = Ok (l0 ++ [E]) w2.
Proof.
  intros He Hlen Hg.
  destruct (lookup_lt_is_Some_2 (groups w) (N.to_nat g)) as [l0 Hl0]; [lia|].
  set (e1 := set_group_bitset (N.setbit (m_group_bitset e) g) e).
  set (w1 := set_groups (<[N.to_nat g := l0 ++ [E]]> (groups w))
               (set_heap (<[E := e1]> (heap w)) w)).
  assert (He1 : heap w1 !! E = Some e1) by apply lookup_insert_eq.
  set (e2 := set_group_bitset (N.clearbit (m_group_bitset e1) g) e1).
  set (w2 := set_heap (<[E := e2]> (heap w1)) w1).
  assert (He2 : heap w2 !! E = Some e2) by apply lookup_insert_eq.
  assert (Hbits : N.clearbit (N.setbit (m_group_bitset e) g) g
                  = N.clearbit (m_group_bitset e) g).
  { apply N.bits_inj. intros j. rewrite !N.clearbit_eqb, N.setbit_eqb.
    destruct (g =? j); cbn; [by rewrite !andb_false_r|done]. }
  assert (He2' : e2 = set_group_bitset (N.clearbit (m_group_bitset e) g) e).
  { unfold e2, e1, set_group_bitset. cbn. by rewrite Hbits. }
  exists l0, w1, w2.
  split; [by apply get_entities_by_group_Ok|].
  split; [by apply add_group_Ok|].
  split; [by apply remove_group_Ok|].
  split.
  { rewrite (has_group_Some _ _ _ _ He2 Hg), He2'. cbn.
    by rewrite N.clearbit_eqb, N.eqb_refl, andb_false_r. }
  split; [by rewrite He2, He2'|].
  split.
  { intros Hbit. unfold w2, w1. cbn. rewrite insert_insert_eq, He2'.
    apply insert_id. rewrite He. f_equal. destruct e as [a cs arr cb gb].
    unfold set_group_bitset. cbn in *. f_equal.
    apply N.bits_inj. intros j. rewrite N.clearbit_eqb.
    destruct (g =? j) eqn:Hj; [|by rewrite andb_true_r].
    apply N.eqb_eq in Hj as <-. by rewrite Hbit. }
  apply get_entities_by_group_Ok; [done|]. unfold w2, w1, groups at 1. cbn.
  apply list_lookup_insert_eq. by apply lookup_lt_Some in Hl0.
Qed.

Lemma add_group_then_remove_group_witness :
  heap sample_world !! 1%positive = Some sample_entity
  /\ length (groups sample_world) = N.to_nat max_groups
  /\ 5 < max_groups
  /\ exists l0 w1 w2,
      EntityManager_get_entities_by_group 5 sample_world = Ok l0 sample_world
      /\ Entity_add_group 1%positive 5 sample_world = Ok tt w1
      /\ Entity_remove_group 1%positive 5 w1 = Ok tt w2
      /\ Entity_has_group 1%positive 5 w2 = Ok false w2
      /\ heap w2 !! 1%positive
         = Some (set_group_bitset (N.clearbit (m_group_bitset sample_entity) 5)
                                  sample_entity)
      /\ (N.testbit (m_group_bitset sample_entity) 5 = false ->
          heap w2 = heap sample_world)
      /\ EntityManager_get_entities_by_group 5 w2 = Ok (l0 ++ [1%positive]) w2.
Proof.
  assert (He : heap sample_world !! 1%positive = Some sample_entity)
    by (vm_compute; reflexivity).
  assert (Hl : length (groups sample_world) = N.to_nat max_groups) by reflexivity.
  assert (Hg : 5 < max_groups) by reflexivity.
  split; [exact He|]. split; [exact Hl|]. split; [exact Hg|].
  exact (add_group_then_remove_group sample_world 1%positive sample_entity 5 He Hl Hg).
Defined.

(** ** The alive flag gates nothing but [refresh] *)

(** X9. Neither [add_component] nor [add_group] tests the alive flag (the
    unit test "Create an entity" relies on it).  After [destroy()], for a
    type with an id below 32 that the entity lacks and a group [g < 32],
    [add_component<T>()] and [add_group(g)] both return,
    [has_component<T>()] and [has_group(g)] are then true, the entity is
    listed in group [g], and [is_alive()] is still false. *)
Theorem destroyed_entity_still_composes
    (w : World) (E : addr) (e : Entity) (T : type_name) (g : Group) :
  heap w !! E = Some e ->
  length (groups w) = N.to_nat max_groups ->
  g < max_groups ->
  type_id_of w T < max_components ->
  N.testbit (m_component_bitset e) (type_id_of w T) = false ->
  exists w0 c w1 w2 l,
    Entity_destroy E w = Ok tt w0
    /\ Entity_add_component T E w0 = Ok c w1
    /\ Entity_has_component T E w1 = Ok true w1
    /\ Entity_add_group E g w1 = Ok tt w2
    /\ Entity_has_group E g w2 = Ok true w2
    /\ EntityManager_get_entities_by_group g w2 = Ok l w2
    /\ E ∈ l
    /\ Entity_is_alive E w2 = Ok false w2.
Proof.
  intros He Hlen Hg Hid Hbit.
  destruct (lookup_lt_is_Some_2 (groups w) (N.to_nat g)) as [l0 Hl0]; [lia|].
  set (e0 := set_alive false e).
  set (w0 := set_heap (<[E := e0]> (heap w)) w).
  assert (He0 : heap w0 !! E = Some e0) by apply lookup_insert_eq.
  assert (Hid0 : type_id_of w0 T = type_id_of w T) by done.
  set (e1 := add_component_entity T (type_id_of w0 T) E (next_addr w0) e0).
  set (w1 := add_component_world T E e0 w0).
  assert (He1 : heap w1 !! E = Some e1) by apply lookup_insert_eq.
  assert (HT1 : type_id (registry w1) !! T = Some (type_id_of w T))
    by apply (type_id_register T w0).
  assert (Hl1 : groups w1 !! N.to_nat g = Some l0) by done.
  set (e2 := set_group_bitset (N.setbit (m_group_bitset e1) g) e1).
  set (w2 := set_groups (<[N.to_nat g := l0 ++ [E]]> (groups w1))
               (set_heap (<[E := e2]> (heap w1)) w1)).
  assert (He2 : heap w2 !! E = Some e2) by apply lookup_insert_eq.
  exists w0, (next_addr w0), w1, w2, (l0 ++ [E]).
  split; [by apply destroy_Ok|].
  split; [apply add_component_Ok; [done|by rewrite Hid0|by rewrite Hid0]|].
  split.
  { rewrite (has_component_known _ _ _ _ _ He1 HT1 Hid). unfold e1. cbn.
    by rewrite Hid0, N.setbit_eq. }
  split; [by apply add_group_Ok|].
  split.
  { rewrite (has_group_Some _ _ _ _ He2 Hg). unfold e2. cbn.
    by rewrite N.setbit_eq. }
  split.
  { apply get_entities_by_group_Ok; [done|]. unfold w2, groups at 1. cbn.
    apply list_lookup_insert_eq. by apply lookup_lt_Some in Hl1. }
  split; [set_solver|]. by rewrite (is_alive_Some _ _ _ He2).
Qed.

Lemma destroyed_entity_still_composes_witness :
  heap sample_world !! 1%positive = Some sample_entity
  /\ length (groups sample_world) = N.to_nat max_groups
  /\ 10 < max_groups
  /\ type_id_of sample_world "Physics" < max_components
  /\ N.testbit (m_component_bitset sample_entity)
               (type_id_of sample_world "Physics") = false
  /\ exists w0 c w1 w2 l,
      Entity_destroy 1%positive sample_world = Ok tt w0
      /\ Entity_add_component "Physics" 1%positive w0 = Ok c w1
      /\ Entity_has_component "Physics" 1%positive w1 = Ok true w1
      /\ Entity_add_group 1%positive 10 w1 = Ok tt w2
      /\ Entity_has_group 1%positive 10 w2 = Ok true w2
      /\ EntityManager_get_entities_by_group 10 w2 = Ok l w2
      /\ 1%positive ∈ l
      /\ Entity_is_alive 1%positive w2 = Ok false w2.
Proof.
  assert (He : heap sample_world !! 1%positive = Some sample_entity)
    by (vm_compute; reflexivity).
  assert (Hl : length (groups sample_world) = N.to_nat max_groups) by reflexivity.
  assert (Hg : 10 < max_groups) by reflexivity.
  assert (Hid : type_id_of sample_world "Physics" < max_components) by reflexivity.
  assert (Hb : N.testbit (m_component_bitset sample_entity)
                         (type_id_of sample_world "Physics") = false) by reflexivity.
  split; [exact He|]. split; [exact Hl|]. split; [exact Hg|].
  split; [exact Hid|]. split; [exact Hb|].
  exact (destroyed_entity_still_composes
           sample_world 1%positive sample_entity "Physics" 10 He Hl Hg Hid Hb).
Defined.

(** ** Type ids stay apart *)

Lemma registry_wf_register T w :
  registry_wf (registry w) ->
  (type_id (registry w) !! T = None -> last_id (registry w) + 1 < size_t_modulus) ->
  registry_wf (registry (register T w)).
Proof.
  intros [Hlast Hinj] Hnowrap. unfold register.
  destruct (type_id (registry w) !! T) eqn:HT; [done|]. cbn.
  rewrite N.mod_small by (specialize (Hnowrap eq_refl); lia).
  unfold registry_wf. cbn [type_id last_id]. split.
  - intros T' id. destruct (decide (T = T')) as [<-|Hne].
    + rewrite lookup_insert_eq. intros [= <-]. lia.
    + rewrite lookup_insert_ne by done. intros H%Hlast. lia.
  - intros T1 T2 id.
    destruct (decide (T = T1)) as [<-|Hne1], (decide (T = T2)) as [<-|Hne2];
      rewrite ?lookup_insert_eq, ?lookup_insert_ne by done; [done| | |apply Hinj].
    + intros [= <-] H%Hlast. lia.
    + intros H%Hlast [= <-]. lia.
Qed.

(** X10. Two different component types never get the same id, as long as
    the counter does not wrap: in a registry where every id handed out so
    far is below the counter and no id is shared, the ids that
    [get_component_type_id] returns for two different types differ, and
    each type keeps its id on every later call. *)
Theorem distinct_types_distinct_ids
    (w : World) (T U : type_name) (i j : ComponentID) (w1 w2 : World) :
  registry_wf (registry w) ->
  last_id (registry w) + 2 < size_t_modulus ->
  T <> U ->
  get_component_type_id T w = Ok i w1 ->
  get_component_type_id U w1 = Ok j w2 ->
  i <> j
  /\ get_component_type_id T w2 = Ok i w2
  /\ get_component_type_id U w2 = Ok j w2
  /\ registry_wf (registry w2).
Proof.
  intros Hwf Hnowrap Hne HT HU.
  rewrite get_component_type_id_Ok in HT. injection HT as <- <-.
  rewrite get_component_type_id_Ok in HU. injection HU as <- <-.
  set (w1 := register T w) in *.
  assert (Hwf1 : registry_wf (registry w1)).
  { apply registry_wf_register; [done|]. intros _. lia. }
  assert (HT1 : type_id (registry w1) !! T = Some (type_id_of w T))
    by apply type_id_register.
  assert (Hlast1 : last_id (registry w1) <= last_id (registry w) + 1).
  { unfold w1, register. destruct (type_id (registry w) !! T); cbn; [lia|].
    rewrite N.mod_small; lia. }
  assert (Hwf2 : registry_wf (registry (register U w1))).
  { apply registry_wf_register; [done|]. intros _. lia. }
  assert (HU2 : type_id (registry (register U w1)) !! U = Some (type_id_of w1 U))
    by apply type_id_register.
  assert (HT2 : type_id (registry (register U w1)) !! T = Some (type_id_of w T)).
  { unfold register. destruct (type_id (registry w1) !! U) eqn:Hu; [done|].
    cbn. by rewrite lookup_insert_ne. }
  split; [|split; [|split]].
  - intros Heq. apply Hne. destruct Hwf2 as [_ Hinj].
    apply (Hinj T U (type_id_of w T)); [done|by rewrite Heq].
  - by apply get_component_type_id_known.
  - by apply get_component_type_id_known.
  - done.
Qed.

Lemma distinct_types_distinct_ids_witness :
  registry_wf (registry sample_world)
  /\ last_id (registry sample_world) + 2 < size_t_modulus
  /\ "Sprite" <> "Physics"
  /\ get_component_type_id "Sprite" sample_world = Ok 1 sample_world
  /\ get_component_type_id "Physics" sample_world
     = Ok 2 (register "Physics" sample_world)
  /\ 1 <> 2
  /\ get_component_type_id "Sprite" (register "Physics" sample_world)
     = Ok 1 (register "Physics" sample_world)
  /\ get_component_type_id "Physics" (register "Physics" sample_world)
     = Ok 2 (register "Physics" sample_world)
  /\ registry_wf (registry (register "Physics" sample_world)).
Proof.
  assert (H1 : registry_wf (registry sample_world)).
  { apply registry_wf_check; apply (bool_decide_unpack _); vm_compute; exact I. }
  assert (H2 : last_id (registry sample_world) + 2 < size_t_modulus) by reflexivity.
  assert (H3 : "Sprite" <> "Physics") by discriminate.
  assert (H4 : get_component_type_id "Sprite" sample_world = Ok 1 sample_world)
    by (vm_compute; reflexivity).
  assert (H5 : get_component_type_id "Physics" sample_world
               = Ok 2 (register "Physics" sample_world))
    by (vm_compute; reflexivity).
  split; [exact H1|]. split; [exact H2|]. split; [exact H3|].
  split; [exact H4|]. split; [exact H5|].
  exact (distinct_types_distinct_ids sample_world "Sprite" "Physics" 1 2
           sample_world (register "Physics" sample_world) H1 H2 H3 H4 H5).
Defined.

(** ** Several component types on one entity *)

(** X11. Two [add_component] calls on one entity that both return were for
    two different types and created two different components;
    [get_component] then returns each type's own component, the entity's
    component vector is the earlier one with the two new components
    appended in the order of the calls, each with its back pointer
    [entity] set to the entity, and [Entity::update(dt)] reaches them last,
    in that order. *)
Theorem two_component_types_coexist
    (w : World) (E : addr) (e : Entity) (T U : type_name)
    (c1 c2 : addr) (w1 w2 : World) :
  registry_wf (registry w) ->
  (E < next_addr w)%positive ->
  heap w !! E = Some e ->
  entity_wf (registry w) e ->
  Entity_add_component T E w = Ok c1 w1 ->
  Entity_add_component U E w1 = Ok c2 w2 ->
  T <> U
  /\ c1 <> c2
  /\ Entity_get_component T E w2 = Ok c1 w2
  /\ Entity_get_component U E w2 = Ok c2 w2
  /\ components_at w2 E
     = m_components e ++ [mkComponent c1 T (Some E); mkComponent c2 U (Some E)]
  /\ forall (float : Type) (dt : float),
       Entity_update E dt w2
       = Ok (EntityUpdate E dt
               :: ((fun c => ComponentUpdate (c_addr c) dt) <$> m_components e)
               ++ [ComponentUpdate c1 dt; ComponentUpdate c2 dt]) w2.
Proof.
  intros Hreg Hlt He [Hlen Hcs] Hadd1 Hadd2.
  pose proof Hadd2 as Hadd2'.
  apply add_component_inv in Hadd1 as (e' & He' & Hid1 & Hbit1 & -> & ->).
  assert (e' = e) as -> by congruence. clear He'.
  set (id1 := type_id_of w T) in *. set (c1 := next_addr w) in *.
  set (e1 := add_component_entity T id1 E c1 e).
  set (w1 := add_component_world T E e w) in *.
  assert (He1 : heap w1 !! E = Some e1) by apply lookup_insert_eq.
  pose proof (attached_after_add_component T E e w Hreg Hlt Hlen Hid1) as Hatt1.
  fold id1 c1 w1 in Hatt1.
  apply add_component_inv in Hadd2 as (e1' & He1' & Hid2 & Hbit2 & -> & ->).
  assert (e1' = e1) as -> by congruence. clear He1'.
  set (id2 := type_id_of w1 U) in *.
  set (w2 := add_component_world U E e1 w1) in *.
  assert (Hne : T <> U).
  { intros <-. unfold id2 in Hbit2.
    assert (Hsame : type_id_of w1 T = id1).
    { unfold type_id_of at 1. unfold w1. cbn [registry add_component_world].
      by rewrite type_id_register. }
    rewrite Hsame in Hbit2. unfold e1 in Hbit2. cbn in Hbit2.
    by rewrite N.setbit_eq in Hbit2. }
  assert (Hreg1 : registry_wf (registry w1)).
  { apply (registry_wf_register T w); [done|]. intros HT.
    unfold id1, type_id_of in Hid1. rewrite HT in Hid1.
    unfold max_components, size_t_modulus in *. lia. }
  assert (Hatt2 : attached U id2 E (next_addr w1) w2).
  { apply attached_after_add_component; [done|cbn; lia| |done].
    unfold e1. cbn. by rewrite length_insert. }
  assert (Hv2 : valid w2 E).
  { unfold valid, w2. cbn. rewrite lookup_insert_eq. eauto. }
  assert (Hatt1' : attached T id1 E c1 w2) by by eapply attached_add_component.
  assert (Hcomps : components_at w2 E
                   = m_components e ++ [mkComponent c1 T (Some E);
                                        mkComponent (next_addr w1) U (Some E)]).
  { unfold components_at, w2. cbn. rewrite lookup_insert_eq. cbn.
    by rewrite <- (assoc_L (++)). }
  split; [done|]. split; [cbn; lia|].
  split; [by apply (attached_queries T id1 E c1 w2)|].
  split; [by apply (attached_queries U id2 E (next_addr w1) w2)|].
  split; [done|].
  intros float dt. rewrite (Entity_update_Ok dt w2 E Hv2).
  unfold entity_update_calls. by rewrite Hcomps, fmap_app.
Qed.

Lemma two_component_types_coexist_witness :
  registry_wf (registry sample_world)
  /\ (1 < next_addr sample_world)%positive
  /\ heap sample_world !! 1%positive = Some sample_entity
  /\ entity_wf (registry sample_world) sample_entity
  /\ Entity_add_component "Physics" 1%positive sample_world
     = Ok 8%positive (add_component_world "Physics" 1%positive sample_entity sample_world)
  /\ (exists w2,
      Entity_add_component "Audio" 1%positive
        (add_component_world "Physics" 1%positive sample_entity sample_world)
      = Ok 9%positive w2
      /\ "Physics" <> "Audio"
      /\ 8%positive <> 9%positive
      /\ Entity_get_component "Physics" 1%positive w2 = Ok 8%positive w2
      /\ Entity_get_component "Audio" 1%positive w2 = Ok 9%positive w2
      /\ components_at w2 1%positive
         = m_components sample_entity
           ++ [mkComponent 8%positive "Physics" (Some 1%positive);
               mkComponent 9%positive "Audio" (Some 1%positive)]
      /\ forall (float : Type) (dt : float),
           Entity_update 1%positive dt w2
           = Ok (EntityUpdate 1%positive dt
                   :: ((fun c => ComponentUpdate (c_addr c) dt)
                         <$> m_components sample_entity)
                   ++ [ComponentUpdate 8%positive dt; ComponentUpdate 9%positive dt]) w2).
Proof.
  assert (H1 : registry_wf (registry sample_world)).
  { apply registry_wf_check; apply (bool_decide_unpack _); vm_compute; exact I. }
  assert (H2 : (1 < next_addr sample_world)%positive) by reflexivity.
  assert (H3 : heap sample_world !! 1%positive = Some sample_entity)
    by (vm_compute; reflexivity).
  assert (H4 : entity_wf (registry sample_world) sample_entity).
  { apply (bool_decide_unpack _). vm_compute. exact I. }
  assert (H5 : Entity_add_component "Physics" 1%positive sample_world
               = Ok 8%positive
                    (add_component_world "Physics" 1%positive sample_entity sample_world))
    by (vm_compute; reflexivity).
  split; [exact H1|]. split; [exact H2|]. split; [exact H3|].
  split; [exact H4|]. split; [exact H5|].
  eexists. split; [vm_compute; reflexivity|].
  refine (two_component_types_coexist sample_world 1%positive sample_entity
            "Physics" "Audio" 8%positive 9%positive _ _ H1 H2 H3 H4 H5 _).
  vm_compute. reflexivity.
Defined.

(** ** Reachable worlds *)

Lemma reachable_calls {float} (cs : list (api_call float)) : forall w w',
  reachable (float := float) w -> calls_ok cs w ->
  perform_all cs w = Ok tt w' -> reachable (float := float) w'.
Proof.
  induction cs as [|c cs IH]; intros w w' Hw Hok; cbn [perform_all].
  - by intros [-> _]%ret_inv.
  - intros ([] & w1 & H1 & H2)%bind_Ok_inv. destruct Hok as [Hc Hrest].
    rewrite H1 in Hrest. eapply IH; [|exact Hrest|exact H2].
    by eapply reachable_perform.
Qed.

(** X12. Every world that calls of the public interface reach from the
    start of the process (no type registered, no entity, counter 0), with
    [add_to_group] only ever handed pointers to live entities, is well
    formed: the manager has its 32 group vectors, owns pairwise distinct
    live entities and holds no dangling group entry; every live object lies
    below the allocation counter; every id handed out is below the id
    counter and no two types share an id; and every entity has a
    32-slot component array and the bit set for the type of each component
    it owns. *)
Theorem reachable_well_formed {float : Type} (w : World) :
  reachable (float := float) w ->
  world_wf w
  /\ heap_below w
  /\ registry_wf (registry w)
  /\ forall p e, heap w !! p = Some e -> entity_wf (registry w) e.
Proof.
  intros [Hwf Hbelow Hreg Hents]%reachable_world_inv. done.
Qed.

Lemma reachable_well_formed_witness :
  reachable (float := Z) reached_world
  /\ world_wf reached_world
  /\ heap_below reached_world
  /\ registry_wf (registry reached_world)
  /\ forall p e, heap reached_world !! p = Some e ->
                 entity_wf (registry reached_world) e.
Proof.
  assert (H : reachable (float := Z) reached_world).
  { apply (reachable_calls sample_calls World_new); [apply reachable_new| |].
    - vm_compute. repeat split; eauto.
    - vm_compute. reflexivity. }
  split; [exact H|]. exact (reachable_well_formed reached_world H).
Defined.

(** * Properties of the maths helpers *)

Section MathsProperties.

Local Open Scope Z_scope.

Lemma checked_Some v : int32 v -> Int32.checked v = Some v.
Proof.
  intros [Hlo Hhi]. unfold Int32.checked, Int32.in_range.
  apply Z.leb_le in Hlo, Hhi. by rewrite Hlo, Hhi.
Qed.

Lemma checked_None v : ~ int32 v -> Int32.checked v = None.
Proof.
  intros Hv. unfold Int32.checked, Int32.in_range.
  destruct (Int32.int_min <=? v) eqn:Hlo; [|done].
  destruct (v <=? Int32.int_max) eqn:Hhi; [|done].
  exfalso. apply Hv. split; by apply Z.leb_le.
Qed.

Lemma checked_inv v r : Int32.checked v = Some r -> r = v /\ int32 v.
Proof.
  unfold Int32.checked, Int32.in_range.
  destruct (Int32.int_min <=? v) eqn:Hlo; [|done].
  destruct (v <=? Int32.int_max) eqn:Hhi; [|done].
  intros [= <-]. split; [done|]. split; by apply Z.leb_le.
Qed.



(** ** [Util::clamp] *)

Lemma std_max_max a b : Util.std_max a b = Z.max a b.
Proof. unfold Util.std_max. destruct (Z.ltb_spec a b); lia. Qed.

Lemma std_min_min a b : Util.std_min a b = Z.min a b.
Proof. unfold Util.std_min. destruct (Z.ltb_spec b a); lia. Qed.

(** X13. [Util::clamp(n, lower, upper)] with [lower <= upper] returns a
    value in [[lower, upper]]: [n] itself when [n] is in the interval, the
    nearer bound otherwise, and clamping twice is clamping once.  With the
    bounds the wrong way round ([upper < lower]) it returns [lower]
    whatever [n] is. *)
Theorem clamp_spec (n lower upper : Z) :
  (lower <= upper ->
     lower <= Util.clamp n lower upper <= upper
     /\ (lower <= n <= upper -> Util.clamp n lower upper = n)
     /\ (n <= lower -> Util.clamp n lower upper = lower)
     /\ (upper <= n -> Util.clamp n lower upper = upper)
     /\ Util.clamp (Util.clamp n lower upper) lower upper
        = Util.clamp n lower upper)
  /\ (upper < lower -> Util.clamp n lower upper = lower).
Proof.
  unfold Util.clamp. rewrite !std_max_max, !std_min_min. lia.
Qed.

(** ** [operator==] on integer vectors *)

(** X14. The [int32_t] specialisations of [operator==]: on [Vector2Int] it
    holds exactly for equal vectors; on [Vector3Int] it compares [x] and
    [y] only and on [Vector4Int] [x], [y] and [w] only, [z] is never read,
    so vectors that differ in [z] alone compare equal and [operator!=] is
    false for them. *)
Theorem int_vector_equality :
  (forall a b : Vector2Int.t, Vector2Int.eq a b = true <-> a = b)
  /\ (forall a b : Vector3Int.t,
        Vector3Int.eq a b = true
        <-> Vector3Int.x a = Vector3Int.x b /\ Vector3Int.y a = Vector3Int.y b)
  /\ (forall a b : Vector4Int.t,
        Vector4Int.eq a b = true
        <-> Vector4Int.x a = Vector4Int.x b /\ Vector4Int.y a = Vector4Int.y b
            /\ Vector4Int.w a = Vector4Int.w b)
  /\ (forall x y z z' : Z,
        Vector3Int.eq (Vector3Int.mk x y z) (Vector3Int.mk x y z') = true
        /\ Vector3Int.neq (Vector3Int.mk x y z) (Vector3Int.mk x y z') = false)
  /\ (forall x y z z' w : Z,
        Vector4Int.eq (Vector4Int.mk x y z w) (Vector4Int.mk x y z' w) = true
        /\ Vector4Int.neq (Vector4Int.mk x y z w) (Vector4Int.mk x y z' w) = false).
Proof.
  split; [|split; [|split; [|split]]].
  - intros [ax ay] [bx by']. unfold Vector2Int.eq. cbn.
    rewrite andb_true_iff, !Z.eqb_eq. split; [intros [-> ->]; done|].
    by intros [= -> ->].
  - intros a b. unfold Vector3Int.eq.
    rewrite !andb_true_iff, !Z.eqb_eq. tauto.
  - intros a b. unfold Vector4Int.eq.
    rewrite !andb_true_iff, !Z.eqb_eq. tauto.
  - intros x y z z'. unfold Vector3Int.neq, Vector3Int.eq. cbn.
    by rewrite !Z.eqb_refl.
  - intros x y z z' w. unfold Vector4Int.neq, Vector4Int.eq. cbn.
    by rewrite !Z.eqb_refl.
Qed.

(** ** [operator[]] *)

(** X15. [operator[]] of [Vector3Int] clamps its index: for every [int]
    index it returns a member, the one at position [Util::clamp(i, 0, 2)]. *)
Theorem vector3_index_clamps (v : Vector3Int.t) (i : Z) :
  Vector3Int.index v i = Vector3Int.members v !! Z.to_nat (Util.clamp i 0 2)
  /\ is_Some (Vector3Int.index v i).
Proof.
  unfold Vector3Int.index, Util.clamp, Util.std_max, Util.std_min.
  destruct (Z.leb_spec i 0); [|destruct (Z.leb_spec 2 i)].
  - destruct (Z.ltb_spec 2 i); [lia|]. destruct (Z.ltb_spec 0 i); [lia|].
    cbn. eauto.
  - destruct (Z.ltb_spec 2 i).
    + cbn. eauto.
    + assert (i = 2) as -> by lia. cbn. eauto.
  - assert (i = 1) as -> by lia. cbn. eauto.
Qed.

(** X16. [operator[]] of [Vector2Int] and of [Vector4Int] calls
    [Util::clamp] and drops its result: the index is used as given.  An
    index in range selects the member at that position; any other index,
    which the clamp would have brought into range, reads outside the
    object. *)
Theorem vector2_vector4_index_unclamped :
  (forall (v : Vector4Int.t) (i : Z),
      (0 <= i <= 3 -> Vector4Int.index v i = Vector4Int.members v !! Z.to_nat i
                      /\ is_Some (Vector4Int.index v i))
      /\ (Vector4Int.index v i = None <-> i < 0 \/ 3 < i)
      /\ is_Some (Vector4Int.members v !! Z.to_nat (Util.clamp i 0 3)))
  /\ (forall (v : Vector2Int.t) (i : Z),
        (0 <= i <= 1 -> Vector2Int.index v i = Vector2Int.members v !! Z.to_nat i
                        /\ is_Some (Vector2Int.index v i))
        /\ (Vector2Int.index v i = None <-> i < 0 \/ 1 < i)
        /\ is_Some (Vector2Int.members v !! Z.to_nat (Util.clamp i 0 1))).
Proof.
  split; intros v i.
  - unfold Vector4Int.index. split; [|split].
    + intros Hi. destruct (Z.ltb_spec i 0); [lia|]. split; [done|].
      apply lookup_lt_is_Some. cbn. lia.
    + destruct (Z.ltb_spec i 0); [split; [lia|done]|].
      rewrite lookup_ge_None. cbn. lia.
    + apply lookup_lt_is_Some. cbn.
      pose proof (proj1 (clamp_spec i 0 3) ltac:(lia)) as [? _]. lia.
  - unfold Vector2Int.index. split; [|split].
    + intros Hi. destruct (Z.ltb_spec i 0); [lia|]. split; [done|].
      apply lookup_lt_is_Some. cbn. lia.
    + destruct (Z.ltb_spec i 0); [split; [lia|done]|].
      rewrite lookup_ge_None. cbn. lia.
    + apply lookup_lt_is_Some. cbn.
      pose proof (proj1 (clamp_spec i 0 1) ltac:(lia)) as [? _]. lia.
Qed.

(** ** Arithmetic on integer vectors *)

Lemma vector4_int32_inv x y z w :
  vector4_int32 (Vector4Int.mk x y z w) -> int32 x /\ int32 y /\ int32 z /\ int32 w.
Proof.
  unfold vector4_int32. cbn. intros H.
  apply Forall_cons in H as [? H]. apply Forall_cons in H as [? H].
  apply Forall_cons in H as [? H]. apply Forall_cons in H as [? _]. done.
Qed.

Lemma vector4_int32_intro x y z w :
  int32 x -> int32 y -> int32 z -> int32 w -> vector4_int32 (Vector4Int.mk x y z w).
Proof. intros. unfold vector4_int32. cbn. by repeat apply Forall_cons_2. Qed.

Lemma vector3_small_inv x y z :
  vector3_small (Vector3Int.mk x y z) -> small x /\ small y /\ small z.
Proof.
  unfold vector3_small. cbn. intros H.
  apply Forall_cons in H as [? H]. apply Forall_cons in H as [? H].
  apply Forall_cons in H as [? _]. done.
Qed.

Lemma neg_Some_iff a r :
  int32 a -> Int32.neg a = Some r <-> a <> Int32.int_min /\ r = - a.
Proof.
  intros Ha. unfold Int32.neg. split.
  - intros [-> Hr]%checked_inv. unfold int32, Int32.int_min, Int32.int_max in *. lia.
  - intros [Hne ->]. apply checked_Some.
    unfold int32, Int32.int_min, Int32.int_max in *. lia.
Qed.

(** X17. [operator-] on [Vector4Int] is [lhs + (-rhs)], so it negates
    first: for vectors of [int32_t] values the difference is defined
    exactly if no member of [rhs] is [INT_MIN] and every componentwise
    difference fits in [int32_t], and it is then the componentwise
    difference.  A member [INT_MIN] on the right makes it undefined even
    when the difference itself fits, as for [-1 - INT_MIN]. *)
Theorem vector4_sub_defined (a b c : Vector4Int.t) :
  vector4_int32 a ->
  vector4_int32 b ->
  (Vector4Int.sub a b = Some c
   <-> Forall (fun m => m <> Int32.int_min) (Vector4Int.members b)
       /\ vector4_int32 (vector4_difference a b)
       /\ c = vector4_difference a b)
  /\ (Vector4Int.x b = Int32.int_min -> Vector4Int.sub a b = None).
Proof.
  destruct a as [ax ay az aw], b as [bx by' bz bw], c as [cx cy cz cw].
  intros (Hax & Hay & Haz & Haw)%vector4_int32_inv
         (Hbx & Hby & Hbz & Hbw)%vector4_int32_inv.
  unfold Vector4Int.sub, Vector4Int.neg, Vector4Int.add, vector4_difference. cbn.
  split.
  - split.
    + intros H.
      destruct (Int32.neg bx) as [nx|] eqn:Hnx; [|done].
      destruct (Int32.neg by') as [ny|] eqn:Hny; [|done].
      destruct (Int32.neg bz) as [nz|] eqn:Hnz; [|done].
      destruct (Int32.neg bw) as [nw|] eqn:Hnw; [|done].
      apply neg_Some_iff in Hnx as [? ->]; [|done].
      apply neg_Some_iff in Hny as [? ->]; [|done].
      apply neg_Some_iff in Hnz as [? ->]; [|done].
      apply neg_Some_iff in Hnw as [? ->]; [|done].
      cbn in H. unfold Int32.add in H.
      destruct (Int32.checked (ax + - bx)) as [rx|] eqn:Hrx; [|done].
      destruct (Int32.checked (ay + - by')) as [ry|] eqn:Hry; [|done].
      destruct (Int32.checked (az + - bz)) as [rz|] eqn:Hrz; [|done].
      destruct (Int32.checked (aw + - bw)) as [rw|] eqn:Hrw; [|done].
      apply checked_inv in Hrx as [-> ?], Hry as [-> ?], Hrz as [-> ?], Hrw as [-> ?].
      cbn in H. injection H as <- <- <- <-.
      split; [by repeat apply Forall_cons_2|].
      split; [|f_equal; lia].
      apply vector4_int32_intro; by rewrite <- Z.add_opp_r.
    + intros (Hmin & Hfit & Hc).
      apply Forall_cons in Hmin as [? Hmin]. apply Forall_cons in Hmin as [? Hmin].
      apply Forall_cons in Hmin as [? Hmin]. apply Forall_cons in Hmin as [? _].
      apply vector4_int32_inv in Hfit as (Hdx & Hdy & Hdz & Hdw).
      injection Hc as -> -> -> ->.
      rewrite (proj2 (neg_Some_iff bx (- bx) Hbx)) by done.
      rewrite (proj2 (neg_Some_iff by' (- by') Hby)) by done.
      rewrite (proj2 (neg_Some_iff bz (- bz) Hbz)) by done.
      rewrite (proj2 (neg_Some_iff bw (- bw) Hbw)) by done.
      cbn. unfold Int32.add. rewrite !Z.add_opp_r.
      by rewrite (checked_Some _ Hdx), (checked_Some _ Hdy),
           (checked_Some _ Hdz), (checked_Some _ Hdw).
  - cbn. intros ->. unfold Int32.neg.
    rewrite (checked_None (- Int32.int_min)); [done|].
    unfold int32, Int32.int_min, Int32.int_max. lia.
Qed.

Lemma vector4_sub_defined_witness :
  vector4_int32 (Vector4Int.splat (-1))
  /\ vector4_int32 (Vector4Int.mk Int32.int_min 0 0 0)
  /\ int32 (-1 - Int32.int_min)
  /\ (Vector4Int.sub (Vector4Int.splat (-1)) (Vector4Int.mk Int32.int_min 0 0 0)
      = Some (Vector4Int.splat 0)
      <-> Forall (fun m => m <> Int32.int_min)
                 (Vector4Int.members (Vector4Int.mk Int32.int_min 0 0 0))
          /\ vector4_int32 (vector4_difference (Vector4Int.splat (-1))
                                               (Vector4Int.mk Int32.int_min 0 0 0))
          /\ Vector4Int.splat 0
             = vector4_difference (Vector4Int.splat (-1))
                                  (Vector4Int.mk Int32.int_min 0 0 0))
  /\ (Vector4Int.x (Vector4Int.mk Int32.int_min 0 0 0) = Int32.int_min ->
      Vector4Int.sub (Vector4Int.splat (-1)) (Vector4Int.mk Int32.int_min 0 0 0)
      = None).
Proof.
  assert (Ha : vector4_int32 (Vector4Int.splat (-1))).
  { unfold vector4_int32. cbn. repeat constructor; vm_compute; discriminate. }
  assert (Hb : vector4_int32 (Vector4Int.mk Int32.int_min 0 0 0)).
  { unfold vector4_int32. cbn. repeat constructor; vm_compute; discriminate. }
  split; [exact Ha|]. split; [exact Hb|].
  split; [split; vm_compute; discriminate|].
  exact (vector4_sub_defined (Vector4Int.splat (-1))
           (Vector4Int.mk Int32.int_min 0 0 0) (Vector4Int.splat 0) Ha Hb).
Defined.

(** X18. Scaling a [Vector4Int] and dividing by the same scalar is a round
    trip: for a vector of [int32_t] values and a scalar other than 0, if
    [v * s] is defined then [(v * s) / s] is defined and is [v]. *)
Theorem vector4_mul_div_round_trip (v m : Vector4Int.t) (s : Z) :
  vector4_int32 v ->
  s <> 0 ->
  Vector4Int.mul v s = Some m ->
  Vector4Int.div m s = Some v.
Proof.
  destruct v as [vx vy vz vw].
  intros (Hx & Hy & Hz & Hw)%vector4_int32_inv Hs.
  unfold Vector4Int.mul, Vector4Int.div, Int32.mul, Int32.div. cbn.
  destruct (Int32.checked (vx * s)) as [rx|] eqn:Hrx; [|done].
  destruct (Int32.checked (vy * s)) as [ry|] eqn:Hry; [|done].
  destruct (Int32.checked (vz * s)) as [rz|] eqn:Hrz; [|done].
  destruct (Int32.checked (vw * s)) as [rw|] eqn:Hrw; [|done].
  apply checked_inv in Hrx as [-> _], Hry as [-> _], Hrz as [-> _], Hrw as [-> _].
  cbn. intros [= <-]. cbn.
  apply Z.eqb_neq in Hs as Hs'. rewrite Hs'.
  rewrite !Z.quot_mul by done. by rewrite !checked_Some.
Qed.

Lemma vector4_mul_div_round_trip_witness :
  vector4_int32 (Vector4Int.mk 3 (-5) 0 Int32.int_max)
  /\ -1 <> 0
  /\ Vector4Int.mul (Vector4Int.mk 3 (-5) 0 Int32.int_max) (-1)
     = Some (Vector4Int.mk (-3) 5 0 (- Int32.int_max))
  /\ Vector4Int.div (Vector4Int.mk (-3) 5 0 (- Int32.int_max)) (-1)
     = Some (Vector4Int.mk 3 (-5) 0 Int32.int_max).
Proof.
  assert (Hv : vector4_int32 (Vector4Int.mk 3 (-5) 0 Int32.int_max)).
  { unfold vector4_int32. cbn. repeat constructor; vm_compute; discriminate. }
  assert (Hs : -1 <> 0) by discriminate.
  assert (Hm : Vector4Int.mul (Vector4Int.mk 3 (-5) 0 Int32.int_max) (-1)
               = Some (Vector4Int.mk (-3) 5 0 (- Int32.int_max))) by reflexivity.
  split; [exact Hv|]. split; [exact Hs|]. split; [exact Hm|].
  exact (vector4_mul_div_round_trip _ _ (-1) Hv Hs Hm).
Defined.



(** X20. [tVector3::cross] on vectors with small members is defined, is
    the usual cross product, changes sign when its arguments are
    exchanged, and is the zero vector for a vector with itself. *)
Theorem vector3_cross_antisymmetric (a b : Vector3Int.t) :
  vector3_small a ->
  vector3_small b ->
  exists c c',
    Vector3Int.cross a b = Some c
    /\ c = Vector3Int.mk
             (Vector3Int.y a * Vector3Int.z b - Vector3Int.z a * Vector3Int.y b)
             (Vector3Int.z a * Vector3Int.x b - Vector3Int.x a * Vector3Int.z b)
             (Vector3Int.x a * Vector3Int.y b - Vector3Int.y a * Vector3Int.x b)
    /\ Vector3Int.cross b a = Some c'
    /\ Vector3Int.neg c' = Some c
    /\ Vector3Int.cross a a = Some Vector3Int.zero.
Proof.
  destruct a as [ax ay az], b as [bx by' bz].
  intros (Hax & Hay & Haz)%vector3_small_inv (Hbx & Hby & Hbz)%vector3_small_inv.
  assert (Hcross : forall x1 y1 z1 x2 y2 z2,
             small x1 -> small y1 -> small z1 ->
             small x2 -> small y2 -> small z2 ->
             Vector3Int.cross (Vector3Int.mk x1 y1 z1) (Vector3Int.mk x2 y2 z2)
             = Some (Vector3Int.mk (y1 * z2 - z1 * y2) (z1 * x2 - x1 * z2)
                                   (x1 * y2 - y1 * x2))).
  { intros x1 y1 z1 x2 y2 z2 H1 H2 H3 H4 H5 H6.
    unfold Vector3Int.cross, Int32.mul, Int32.sub. cbn.
    repeat (rewrite checked_Some;
            [cbn|unfold small, int32, Int32.int_min, Int32.int_max in *; nia]).
    done. }
  eexists _, _. cbn [Vector3Int.x Vector3Int.y Vector3Int.z].
  split; [by apply Hcross|]. split; [done|].
  split; [by apply Hcross|]. split.
  - unfold Vector3Int.neg, Int32.neg. cbn.
    repeat (rewrite checked_Some;
            [cbn|unfold small, int32, Int32.int_min, Int32.int_max in *; nia]).
    f_equal. f_equal; lia.
  - rewrite Hcross by done. unfold Vector3Int.zero, Vector3Int.splat.
    f_equal. f_equal; lia.
Qed.

Lemma vector3_cross_antisymmetric_witness :
  vector3_small Vector3Int.right
  /\ vector3_small Vector3Int.up
  /\ Vector3Int.cross Vector3Int.right Vector3Int.up = Some Vector3Int.forward
  /\ exists c c',
      Vector3Int.cross Vector3Int.right Vector3Int.up = Some c
      /\ c = Vector3Int.mk
               (Vector3Int.y Vector3Int.right * Vector3Int.z Vector3Int.up
                - Vector3Int.z Vector3Int.right * Vector3Int.y Vector3Int.up)
               (Vector3Int.z Vector3Int.right * Vector3Int.x Vector3Int.up
                - Vector3Int.x Vector3Int.right * Vector3Int.z Vector3Int.up)
               (Vector3Int.x Vector3Int.right * Vector3Int.y Vector3Int.up
                - Vector3Int.y Vector3Int.right * Vector3Int.x Vector3Int.up)
      /\ Vector3Int.cross Vector3Int.up Vector3Int.right = Some c'
      /\ Vector3Int.neg c' = Some c
      /\ Vector3Int.cross Vector3Int.right Vector3Int.right = Some Vector3Int.zero.
Proof.
  assert (H1 : vector3_small Vector3Int.right).
  { unfold vector3_small. cbn. repeat constructor; vm_compute; discriminate. }
  assert (H2 : vector3_small Vector3Int.up).
  { unfold vector3_small. cbn. repeat constructor; vm_compute; discriminate. }
  split; [exact H1|]. split; [exact H2|]. split; [reflexivity|].
  exact (vector3_cross_antisymmetric Vector3Int.right Vector3Int.up H1 H2).
Defined.

(** X26. [Util::lerp] at [int32_t] computes [end - start] before it looks
    at [percent].  When that difference fits, [percent = 0] gives [start]
    and [percent = 1] gives [end]; when it does not fit, the call overflows
    for every [percent], [0] included. *)
Theorem lerp_endpoints (start end_ : Z) :
  int32 start -> int32 end_ ->
  (int32 (end_ - start) ->
     Util.lerp start end_ 0 = Some start /\ Util.lerp start end_ 1 = Some end_)
  /\ (~ int32 (end_ - start) -> forall percent, Util.lerp start end_ percent = None).
Proof.
  intros Hs He. unfold Util.lerp, Int32.sub, Int32.mul, Int32.add. split.
  - intros Hd. rewrite (checked_Some _ Hd). cbn.
    assert (H0 : int32 0) by (split; vm_compute; discriminate).
    rewrite Z.mul_0_l, Z.mul_1_l, (checked_Some 0 H0), (checked_Some _ Hd). cbn.
    rewrite Z.add_0_r, (checked_Some _ Hs).
    replace (start + (end_ - start)) with end_ by lia.
    by rewrite (checked_Some _ He).
  - intros Hd percent. by rewrite (checked_None _ Hd).
Qed.

Lemma lerp_endpoints_witness :
  int32 (-3) /\ int32 7
  /\ (int32 (7 - -3) -> Util.lerp (-3) 7 0 = Some (-3) /\ Util.lerp (-3) 7 1 = Some 7)
  /\ (~ int32 (7 - -3) -> forall percent, Util.lerp (-3) 7 percent = None).
Proof.
  assert (H1 : int32 (-3)) by (split; vm_compute; discriminate).
  assert (H2 : int32 7) by (split; vm_compute; discriminate).
  split; [exact H1|]. split; [exact H2|].
  exact (lerp_endpoints (-3) 7 H1 H2).
Defined.

End MathsProperties.

(** * Properties of [UniqueResource] *)

Section UniqueResourceProperties.

Context {handle_type : Type} `{EqDecision handle_type}.
Variable null_handle : handle_type.

Local Abbreviation ur_state := (UniqueResource.state (handle_type := handle_type)).

Lemma ur_state_eq (s s' : ur_state) :
  UniqueResource.objects s = UniqueResource.objects s' ->
  UniqueResource.deinit_calls s = UniqueResource.deinit_calls s' ->
  s = s'.
Proof. destruct s, s'. cbn. by intros -> ->. Qed.

(** X21. Moving a resource into a new object and then destroying both, as
    the unit test does with [auto r1(std::move(r))] at the end of a scope:
    the move calls no [deinit], leaves the handle in the new object and the
    null handle in the old one; destroying the new object calls [deinit] on
    the handle, destroying the moved-from object calls [deinit] on the null
    handle.  So the handle is handed to [deinit] exactly once, and [deinit]
    must accept the null handle. *)
Theorem move_then_destroy_both (s : ur_state) (r r1 : addr) (h : handle_type) :
  r <> r1 ->
  UniqueResource.objects s !! r = Some h ->
  exists s1 s2 s3,
    UniqueResource.move_ctor null_handle r1 r s = Some (tt, s1)
    /\ UniqueResource.objects s1 !! r1 = Some h
    /\ UniqueResource.objects s1 !! r = Some null_handle
    /\ UniqueResource.deinit_calls s1 = UniqueResource.deinit_calls s
    /\ UniqueResource.dtor null_handle r1 s1 = Some (tt, s2)
    /\ UniqueResource.dtor null_handle r s2 = Some (tt, s3)
    /\ UniqueResource.deinit_calls s3
       = UniqueResource.deinit_calls s ++ [h; null_handle]
    /\ UniqueResource.objects s3
       = delete r (delete r1 (UniqueResource.objects s)).
Proof.
  intros Hne Hr. eexists _, _, _.
  split.
  { unfold UniqueResource.move_ctor, UniqueResource.release. rewrite Hr.
    reflexivity. }
  cbn. split; [apply lookup_insert_eq|].
  split; [by rewrite lookup_insert_ne, lookup_insert_eq|].
  split; [done|].
  split.
  { unfold UniqueResource.dtor, UniqueResource.reset. cbn.
    rewrite lookup_insert_eq. reflexivity. }
  split.
  { unfold UniqueResource.dtor, UniqueResource.reset. cbn.
    rewrite lookup_delete_ne, lookup_insert_ne, lookup_insert_ne,
      lookup_insert_eq by done. reflexivity. }
  cbn. split; [by rewrite <- (assoc_L (++))|].
  apply map_eq. intros p.
  destruct (decide (p = r)) as [->|Hpr].
  { by rewrite !lookup_delete_eq. }
  rewrite !(lookup_delete_ne _ r p) by done.
  rewrite lookup_insert_ne by done.
  destruct (decide (p = r1)) as [->|Hpr1].
  { by rewrite !lookup_delete_eq. }
  rewrite !(lookup_delete_ne _ r1 p) by done.
  by rewrite !lookup_insert_ne by done.
Qed.

(** X22. Move assignment [a = std::move(b)] is [a.reset(b.release())].  For
    two different objects it calls [deinit] once, on the handle [a] held,
    leaves [b]'s handle in [a] and the null handle in [b].  For one and
    the same object it keeps the handle and calls [deinit] on the null
    handle. *)
Theorem move_assign_cases (s : ur_state) (a b : addr) (ha hb : handle_type) :
  UniqueResource.objects s !! a = Some ha ->
  UniqueResource.objects s !! b = Some hb ->
  exists s',
    UniqueResource.move_assign null_handle a b s = Some (tt, s')
    /\ (a <> b ->
        UniqueResource.objects s'
        = <[a := hb]> (<[b := null_handle]> (UniqueResource.objects s))
        /\ UniqueResource.deinit_calls s' = UniqueResource.deinit_calls s ++ [ha])
    /\ (a = b ->
        UniqueResource.objects s' = UniqueResource.objects s
        /\ UniqueResource.deinit_calls s'
           = UniqueResource.deinit_calls s ++ [null_handle]).
Proof.
  intros Ha Hb.
  unfold UniqueResource.move_assign, UniqueResource.release,
    UniqueResource.reset_handle.
  rewrite Hb. cbn.
  destruct (decide (a = b)) as [->|Hne].
  - rewrite lookup_insert_eq. cbn. eexists. split; [reflexivity|]. cbn.
    split; [done|]. intros _. split; [|done].
    rewrite insert_insert_eq. by apply insert_id.
  - rewrite lookup_insert_ne by done. rewrite Ha. cbn.
    eexists. split; [reflexivity|]. cbn. split; [done|]. done.
Qed.

(** X23. [reset(handle)] does not compare [handle] with the handle held:
    resetting an object to the handle it already holds calls [deinit] on
    that handle and keeps holding it, and the destructor then calls
    [deinit] on it a second time. *)
Theorem reset_to_own_handle_deinits_twice
    (s : ur_state) (r : addr) (h : handle_type) :
  UniqueResource.objects s !! r = Some h ->
  exists s2 s3,
    UniqueResource.get r s = Some (h, s)
    /\ UniqueResource.reset_handle r h s = Some (tt, s2)
    /\ UniqueResource.objects s2 !! r = Some h
    /\ UniqueResource.deinit_calls s2 = UniqueResource.deinit_calls s ++ [h]
    /\ UniqueResource.dtor null_handle r s2 = Some (tt, s3)
    /\ UniqueResource.deinit_calls s3 = UniqueResource.deinit_calls s ++ [h; h].
Proof.
  intros Hr.
  unfold UniqueResource.get, UniqueResource.reset_handle, UniqueResource.dtor,
    UniqueResource.reset.
  rewrite Hr. cbn. eexists _, _. split; [done|]. split; [reflexivity|]. cbn.
  split; [apply lookup_insert_eq|]. split; [done|].
  rewrite lookup_insert_eq. cbn. split; [reflexivity|]. cbn.
  by rewrite <- (assoc_L (++)).
Qed.

(** X24. [swap] exchanges the handles of two objects, calls no [deinit] and
    touches no other object; swapping again restores the state, and
    swapping an object with itself changes nothing. *)
Theorem swap_exchanges (s : ur_state) (a b : addr) (ha hb : handle_type) :
  UniqueResource.objects s !! a = Some ha ->
  UniqueResource.objects s !! b = Some hb ->
  exists s1,
    UniqueResource.swap a b s = Some (tt, s1)
    /\ UniqueResource.objects s1 !! a = Some hb
    /\ UniqueResource.objects s1 !! b = Some ha
    /\ (forall c, c <> a -> c <> b ->
          UniqueResource.objects s1 !! c = UniqueResource.objects s !! c)
    /\ UniqueResource.deinit_calls s1 = UniqueResource.deinit_calls s
    /\ UniqueResource.swap a b s1 = Some (tt, s)
    /\ (a = b -> s1 = s).
Proof.
  intros Ha Hb.
  assert (Hobj : forall (s0 : ur_state) (x y : handle_type),
             UniqueResource.objects s0 !! a = Some x ->
             UniqueResource.objects s0 !! b = Some y ->
             UniqueResource.swap a b s0
             = Some (tt, UniqueResource.mk_state
                           (<[b := x]> (<[a := y]> (UniqueResource.objects s0)))
                           (UniqueResource.deinit_calls s0))).
  { intros s0 x y Ha0 Hb0. unfold UniqueResource.swap. rewrite Ha0. cbn.
    rewrite Hb0. cbn.
    destruct (decide (a = b)) as [->|Hne].
    - by rewrite lookup_insert_eq.
    - rewrite lookup_insert_ne by done. by rewrite Hb0. }
  assert (Hab : ha = hb \/ a <> b).
  { destruct (decide (a = b)) as [->|Hne]; [left; congruence|by right]. }
  eexists. split; [by apply (Hobj s ha hb)|]. cbn.
  split.
  { destruct (decide (a = b)) as [->|Hne].
    - rewrite lookup_insert_eq. congruence.
    - rewrite lookup_insert_ne by done. apply lookup_insert_eq. }
  split; [apply lookup_insert_eq|].
  split; [intros c Hca Hcb; by rewrite !lookup_insert_ne|].
  split; [done|].
  assert (Hback : <[b := hb]> (<[a := ha]> (<[b := ha]> (<[a := hb]>
                     (UniqueResource.objects s)))) = UniqueResource.objects s).
  { apply map_eq. intros p.
    destruct (decide (p = b)) as [->|Hpb]; [by rewrite lookup_insert_eq|].
    rewrite lookup_insert_ne by done.
    destruct (decide (p = a)) as [->|Hpa]; [by rewrite lookup_insert_eq|].
    by rewrite !lookup_insert_ne by done. }
  split.
  - rewrite (Hobj _ hb ha); cbn.
    + f_equal. f_equal. by apply ur_state_eq.
    + destruct (decide (a = b)) as [->|Hne].
      * rewrite lookup_insert_eq. congruence.
      * rewrite lookup_insert_ne by done. apply lookup_insert_eq.
    + apply lookup_insert_eq.
  - intros ->. apply ur_state_eq; [|done]. cbn.
    rewrite insert_insert_eq. apply insert_id. congruence.
Qed.

(** ** Ownership is kept by every member that takes no handle from outside *)

Local Ltac ur_unfold :=
  unfold UniqueResourceSpec.unique, UniqueResourceSpec.held,
    UniqueResource.set_m_handle, UniqueResource.deinit; cbn.

(** X25. The members that take no handle from outside (default and move
    construction, move assignment, [release], [reset()], [swap], [get],
    [operator bool], the destructor) keep ownership unique and account for
    every handle.  If no handle but the null handle is held by two objects
    before the call, the same is true after it; a handle other than the
    null handle that the call hands to [deinit] is held by no object
    afterwards; every such handle held before is afterwards still held, or
    was handed to [deinit], or was returned to the caller; and no handle is
    held afterwards that was not held before. *)
Theorem members_keep_unique_ownership
    (s s' : ur_state) (c : UniqueResourceSpec.call) (out : list handle_type) :
  UniqueResourceSpec.unique null_handle s ->
  UniqueResourceSpec.constructs_fresh s c ->
  UniqueResourceSpec.run null_handle c s = Some (out, s') ->
  UniqueResourceSpec.unique null_handle s'
  /\ exists new,
      UniqueResource.deinit_calls s' = UniqueResource.deinit_calls s ++ new
      /\ (forall h, h ∈ new -> h <> null_handle -> ~ UniqueResourceSpec.held s' h)
      /\ (forall h, h <> null_handle -> UniqueResourceSpec.held s h ->
            UniqueResourceSpec.held s' h \/ h ∈ new \/ h ∈ out)
      /\ (forall h, h <> null_handle -> UniqueResourceSpec.held s' h ->
            UniqueResourceSpec.held s h).
Proof.
  intros Huniq Hfresh Hrun.
  destruct s as [objs calls]. unfold UniqueResourceSpec.unique in Huniq.
  cbn in Huniq.
  destruct c as [this|this rhs|this rhs|this|this|this rhs|this|this|this];
    cbn in Hrun, Hfresh.
  - (* default construction *)
    injection Hrun as <- <-. ur_unfold. split.
    + intros a b h. cbn.
      destruct (decide (a = this)) as [->|Ha];
        [rewrite lookup_insert_eq; congruence|].
      destruct (decide (b = this)) as [->|Hb];
        [rewrite (lookup_insert_eq _ this); congruence|].
      rewrite !lookup_insert_ne by done. apply Huniq.
    + exists []. cbn. split; [by rewrite app_nil_r|].
      split; [by intros h ?%elem_of_nil|]. split.
      * intros h Hh [a Ha]. left. exists a. cbn in *.
        rewrite lookup_insert_ne; [done|]. congruence.
      * intros h Hh [a Ha]. exists a. cbn in *.
        destruct (decide (a = this)) as [->|Hne];
          [rewrite lookup_insert_eq in Ha; congruence|].
        by rewrite lookup_insert_ne in Ha.
  - (* move construction *)
    unfold UniqueResource.move_ctor, UniqueResource.release in Hrun. cbn in Hrun.
    destruct (objs !! rhs) as [hr|] eqn:Hr; [|done]. cbn in Hrun.
    injection Hrun as <- <-. ur_unfold.
    assert (Hne : this <> rhs) by congruence.
    split.
    + intros a b h. cbn. intros Ha Hb Hh.
      destruct (decide (a = this)) as [->|Hat], (decide (b = this)) as [->|Hbt];
        [done| | |].
      * rewrite lookup_insert_eq in Ha. injection Ha as <-.
        rewrite lookup_insert_ne in Hb by done.
        destruct (decide (b = rhs)) as [->|Hbr];
          [rewrite lookup_insert_eq in Hb; congruence|].
        rewrite lookup_insert_ne in Hb by done.
        exfalso. apply Hbr. by apply (Huniq b rhs hr).
      * rewrite lookup_insert_eq in Hb. injection Hb as <-.
        rewrite lookup_insert_ne in Ha by done.
        destruct (decide (a = rhs)) as [->|Har];
          [rewrite lookup_insert_eq in Ha; congruence|].
        rewrite lookup_insert_ne in Ha by done.
        exfalso. apply Har. by apply (Huniq a rhs hr).
      * rewrite lookup_insert_ne in Ha, Hb by done.
        destruct (decide (a = rhs)) as [->|Har];
          [rewrite lookup_insert_eq in Ha; congruence|].
        destruct (decide (b = rhs)) as [->|Hbr];
          [rewrite lookup_insert_eq in Hb; congruence|].
        rewrite lookup_insert_ne in Ha, Hb by done. by apply (Huniq a b h).
    + exists []. cbn. split; [by rewrite app_nil_r|].
      split; [by intros h ?%elem_of_nil|]. split.
      * intros h Hh [a Ha]. left. cbn in *.
        destruct (decide (a = rhs)) as [->|Har].
        -- exists this. cbn. rewrite lookup_insert_eq. congruence.
        -- exists a. cbn. rewrite !lookup_insert_ne; [done|done|congruence].
      * intros h Hh [a Ha]. cbn in *.
        destruct (decide (a = this)) as [->|Hat].
        -- rewrite lookup_insert_eq in Ha. injection Ha as <-. by exists rhs.
        -- rewrite lookup_insert_ne in Ha by done.
           destruct (decide (a = rhs)) as [->|Har];
             [rewrite lookup_insert_eq in Ha; congruence|].
           rewrite lookup_insert_ne in Ha by done. by exists a.
  - (* move assignment *)
    unfold UniqueResource.move_assign, UniqueResource.release,
      UniqueResource.reset_handle in Hrun. cbn in Hrun.
    destruct (objs !! rhs) as [hr|] eqn:Hr; [|done]. cbn in Hrun.
    destruct (decide (this = rhs)) as [->|Hne].
    + rewrite lookup_insert_eq in Hrun. cbn in Hrun. injection Hrun as <- <-. ur_unfold.
      cbn. rewrite insert_insert_eq, (insert_id objs rhs hr) by done.
      split; [exact Huniq|].
      exists [null_handle]. split; [done|]. split.
      * intros h ->%list_elem_of_singleton. done.
      * split; [by left|done].
    + rewrite lookup_insert_ne in Hrun by done.
      destruct (objs !! this) as [ht|] eqn:Ht; [|done]. cbn in Hrun.
      injection Hrun as <- <-. ur_unfold. split.
      * intros a b h. cbn. intros Ha Hb Hh.
        destruct (decide (a = this)) as [->|Hat], (decide (b = this)) as [->|Hbt];
          [done| | |].
        -- rewrite lookup_insert_eq in Ha. injection Ha as <-.
           rewrite lookup_insert_ne in Hb by done.
           destruct (decide (b = rhs)) as [->|Hbr];
             [rewrite lookup_insert_eq in Hb; congruence|].
           rewrite lookup_insert_ne in Hb by done.
           exfalso. apply Hbr. by apply (Huniq b rhs hr).
        -- rewrite lookup_insert_eq in Hb. injection Hb as <-.
           rewrite lookup_insert_ne in Ha by done.
           destruct (decide (a = rhs)) as [->|Har];
             [rewrite lookup_insert_eq in Ha; congruence|].
           rewrite lookup_insert_ne in Ha by done.
           exfalso. apply Har. by apply (Huniq a rhs hr).
        -- rewrite lookup_insert_ne in Ha, Hb by done.
           destruct (decide (a = rhs)) as [->|Har];
             [rewrite lookup_insert_eq in Ha; congruence|].
           destruct (decide (b = rhs)) as [->|Hbr];
             [rewrite lookup_insert_eq in Hb; congruence|].
           rewrite lookup_insert_ne in Ha, Hb by done. by apply (Huniq a b h).
      * exists [ht]. cbn. split; [done|]. split; [|split].
        -- intros h ->%list_elem_of_singleton Hh [a Ha]. cbn in Ha.
           destruct (decide (a = this)) as [->|Hat].
           ++ rewrite lookup_insert_eq in Ha. injection Ha as ->.
              apply Hne. by apply (Huniq this rhs ht).
           ++ rewrite lookup_insert_ne in Ha by done.
              destruct (decide (a = rhs)) as [->|Har];
                [rewrite lookup_insert_eq in Ha; congruence|].
              rewrite lookup_insert_ne in Ha by done.
              apply Hat. by apply (Huniq a this ht).
        -- intros h Hh [a Ha]. cbn in *.
           destruct (decide (a = this)) as [->|Hat].
           ++ right. left. apply list_elem_of_singleton. congruence.
           ++ left. destruct (decide (a = rhs)) as [->|Har].
              ** exists this. cbn. rewrite lookup_insert_eq. congruence.
              ** exists a. cbn. by rewrite !lookup_insert_ne.
        -- intros h Hh [a Ha]. cbn in *.
           destruct (decide (a = this)) as [->|Hat].
           ++ rewrite lookup_insert_eq in Ha. injection Ha as <-. by exists rhs.
           ++ rewrite lookup_insert_ne in Ha by done.
              destruct (decide (a = rhs)) as [->|Har];
                [rewrite lookup_insert_eq in Ha; congruence|].
              rewrite lookup_insert_ne in Ha by done. by exists a.
  - (* release *)
    unfold UniqueResource.release in Hrun. cbn in Hrun.
    destruct (objs !! this) as [ht|] eqn:Ht; [|done]. cbn in Hrun.
    injection Hrun as <- <-. ur_unfold. split.
    + intros a b h. cbn.
      destruct (decide (a = this)) as [->|Ha];
        [rewrite lookup_insert_eq; congruence|].
      destruct (decide (b = this)) as [->|Hb];
        [rewrite (lookup_insert_eq _ this); congruence|].
      rewrite !lookup_insert_ne by done. apply Huniq.
    + exists []. cbn. split; [by rewrite app_nil_r|].
      split; [by intros h ?%elem_of_nil|]. split.
      * intros h Hh [a Ha]. cbn in *.
        destruct (decide (a = this)) as [->|Hat].
        -- right. right. apply list_elem_of_singleton. congruence.
        -- left. exists a. cbn. by rewrite lookup_insert_ne.
      * intros h Hh [a Ha]. exists a. cbn in *.
        destruct (decide (a = this)) as [->|Hne];
          [rewrite lookup_insert_eq in Ha; congruence|].
        by rewrite lookup_insert_ne in Ha.
  - (* reset *)
    unfold UniqueResource.reset in Hrun. cbn in Hrun.
    destruct (objs !! this) as [ht|] eqn:Ht; [|done]. cbn in Hrun.
    injection Hrun as <- <-. ur_unfold. split.
    + intros a b h. cbn.
      destruct (decide (a = this)) as [->|Ha];
        [rewrite lookup_insert_eq; congruence|].
      destruct (decide (b = this)) as [->|Hb];
        [rewrite (lookup_insert_eq _ this); congruence|].
      rewrite !lookup_insert_ne by done. apply Huniq.
    + exists [ht]. cbn. split; [done|]. split; [|split].
      * intros h ->%list_elem_of_singleton Hh [a Ha]. cbn in Ha.
        destruct (decide (a = this)) as [->|Hat];
          [rewrite lookup_insert_eq in Ha; congruence|].
        rewrite lookup_insert_ne in Ha by done.
        apply Hat. by apply (Huniq a this ht).
      * intros h Hh [a Ha]. cbn in *.
        destruct (decide (a = this)) as [->|Hat].
        -- right. left. apply list_elem_of_singleton. congruence.
        -- left. exists a. cbn. by rewrite lookup_insert_ne.
      * intros h Hh [a Ha]. exists a. cbn in *.
        destruct (decide (a = this)) as [->|Hne];
          [rewrite lookup_insert_eq in Ha; congruence|].
        by rewrite lookup_insert_ne in Ha.
  - (* swap *)
    unfold UniqueResource.swap in Hrun. cbn in Hrun.
    destruct (objs !! this) as [ht|] eqn:Ht; [|done]. cbn in Hrun.
    destruct (objs !! rhs) as [hr|] eqn:Hr; [|done]. cbn in Hrun.
    assert (Hrhs : is_Some (<[this := hr]> objs !! rhs)).
    { destruct (decide (this = rhs)) as [->|Hne].
      - rewrite lookup_insert_eq. eauto.
      - rewrite lookup_insert_ne by done. eauto. }
    destruct Hrhs as [x Hx]. rewrite Hx in Hrun. cbn in Hrun.
    injection Hrun as <- <-. ur_unfold.
    assert (Hlook : forall a h,
               <[rhs := ht]> (<[this := hr]> objs) !! a = Some h ->
               (a = rhs /\ h = ht) \/ (a = this /\ a <> rhs /\ h = hr)
               \/ (a <> rhs /\ a <> this /\ objs !! a = Some h)).
    { intros a h. destruct (decide (a = rhs)) as [->|Har].
      - rewrite lookup_insert_eq. intros [= <-]. by left.
      - rewrite lookup_insert_ne by done.
        destruct (decide (a = this)) as [->|Hat].
        + rewrite lookup_insert_eq. intros [= <-]. right. by left.
        + rewrite lookup_insert_ne by done. intros H'. right. by right. }
    split.
    + intros a b h. cbn. intros Ha%Hlook Hb%Hlook Hh.
      destruct Ha as [[-> ->]|[(-> & Har & ->)|(Har & Hat & Ha)]],
               Hb as [[-> Hb]|[(-> & Hbr & Hb)|(Hbr & Hbt & Hb)]];
        try done; subst;
        first [ by eauto | by symmetry; eauto | by exfalso; eauto ].
    + exists []. cbn. split; [by rewrite app_nil_r|].
      split; [by intros h ?%elem_of_nil|]. split.
      * intros h Hh [a Ha]. left. cbn in *.
        destruct (decide (a = this)) as [->|Hat].
        -- exists rhs. cbn. rewrite lookup_insert_eq. congruence.
        -- destruct (decide (a = rhs)) as [->|Har].
           ++ destruct (decide (this = rhs)) as [->|Hne]; [done|].
              exists this. cbn. rewrite lookup_insert_ne, lookup_insert_eq by done.
              congruence.
           ++ exists a. cbn. by rewrite !lookup_insert_ne.
      * intros h Hh [a Ha%Hlook]. cbn in *.
        destruct Ha as [[-> ->]|[(-> & Har & ->)|(Har & Hat & Ha)]].
        -- by exists this.
        -- by exists rhs.
        -- by exists a.
  - (* get *)
    unfold UniqueResource.get in Hrun. cbn in Hrun.
    destruct (objs !! this) as [ht|] eqn:Ht; [|done]. cbn in Hrun.
    injection Hrun as <- <-. ur_unfold. split; [exact Huniq|].
    exists []. cbn. split; [by rewrite app_nil_r|].
    split; [by intros h ?%elem_of_nil|]. split; [by left|done].
  - (* operator bool *)
    unfold UniqueResource.operator_bool in Hrun. cbn in Hrun.
    destruct (objs !! this) as [ht|] eqn:Ht; [|done]. cbn in Hrun.
    injection Hrun as <- <-. ur_unfold. split; [exact Huniq|].
    exists []. cbn. split; [by rewrite app_nil_r|].
    split; [by intros h ?%elem_of_nil|]. split; [by left|done].
  - (* destructor *)
    unfold UniqueResource.dtor, UniqueResource.reset in Hrun. cbn in Hrun.
    destruct (objs !! this) as [ht|] eqn:Ht; [|done]. cbn in Hrun.
    injection Hrun as <- <-. ur_unfold. cbn. rewrite delete_insert_eq.
    split.
    + intros a b h. cbn.
      destruct (decide (a = this)) as [->|Ha]; [by rewrite lookup_delete_eq|].
      destruct (decide (b = this)) as [->|Hb];
        [by rewrite (lookup_delete_eq _ this)|].
      rewrite !lookup_delete_ne by done. apply Huniq.
    + exists [ht]. cbn. split; [done|]. split; [|split].
      * intros h ->%list_elem_of_singleton Hh [a Ha]. cbn in Ha.
        destruct (decide (a = this)) as [->|Hat];
          [by rewrite lookup_delete_eq in Ha|].
        rewrite lookup_delete_ne in Ha by done.
        apply Hat. by apply (Huniq a this ht).
      * intros h Hh [a Ha]. cbn in *.
        destruct (decide (a = this)) as [->|Hat].
        -- right. left. apply list_elem_of_singleton. congruence.
        -- left. exists a. cbn. by rewrite lookup_delete_ne.
      * intros h Hh [a Ha]. exists a. cbn in *.
        destruct (decide (a = this)) as [->|Hne];
          [by rewrite lookup_delete_eq in Ha|].
        by rewrite lookup_delete_ne in Ha.
Qed.

End UniqueResourceProperties.

Lemma move_then_destroy_both_witness :
  1%positive <> 3%positive
  /\ UniqueResource.objects sample_owners !! 1%positive = Some (Some 5%positive)
  /\ exists s1 s2 s3,
      UniqueResource.move_ctor nullptr 3%positive 1%positive sample_owners
      = Some (tt, s1)
      /\ UniqueResource.objects s1 !! 3%positive = Some (Some 5%positive)
      /\ UniqueResource.objects s1 !! 1%positive = Some nullptr
      /\ UniqueResource.deinit_calls s1 = UniqueResource.deinit_calls sample_owners
      /\ UniqueResource.dtor nullptr 3%positive s1 = Some (tt, s2)
      /\ UniqueResource.dtor nullptr 1%positive s2 = Some (tt, s3)
      /\ UniqueResource.deinit_calls s3
         = UniqueResource.deinit_calls sample_owners ++ [Some 5%positive; nullptr]
      /\ UniqueResource.objects s3
         = delete 1%positive
             (delete 3%positive (UniqueResource.objects sample_owners)).
Proof.
  assert (H1 : 1%positive <> 3%positive) by discriminate.
  assert (H2 : UniqueResource.objects sample_owners !! 1%positive
               = Some (Some 5%positive)) by reflexivity.
  split; [exact H1|]. split; [exact H2|].
  exact (move_then_destroy_both nullptr sample_owners 1 3 (Some 5%positive) H1 H2).
Defined.

Lemma move_assign_cases_witness :
  UniqueResource.objects sample_owners !! 1%positive = Some (Some 5%positive)
  /\ UniqueResource.objects sample_owners !! 2%positive = Some (Some 6%positive)
  /\ exists s',
      UniqueResource.move_assign nullptr 1%positive 2%positive sample_owners
      = Some (tt, s')
      /\ (1%positive <> 2%positive ->
          UniqueResource.objects s'
          = <[1%positive := Some 6%positive]>
              (<[2%positive := nullptr]> (UniqueResource.objects sample_owners))
          /\ UniqueResource.deinit_calls s'
             = UniqueResource.deinit_calls sample_owners ++ [Some 5%positive])
      /\ (1%positive = 2%positive ->
          UniqueResource.objects s' = UniqueResource.objects sample_owners
          /\ UniqueResource.deinit_calls s'
             = UniqueResource.deinit_calls sample_owners ++ [nullptr]).
Proof.
  assert (H1 : UniqueResource.objects sample_owners !! 1%positive
               = Some (Some 5%positive)) by reflexivity.
  assert (H2 : UniqueResource.objects sample_owners !! 2%positive
               = Some (Some 6%positive)) by reflexivity.
  split; [exact H1|]. split; [exact H2|].
  exact (move_assign_cases nullptr sample_owners 1 2 _ _ H1 H2).
Defined.

Lemma reset_to_own_handle_deinits_twice_witness :
  UniqueResource.objects sample_owners !! 1%positive = Some (Some 5%positive)
  /\ exists s2 s3,
      UniqueResource.get 1%positive sample_owners
      = Some (Some 5%positive, sample_owners)
      /\ UniqueResource.reset_handle 1%positive (Some 5%positive) sample_owners
         = Some (tt, s2)
      /\ UniqueResource.objects s2 !! 1%positive = Some (Some 5%positive)
      /\ UniqueResource.deinit_calls s2
         = UniqueResource.deinit_calls sample_owners ++ [Some 5%positive]
      /\ UniqueResource.dtor nullptr 1%positive s2 = Some (tt, s3)
      /\ UniqueResource.deinit_calls s3
         = UniqueResource.deinit_calls sample_owners
           ++ [Some 5%positive; Some 5%positive].
Proof.
  assert (H1 : UniqueResource.objects sample_owners !! 1%positive
               = Some (Some 5%positive)) by reflexivity.
  split; [exact H1|].
  exact (reset_to_own_handle_deinits_twice nullptr sample_owners 1 _ H1).
Defined.

Lemma swap_exchanges_witness :
  UniqueResource.objects sample_owners !! 1%positive = Some (Some 5%positive)
  /\ UniqueResource.objects sample_owners !! 2%positive = Some (Some 6%positive)
  /\ exists s1,
      UniqueResource.swap 1%positive 2%positive sample_owners = Some (tt, s1)
      /\ UniqueResource.objects s1 !! 1%positive = Some (Some 6%positive)
      /\ UniqueResource.objects s1 !! 2%positive = Some (Some 5%positive)
      /\ (forall c, c <> 1%positive -> c <> 2%positive ->
            UniqueResource.objects s1 !! c
            = UniqueResource.objects sample_owners !! c)
      /\ UniqueResource.deinit_calls s1 = UniqueResource.deinit_calls sample_owners
      /\ UniqueResource.swap 1%positive 2%positive s1 = Some (tt, sample_owners)
      /\ (1%positive = 2%positive -> s1 = sample_owners).
Proof.
  assert (H1 : UniqueResource.objects sample_owners !! 1%positive
               = Some (Some 5%positive)) by reflexivity.
  assert (H2 : UniqueResource.objects sample_owners !! 2%positive
               = Some (Some 6%positive)) by reflexivity.
  split; [exact H1|]. split; [exact H2|].
  exact (swap_exchanges sample_owners 1 2 _ _ H1 H2).
Defined.

Lemma sample_owners_unique : UniqueResourceSpec.unique nullptr sample_owners.
Proof.
  intros a b h Ha Hb _. unfold sample_owners in Ha, Hb. cbn in Ha, Hb.
  apply lookup_insert_Some in Ha as [[<- <-]|[Ha1 Ha]];
    apply lookup_insert_Some in Hb as [[<- Hb]|[Hb1 Hb]]; try done.
  - apply lookup_insert_Some in Hb as [[<- Hb]|[Hb2 Hb]]; [done|].
    by rewrite lookup_empty in Hb.
  - apply lookup_insert_Some in Ha as [[<- <-]|[Ha2 Ha]]; [done|].
    by rewrite lookup_empty in Ha.
  - apply lookup_insert_Some in Ha as [[<- <-]|[Ha2 Ha]];
      [|by rewrite lookup_empty in Ha].
    apply lookup_insert_Some in Hb as [[<- Hb]|[Hb2 Hb]]; [done|].
    by rewrite lookup_empty in Hb.
Qed.

Lemma members_keep_unique_ownership_witness :
  UniqueResourceSpec.unique nullptr sample_owners
  /\ UniqueResourceSpec.constructs_fresh sample_owners
       (UniqueResourceSpec.call_move_assign 1 2)
  /\ UniqueResourceSpec.run nullptr (UniqueResourceSpec.call_move_assign 1 2)
       sample_owners
     = Some ([], sample_owners_assigned)
  /\ UniqueResourceSpec.unique nullptr sample_owners_assigned
  /\ exists new,
      UniqueResource.deinit_calls sample_owners_assigned
      = UniqueResource.deinit_calls sample_owners ++ new
      /\ (forall h, h ∈ new -> h <> nullptr ->
            ~ UniqueResourceSpec.held sample_owners_assigned h)
      /\ (forall h, h <> nullptr -> UniqueResourceSpec.held sample_owners h ->
            UniqueResourceSpec.held sample_owners_assigned h
            \/ h ∈ new \/ h ∈ ([] : list pointer))
      /\ (forall h, h <> nullptr ->
            UniqueResourceSpec.held sample_owners_assigned h ->
            UniqueResourceSpec.held sample_owners h).
Proof.
  assert (H1 : UniqueResourceSpec.unique nullptr sample_owners)
    by exact sample_owners_unique.
  assert (H2 : UniqueResourceSpec.constructs_fresh sample_owners
                 (UniqueResourceSpec.call_move_assign 1 2)) by exact I.
  assert (H3 : UniqueResourceSpec.run nullptr
                 (UniqueResourceSpec.call_move_assign 1 2) sample_owners
               = Some ([], sample_owners_assigned)) by reflexivity.
  split; [exact H1|]. split; [exact H2|]. split; [exact H3|].
  exact (members_keep_unique_ownership nullptr _ _ _ _ H1 H2 H3).
Defined.
